(** * history-collector: the ETL loop of [python/main.py]

    A shallow embedding of the Stellar history collector: the cursor over
    archive file names, the S3 download with its retry loop, the filter that
    turns decoded operations into INSERT statements, and the transaction
    that stores them together with the [lastfile] checkpoint.

    Python values are modelled as the script uses them: [str] as [string]
    (ASCII), [int] as [Z], [None] as [option], dictionaries read with a
    computed key as [gmap], dictionaries read with literal keys as records,
    and raised exceptions as the [Raise] branch of [result]. *)

From Stdlib Require Import ZArith Ascii String.
From stdpp Require Import base tactics option list gmap strings pretty.

Local Open Scope string_scope.
Local Open Scope Z_scope.
Local Open Scope list_scope.

(** ** Exceptions and results *)

Inductive exn : Type :=
  | KeyError
  | IndexError
  | ValueError
  | TypeError
  | FileNotFoundError
  | ClientError (code : string)   (* botocore: e.response['Error']['Code'] *)
  | EndpointConnectionError       (* a botocore failure that is no ClientError *)
  | DatabaseError (statement : string).

Inductive result (A : Type) : Type :=
  | Ok (a : A)
  | Raise (e : exn).
Arguments Ok {A} a.
Arguments Raise {A} e.

(** ** Python built-ins used by the script *)

Module Py.

(** Values handed to [str.format]; [str] is Python's [str()]. *)
Inductive value : Type :=
  | VStr (s : string)
  | VInt (n : Z)
  | VNone.

Definition str (v : value) : string :=
  match v with
  | VStr s => s
  | VInt n => pretty n
  | VNone => "None"
  end.

(** [template.format(args...)] for templates whose only fields are the
    auto-numbered [{}]; a field without an argument is an IndexError,
    surplus arguments are ignored. *)
Fixpoint format (template : string) (args : list value) : result string :=
  match template with
  | "" => Ok ""
  | String c t =>
      let copy := match format t args with
                  | Ok r => Ok (String c r)
                  | Raise e => Raise e
                  end in
      if Ascii.eqb c "{" then
        match t with
        | String "}" t' =>
            match args with
            | a :: args' =>
                match format t' args' with
                | Ok r => Ok (str a +:+ r)
                | Raise e => Raise e
                end
            | [] => Raise IndexError
            end
        | _ => copy
        end
      else copy
  end.

(** [s * n] for a string and an integer: empty when [n <= 0]. *)
Fixpoint repeat_nat (s : string) (n : nat) : string :=
  match n with
  | O => ""
  | S k => s +:+ repeat_nat s k
  end.
Definition mul (s : string) (n : Z) : string := repeat_nat s (Z.to_nat n).

(** [len(s)] *)
Definition len (s : string) : Z := Z.of_nat (String.length s).

(** [s[i:j]] and [s[:j]] for indices that are not negative. *)
Definition slice (s : string) (i j : nat) : string :=
  String.substring i (j - i) s.
Definition take (s : string) (j : nat) : string := slice s 0 j.

(** [range(start, stop, step)] with a positive step. *)
Definition range3 (start stop step : nat) : list nat :=
  map (fun k => (start + k * step)%nat)
      (seq 0 (Nat.div (stop - start + (step - 1)) step)).

(** [range(n)] for an integer [n]: empty when [n <= 0]. *)
Definition range (n : Z) : list Z :=
  map Z.of_nat (seq 0 (Z.to_nat n)).

(** [sep.join(parts)] *)
Fixpoint join (sep : string) (parts : list string) : string :=
  match parts with
  | [] => ""
  | [p] => p
  | p :: rest => p +:+ sep +:+ join sep rest
  end.

(** [s.split(c)] for a one-character separator. *)
Fixpoint split (sep : ascii) (s : string) : list string :=
  match s with
  | "" => [""]
  | String c s' =>
      if Ascii.eqb c sep then "" :: split sep s'
      else match split sep s' with
           | w :: ws => String c w :: ws
           | [] => [String c ""]
           end
  end.

(** [l[i]] *)
Definition index {A} (l : list A) (i : nat) : result A :=
  match l !! i with
  | Some x => Ok x
  | None => Raise IndexError
  end.

(** [needle in s] *)
Fixpoint contains (needle s : string) : bool :=
  String.prefix needle s ||
  match s with
  | "" => false
  | String _ s' => contains needle s'
  end.

(** [s.replace(old, new)]: occurrences are replaced from the left and do
    not overlap; [skip] counts the characters of a match still to drop. *)
Fixpoint replace_go (old new : string) (skip : nat) (s : string) : string :=
  match s with
  | "" => ""
  | String c s' =>
      match skip with
      | S k => replace_go old new k s'
      | O =>
          if String.prefix old s
          then new +:+ replace_go old new (String.length old - 1) s'
          else String c (replace_go old new O s')
      end
  end.

Fixpoint intersperse (new s : string) : string :=
  match s with
  | "" => new
  | String c s' => new +:+ String c (intersperse new s')
  end.

Definition replace (s old new : string) : string :=
  match old with
  | "" => intersperse new s
  | _ => replace_go old new O s
  end.

(** [s.lower()] *)
Definition lower_char (c : ascii) : ascii :=
  let n := N_of_ascii c in
  if ((65 <=? n) && (n <=? 90))%N then ascii_of_N (n + 32) else c.
Fixpoint lower (s : string) : string :=
  match s with
  | "" => ""
  | String c s' => String (lower_char c) (lower s')
  end.

(** [d[k]] on a dictionary *)
Definition getitem {V} (d : gmap string V) (k : string) : result V :=
  match d !! k with
  | Some v => Ok v
  | None => Raise KeyError
  end.

(** *** [int(s, base)] *)

(** The literal [int] accepts: whitespace around it, an optional sign, an
    optional base prefix, then digits with single underscores between them.
    Strings are ASCII, and on an ASCII string [int] strips the whitespace of
    C only: tab, newline, vertical tab, form feed, carriage return, space. *)
Definition is_space (c : ascii) : bool :=
  let n := Z.of_N (N_of_ascii c) in
  (9 <=? n) && (n <=? 13) || (n =? 32).

Fixpoint lstrip (s : string) : string :=
  match s with
  | "" => ""
  | String c s' => if is_space c then lstrip s' else s
  end.

Fixpoint rstrip (s : string) : string :=
  match s with
  | "" => ""
  | String c s' =>
      match rstrip s' with
      | "" => if is_space c then "" else String c ""
      | r => String c r
      end
  end.

Definition digit_value (c : ascii) : option Z :=
  let n := Z.of_N (N_of_ascii c) in
  if (48 <=? n) && (n <=? 57) then Some (n - 48)
  else if (97 <=? n) && (n <=? 122) then Some (n - 87)
  else if (65 <=? n) && (n <=? 90) then Some (n - 55)
  else None.

Definition digit_in (base : Z) (c : ascii) : option Z :=
  match digit_value c with
  | Some v => if v <? base then Some v else None
  | None => None
  end.

(** Digits after the first one; an underscore must sit between two digits. *)
Fixpoint parse_digits (base acc : Z) (s : string) : option Z :=
  match s with
  | "" => Some acc
  | String c s' =>
      if Ascii.eqb c "_" then
        match s' with
        | String d s'' =>
            match digit_in base d with
            | Some v => parse_digits base (acc * base + v) s''
            | None => None
            end
        | "" => None
        end
      else
        match digit_in base c with
        | Some v => parse_digits base (acc * base + v) s'
        | None => None
        end
  end.

Definition parse_number (base : Z) (s : string) : option Z :=
  match s with
  | "" => None
  | String c s' =>
      match digit_in base c with
      | Some v => parse_digits base v s'
      | None => None
      end
  end.

(** The literal prefix a base admits: 0x, 0o or 0b in either case,
    optionally followed by one underscore. *)
Definition prefix_letter (base : Z) (c : ascii) : bool :=
  if base =? 16 then Ascii.eqb c "x" || Ascii.eqb c "X"
  else if base =? 8 then Ascii.eqb c "o" || Ascii.eqb c "O"
  else if base =? 2 then Ascii.eqb c "b" || Ascii.eqb c "B"
  else false.

Definition strip_base_prefix (base : Z) (s : string) : string :=
  match s with
  | String "0" (String x r) =>
      if prefix_letter base x
      then match r with
           | String "_" r' => r'
           | _ => r
           end
      else s
  | _ => s
  end.

Definition strip_sign (s : string) : bool * string :=
  match s with
  | String "-" r => (true, r)
  | String "+" r => (false, r)
  | _ => (false, s)
  end.

(** [int(s, base)] for an explicit base between 2 and 36. *)
Definition int (s : string) (base : Z) : result Z :=
  let '(negative, body) := strip_sign (rstrip (lstrip s)) in
  match parse_number base (strip_base_prefix base body) with
  | Some v => Ok (if negative then - v else v)
  | None => Raise ValueError
  end.

(** *** [hex(n)] *)

Definition hex_char (d : Z) : ascii :=
  ascii_of_N (Z.to_N (if d <? 10 then 48 + d else 87 + d)).

Fixpoint hex_digits_go (fuel : nat) (n : Z) (acc : string) : string :=
  match fuel with
  | O => acc
  | S f =>
      let acc' := String (hex_char (n mod 16)) acc in
      if n / 16 =? 0 then acc' else hex_digits_go f (n / 16) acc'
  end.

(** The digits of a natural number, most significant first; the fuel
    [log2 n + 1] is never exhausted (lemma [hex_digits_go_value]). *)
Definition hex_digits (n : Z) : string :=
  hex_digits_go (S (Z.to_nat (Z.log2 n))) n "".

Definition hex (n : Z) : string :=
  if n <? 0 then "-0x" +:+ hex_digits (- n) else "0x" +:+ hex_digits n.

End Py.

(** ** SequenceCursor: [get_new_file_sequence] *)

Definition get_new_file_sequence (old_file_name : string) : result string :=
  match Py.int old_file_name 16 with
  | Raise e => Raise e
  | Ok new_file_name =>
      let new_file_name := new_file_name + 64 in
      let new_file_name := Py.hex new_file_name in
      let new_file_name := Py.replace new_file_name "0x" "" in
      let new_file_name :=
        Py.mul "0" (8 - Py.len new_file_name) +:+ new_file_name in
      Ok new_file_name
  end.


(** ** Configuration: the constants read from the environment *)

Record config : Type := {
  PYTHON_PASSWORD : string;
  ASSET_CODE : string;
  ASSET_ISSUER : string;
  NETWORK_PASSPHARSE : string;
  MAX_RETRIES : Z;
  BUCKET_NAME : string;
  CORE_DIRECTORY : string;
}.

(** [ASSET_TYPE = 'alphaNum' + '4' if len(ASSET_CODE) <= 4 else '12']:
    the conditional expression binds weaker than [+]. *)
Definition ASSET_TYPE (cfg : config) : string :=
  if Py.len (ASSET_CODE cfg) <=? 4 then "alphaNum" +:+ "4" else "12".

(** ** The world the script acts on *)

Inductive level : Type := INFO | WARNING | ERROR.

Inductive event : Type :=
  | Log (lvl : level) (message : string)
  | S3Download (bucket key filename : string)
  | Sleep (seconds : Z)
  | Execute (sql : string)
  | Commit
  | Remove (path : string).

Inductive s3_reply : Type :=
  | Downloaded
  | Failed (e : exn).

Record world : Type := {
  trace : list event;     (* what the process did so far, oldest first *)
  files : gset string;    (* the working directory *)
  durable : list string;  (* statements of the committed transactions *)
  pending : list string;  (* statements of the open transaction *)
}.

(** ** Decoded archive records, in the shape [xdrparser] hands them over *)

(** [asset[ASSET_TYPE]] is read with a computed key: the asset is kept as
    the dictionary it is, whose entries may hold [None]. *)
Record alpha_num : Type := {
  assetCode : string;
  issuer : string;                       (* ['issuer']['ed25519'] *)
}.

Record payment_op : Type := {
  asset : gmap string (option alpha_num);
  destination : string;                  (* ['destination']['ed25519'] *)
  amount : Z;
}.

Record change_trust_op : Type := {
  line : gmap string (option alpha_num);
}.

Record operation_body : Type := {
  type : Z;
  paymentOp : option payment_op;           (* [None]: no such key *)
  changeTrustOp : option change_trust_op;  (* [None]: no such key *)
}.

Record operation : Type := {
  sourceAccount : option (list string);  (* [None]: no such key; else the
                                            ed25519 of each list element *)
  body : operation_body;
}.

Record transaction : Type := {
  tx_sourceAccount : string;             (* ['tx']['sourceAccount']['ed25519'] *)
  memo_text : option string;             (* ['tx']['memo']['text'] *)
  operations : list operation;           (* ['tx']['operations'] *)
  hash : string;
}.

Record transaction_history_entry : Type := {
  ledgerSeq : Z;
  txs : list transaction;                (* ['txSet']['txs'] *)
}.

Record ledger : Type := {
  header_ledgerSeq : Z;                  (* ['header']['ledgerSeq'] *)
  closeTime : Z;                         (* ['header']['scpValue']['closeTime'] *)
}.

(** The collaborators: the bucket answers the [n]-th request of the run, the
    database accepts or rejects a statement or a commit given what it holds,
    the decoder reads a downloaded file.  The schema creation is no part of
    the script: [lastfile_seed] is the row it left in [lastfile], if any. *)
Record environment : Type := {
  s3_answer : nat -> string -> s3_reply;
  db_accepts : list string -> list string -> string -> bool;
  db_commits : list string -> list string -> bool;
  parse_ledgers : string -> result (list ledger);
  parse_transactions : string -> string -> result (list transaction_history_entry);
  lastfile_seed : option string;
}.

(** ** A state and exception monad over the world *)

Definition M (A : Type) : Type := world -> result A * world.

Definition ret {A} (a : A) : M A := fun w => (Ok a, w).
Definition raise {A} (e : exn) : M A := fun w => (Raise e, w).
Definition bind {A B} (m : M A) (k : A -> M B) : M B :=
  fun w =>
    match m w with
    | (Ok a, w') => k a w'
    | (Raise e, w') => (Raise e, w')
    end.
Definition lift {A} (r : result A) : M A := fun w => (r, w).

Declare Scope prog_scope.
Delimit Scope prog_scope with prog.
Notation "x <- m ;; k" := (bind m (fun x => k))
  (at level 100, m at next level, right associativity) : prog_scope.
Notation "m ;;; k" := (bind m (fun _ => k))
  (at level 100, right associativity) : prog_scope.
Local Open Scope prog_scope.

(** [for x in xs: body(x)] *)
Fixpoint for_each {A} (xs : list A) (loop_body : A -> M unit) : M unit :=
  match xs with
  | [] => ret tt
  | x :: rest => loop_body x ;;; for_each rest loop_body
  end.

Definition emit (e : event) : M unit :=
  fun w => (Ok tt, {| trace := trace w ++ [e]; files := files w;
                      durable := durable w; pending := pending w |}).

Definition is_request (e : event) : bool :=
  match e with S3Download _ _ _ => true | _ => false end.
Definition is_sleep (e : event) : bool :=
  match e with Sleep _ => true | _ => false end.

(** The number of download requests, and of sleeps, in a trace. *)
Definition s3_requests (t : list event) : nat := length (List.filter is_request t).
Definition sleeps (t : list event) : nat := length (List.filter is_sleep t).

(** [logging.<level>(template.format(args...))] *)
Definition logging (lvl : level) (template : string) (args : list Py.value) : M unit :=
  message <- lift (Py.format template args) ;;
  emit (Log lvl message).

(** [time.sleep(seconds)] *)
Definition time_sleep (seconds : Z) : M unit := emit (Sleep seconds).

(** [s3.download_file(bucket, key, filename)]: the reply is the bucket's;
    a successful download leaves [filename] in the working directory. *)
Definition s3_download_file (env : environment) (bucket key filename : string) : M s3_reply :=
  fun w =>
    let reply := s3_answer env (s3_requests (trace w)) key in
    (Ok reply,
     {| trace := trace w ++ [S3Download bucket key filename];
        files := match reply with
                 | Downloaded => {[filename]} ∪ files w
                 | Failed _ => files w
                 end;
        durable := durable w; pending := pending w |}).

(** [os.remove(path)] *)
Definition os_remove (path : string) : M unit :=
  fun w =>
    if decide (path ∈ files w)
    then (Ok tt, {| trace := trace w ++ [Remove path]; files := files w ∖ {[path]};
                    durable := durable w; pending := pending w |})
    else (Raise FileNotFoundError, w).

(** [cur.execute(sql)]: the statement joins the open transaction, or the
    database rejects it and psycopg2 raises. *)
Definition cur_execute (env : environment) (sql : string) : M unit :=
  fun w =>
    if db_accepts env (durable w) (pending w) sql
    then (Ok tt, {| trace := trace w ++ [Execute sql]; files := files w;
                    durable := durable w; pending := pending w ++ [sql] |})
    else (Raise (DatabaseError sql), w).

(** [conn.commit()]: the open transaction becomes durable as a whole. *)
Definition conn_commit (env : environment) : M unit :=
  fun w =>
    if db_commits env (durable w) (pending w)
    then (Ok tt, {| trace := trace w ++ [Commit]; files := files w;
                    durable := durable w ++ pending w; pending := [] |})
    else (Raise (DatabaseError "COMMIT"), w).

(** What the database holds once the process is gone: the connection is
    closed and its open transaction rolled back. *)
Definition process_exit (w : world) : world :=
  {| trace := trace w; files := files w; durable := durable w; pending := [] |}.

(** ** Retriever: [download_file] *)

(** The directory of a file inside the bucket: lines 64 to 68. *)
Definition sub_directory (file_name : string) : result string :=
  match Py.index (Py.split "-" file_name) 1 with
  | Raise e => Raise e
  | Ok file_number =>
      let sub_directory :=
        Py.join "/" (map (fun i => Py.slice file_number i (i + 2))
                         (Py.range3 0 (String.length file_number) 2)) in
      let sub_directory := Py.take sub_directory 9 in
      Ok ((if Py.contains "ledger" file_name then "ledger/" else "transactions/")
          +:+ sub_directory)
  end.

(** The [for attempt in range(MAX_RETRIES + 1)] loop over the attempts left;
    leaving the match without a recursive call is the [break]. *)
Fixpoint download_attempts (cfg : config) (env : environment)
    (file_name sub_directory : string) (attempts : list Z) : M unit :=
  match attempts with
  | [] => ret tt
  | attempt :: rest =>
      logging INFO "Trying to download file {}.xdr.gz" [Py.VStr file_name] ;;;
      reply <- s3_download_file env (BUCKET_NAME cfg)
                 (CORE_DIRECTORY cfg +:+ sub_directory +:+ file_name +:+ ".xdr.gz")
                 (file_name +:+ ".xdr.gz") ;;
      match reply with
      | Downloaded => logging INFO "File {} downloaded" [Py.VStr file_name]
      | Failed (ClientError code) =>
          if attempt =? MAX_RETRIES cfg then
            logging ERROR "Reached retry limit when downloading file {}, quitting."
                    [Py.VStr file_name] ;;;
            raise (ClientError code)
          else
            error_code <- lift (Py.int code 10) ;;
            (if error_code =? 404 then
               logging WARNING "404, could not get file {}, retrying in 3 minutes"
                       [Py.VStr file_name] ;;;
               time_sleep 180
             else ret tt) ;;;
            download_attempts cfg env file_name sub_directory rest
      | Failed e => raise e
      end
  end.

Definition download_file (cfg : config) (env : environment) (file_name : string) : M unit :=
  sub_directory <- lift (sub_directory file_name) ;;
  download_attempts cfg env file_name sub_directory (Py.range (MAX_RETRIES cfg + 1)).

(** ** Projector and PersistenceSink: [write_to_postgres] *)

(** [{ledger['header']['ledgerSeq']: ...['closeTime'] for ledger in ledgers}]:
    a later ledger with the same sequence replaces an earlier one. *)
Definition get_ledgers_dictionary (ledgers : list ledger) : gmap Z Z :=
  fold_left (fun d l => <[header_ledgerSeq l := closeTime l]> d) ledgers ∅.

(** [asset[T] is not None and asset[T]['assetCode'] == ASSET_CODE and
    asset[T]['issuer']['ed25519'] == ASSET_ISSUER] with [T = ASSET_TYPE]. *)
Definition is_our_asset (cfg : config) (a : gmap string (option alpha_num)) : result bool :=
  match Py.getitem a (ASSET_TYPE cfg) with
  | Raise e => Raise e
  | Ok None => Ok false
  | Ok (Some entry) =>
      Ok (String.eqb (assetCode entry) (ASSET_CODE cfg)
          && String.eqb (issuer entry) (ASSET_ISSUER cfg))
  end.

(** [operation['sourceAccount'][0]['ed25519']] *)
Definition operation_source (op : operation) : result string :=
  match sourceAccount op with
  | None => Raise KeyError
  | Some accounts => Py.index accounts 0
  end.

(** [try: source = operation_source except (KeyError, IndexError): pass] *)
Definition override_source (source : string) (op : operation) : result string :=
  match operation_source op with
  | Ok overriding => Ok overriding
  | Raise KeyError | Raise IndexError => Ok source
  | Raise e => Raise e
  end.

(** ["'" + memo + "'" if memo is not None else 'NULL'] *)
Definition memo_argument (memo : option string) : Py.value :=
  match memo with
  | Some text => Py.VStr ("'" +:+ text +:+ "'")
  | None => Py.VStr "NULL"
  end.

(** The result of [ledgers_dictionary.get(...)] as a [format] argument. *)
Definition timestamp_argument (timestamp : option Z) : Py.value :=
  match timestamp with
  | Some t => Py.VInt t
  | None => Py.VNone
  end.

(** The statement an operation gives rise to, if any: the filter and the
    [format] call of the body of [for operation in ...['operations']]. *)
Definition project_operation (cfg : config) (timestamp : option Z)
    (tr : transaction) (memo : option string) (tx_hash : string)
    (op : operation) : result (option string) :=
  if type (body op) =? 1 then
    match paymentOp (body op) with
    | None => Raise KeyError
    | Some payment =>
        match is_our_asset cfg (asset payment) with
        | Raise e => Raise e
        | Ok false => Ok None
        | Ok true =>
            let source := tx_sourceAccount tr in
            let destination := destination payment in
            let amount := amount payment in
            match override_source source op with
            | Raise e => Raise e
            | Ok source =>
                match Py.format
                  "INSERT INTO payments VALUES ('{}','{}',{},{},'{}',to_timestamp({}));"
                  [Py.VStr source; Py.VStr destination; Py.VInt amount;
                   memo_argument memo; Py.VStr tx_hash; timestamp_argument timestamp]
                with
                | Raise e => Raise e
                | Ok sql => Ok (Some sql)
                end
            end
        end
    end
  else if type (body op) =? 6 then
    match changeTrustOp (body op) with
    | None => Raise KeyError
    | Some change =>
        match is_our_asset cfg (line change) with
        | Raise e => Raise e
        | Ok false => Ok None
        | Ok true =>
            let source := tx_sourceAccount tr in
            match override_source source op with
            | Raise e => Raise e
            | Ok source =>
                match Py.format
                  "INSERT INTO trustlines VALUES ('{}', {}, '{}',to_timestamp({}));"
                  [Py.VStr source; memo_argument memo; Py.VStr tx_hash;
                   timestamp_argument timestamp]
                with
                | Raise e => Raise e
                | Ok sql => Ok (Some sql)
                end
            end
        end
    end
  else Ok None.

(** The body of [for operation in ...['operations']]: the statement, when
    there is one, goes to [cur.execute]. *)
Definition write_operation (cfg : config) (env : environment)
    (timestamp : option Z) (tr : transaction) (memo : option string)
    (tx_hash : string) (op : operation) : M unit :=
  statement <- lift (project_operation cfg timestamp tr memo tx_hash op) ;;
  match statement with
  | Some sql => cur_execute env sql
  | None => ret tt
  end.

Definition write_entry (cfg : config) (env : environment)
    (ledgers_dictionary : gmap Z Z) (entry : transaction_history_entry) : M unit :=
  let timestamp := ledgers_dictionary !! ledgerSeq entry in
  for_each (txs entry) (fun tr =>
    let memo := memo_text tr in
    let tx_hash := hash tr in
    for_each (operations tr) (write_operation cfg env timestamp tr memo tx_hash)).

Definition write_to_postgres (cfg : config) (env : environment)
    (transactions : list transaction_history_entry)
    (ledgers_dictionary : gmap Z Z) (file_name : string) : M unit :=
  logging INFO "Writing contents of file: {} to database" [Py.VStr file_name] ;;;
  for_each transactions (write_entry cfg env ledgers_dictionary) ;;;
  sql <- lift (Py.format "UPDATE lastfile SET name = '{}'" [Py.VStr file_name]) ;;
  cur_execute env sql ;;;
  conn_commit env ;;;
  logging INFO "Successfully wrote contents of file: {} to database" [Py.VStr file_name].

(** ** The [lastfile] table *)

(** What the database does with the statements of this script: the only
    table it reads back is [lastfile].  An UPDATE without WHERE renames the
    row that is there and does nothing to an empty table. *)

(** [s] without its last character. *)
Fixpoint drop_last (s : string) : string :=
  match s with
  | "" => ""
  | String c "" => ""
  | String c s' => String c (drop_last s')
  end.

(** The name an [UPDATE lastfile] statement stores, if [sql] is one. *)
Definition stored_name (sql : string) : option string :=
  let head := "UPDATE lastfile SET name = '" in
  if String.prefix head sql
  then Some (drop_last (String.substring (String.length head)
                          (String.length sql - String.length head) sql))
  else None.

(** What one committed statement does to the row of [lastfile]. *)
Definition apply_statement (row : option string) (sql : string) : option string :=
  match row, stored_name sql with
  | Some _, Some name => Some name
  | _, _ => row
  end.

(** The row of [lastfile] after the committed statements [log], oldest
    first, starting from the row the schema creation left. *)
Definition stored_checkpoint (env : environment) (log : list string) : option string :=
  fold_left apply_statement log (lastfile_seed env).

(** [get_last_file_sequence]: [fetchone()[0]] of the select. *)
Definition get_last_file_sequence (env : environment) : M string :=
  cur_execute env "select * from lastfile;" ;;;
  conn_commit env ;;;
  fun w =>
    match stored_checkpoint env (durable w) with
    | Some last_file => (Ok last_file, w)
    | None => (Raise TypeError, w)
    end.

(** ** Orchestrator: [main] *)

(** [parser.parse(path)] opens a file of the working directory. *)
Definition parse {A} (decode : string -> result A) (path : string) : M A :=
  fun w =>
    if decide (path ∈ files w) then (decode path, w)
    else (Raise FileNotFoundError, w).

(** One turn of the [while True] loop; the value is the next
    [file_sequence]. *)
Definition main_cycle (cfg : config) (env : environment) (file_sequence : string) : M string :=
  download_file cfg env ("ledger-" +:+ file_sequence) ;;;
  download_file cfg env ("transactions-" +:+ file_sequence) ;;;
  ledger_path <- lift (Py.format "ledger-{}.xdr.gz" [Py.VStr file_sequence]) ;;
  ledgers <- parse (parse_ledgers env) ledger_path ;;
  transactions_path <- lift (Py.format "transactions-{}.xdr.gz" [Py.VStr file_sequence]) ;;
  transactions <- parse (parse_transactions env (NETWORK_PASSPHARSE cfg)) transactions_path ;;
  let ledgers_dictionary := get_ledgers_dictionary ledgers in
  logging INFO "Removing downloaded files." [] ;;;
  os_remove ledger_path ;;;
  os_remove transactions_path ;;;
  write_to_postgres cfg env transactions ledgers_dictionary file_sequence ;;;
  lift (get_new_file_sequence file_sequence).

(** The first [cycles] turns of the endless loop. *)
Fixpoint main_loop (cfg : config) (env : environment) (cycles : nat)
    (file_sequence : string) : M string :=
  match cycles with
  | O => ret file_sequence
  | S n =>
      next <- main_cycle cfg env file_sequence ;;
      main_loop cfg env n next
  end.

Definition main (cfg : config) (env : environment) (cycles : nat) : M string :=
  logging INFO "Successfully connected to postgres database {}"
          [Py.VStr (Py.lower (ASSET_CODE cfg))] ;;;
  file_sequence <- get_last_file_sequence env ;;
  logging INFO "Successfully initialized S3 client" [] ;;;
  main_loop cfg env cycles file_sequence.

(** ** Vocabulary of the properties *)

Definition lower_hex (c : ascii) : bool :=
  let n := Z.of_N (N_of_ascii c) in
  (48 <=? n) && (n <=? 57) || (97 <=? n) && (n <=? 102).

Definition is_hex (c : ascii) : bool :=
  let n := Z.of_N (N_of_ascii c) in
  lower_hex c || (65 <=? n) && (n <=? 70).

Fixpoint all_chars (p : ascii -> bool) (s : string) : bool :=
  match s with
  | "" => true
  | String c s' => p c && all_chars p s'
  end.

(** A FileId: exactly 8 lowercase hexadecimal digits. *)
Definition is_file_id (s : string) : bool :=
  Nat.eqb (String.length s) 8 && all_chars lower_hex s.

(** The number a string of hexadecimal digits denotes. *)
Definition hex_digit (c : ascii) : Z :=
  let n := Z.of_N (N_of_ascii c) in
  if n <=? 57 then n - 48 else if n <=? 70 then n - 55 else n - 87.

Fixpoint hex_value_from (acc : Z) (s : string) : Z :=
  match s with
  | "" => acc
  | String c s' => hex_value_from (acc * 16 + hex_digit c) s'
  end.

Definition hex_value (s : string) : Z := hex_value_from 0 s.

(** A string that starts with the digit zero. *)
Definition leading_zero (s : string) : bool :=
  match s with String "0" _ => true | _ => false end.

(** [differs x c]: the character [c] is not [x]. *)
Definition differs (x : ascii) (c : ascii) : bool := negb (Ascii.eqb c x).

(** The rows of the two tables, and the statements that insert them. *)
Record PaymentRow : Type := {
  p_source : string;
  p_destination : string;
  p_amount : Z;
  p_memo : option string;
  p_txHash : string;
  p_closeTime : option Z;
}.

Record TrustlineRow : Type := {
  t_source : string;
  t_memo : option string;
  t_txHash : string;
  t_closeTime : option Z;
}.

Definition sql_memo (memo : option string) : string :=
  match memo with
  | Some text => "'" +:+ text +:+ "'"
  | None => "NULL"
  end.

Definition sql_time (t : option Z) : string :=
  match t with
  | Some seconds => pretty seconds
  | None => "None"
  end.

Definition payment_insert (r : PaymentRow) : string :=
  "INSERT INTO payments VALUES ('" +:+ p_source r +:+ "','" +:+ p_destination r
  +:+ "'," +:+ pretty (p_amount r) +:+ "," +:+ sql_memo (p_memo r)
  +:+ ",'" +:+ p_txHash r +:+ "',to_timestamp(" +:+ sql_time (p_closeTime r) +:+ "));".

Definition trustline_insert (r : TrustlineRow) : string :=
  "INSERT INTO trustlines VALUES ('" +:+ t_source r +:+ "', " +:+ sql_memo (t_memo r)
  +:+ ", '" +:+ t_txHash r +:+ "',to_timestamp(" +:+ sql_time (t_closeTime r) +:+ "));".

Definition update_lastfile (file_name : string) : string :=
  "UPDATE lastfile SET name = '" +:+ file_name +:+ "'".

(** The source an operation is booked under. *)
Definition effective_source (tr : transaction) (op : operation) : string :=
  match sourceAccount op with
  | Some (overriding :: _) => overriding
  | _ => tx_sourceAccount tr
  end.

(** The type of the configured target: alphaNum4 for a code of up to 4
    characters, alphaNum12 for a longer one. *)
Definition target_type (cfg : config) : string :=
  if (String.length (ASSET_CODE cfg) <=? 4)%nat then "alphaNum4" else "alphaNum12".

(** An asset that matches the configured target in type, code and issuer:
    its entry under the type of the target is present and carries the
    configured code and issuer. *)
Definition matches_target (cfg : config) (a : gmap string (option alpha_num)) : Prop :=
  exists entry, a !! target_type cfg = Some (Some entry)
    /\ assetCode entry = ASSET_CODE cfg /\ issuer entry = ASSET_ISSUER cfg.

(** *** Traces of the retry loop *)

(** The world after the process appended the events [t] to its trace. *)
Definition extend (w : world) (t : list event) : world :=
  {| trace := trace w ++ t; files := files w;
     durable := durable w; pending := pending w |}.

(** The object key and the local name [download_file] uses for a file. *)
Definition object_key (cfg : config) (sub_directory file_name : string) : string :=
  CORE_DIRECTORY cfg +:+ sub_directory +:+ file_name +:+ ".xdr.gz".

Definition local_name (file_name : string) : string := file_name +:+ ".xdr.gz".

(** What one attempt leaves in the trace before the reply is looked at. *)
Definition request_events (cfg : config) (sub_directory file_name : string) : list event :=
  [Log INFO ("Trying to download file " +:+ file_name +:+ ".xdr.gz");
   S3Download (BUCKET_NAME cfg) (object_key cfg sub_directory file_name)
              (local_name file_name)].

(** What a 404 on a non-final attempt adds. *)
Definition backoff_events (file_name : string) : list event :=
  [Log WARNING ("404, could not get file " +:+ file_name +:+ ", retrying in 3 minutes");
   Sleep 180].

Definition retry_limit_event (file_name : string) : event :=
  Log ERROR ("Reached retry limit when downloading file " +:+ file_name +:+ ", quitting.").

Definition downloaded_event (file_name : string) : event :=
  Log INFO ("File " +:+ file_name +:+ " downloaded").

(** [k] attempts in a row that each met a 404 and backed off. *)
Fixpoint backoff_rounds (cfg : config) (sub_directory file_name : string) (k : nat) : list event :=
  match k with
  | O => []
  | S k' => request_events cfg sub_directory file_name ++ backoff_events file_name
            ++ backoff_rounds cfg sub_directory file_name k'
  end.

(** A reply that is a ClientError whose code reads as the integer [n]. *)
Definition client_error_code (reply : s3_reply) : option Z :=
  match reply with
  | Failed (ClientError code) =>
      match Py.int code 10 with
      | Ok n => Some n
      | Raise _ => None
      end
  | _ => None
  end.

Definition not_found (reply : s3_reply) : bool :=
  match client_error_code reply with
  | Some n => n =? 404
  | None => false
  end.

(** Among [count] attempts, numbered from [attempt] and answered as the
    requests numbered from [request], those that are not the final attempt
    and met a 404. *)
Fixpoint backoffs_due (cfg : config) (env : environment) (key : string)
    (attempt request count : nat) : nat :=
  match count with
  | O => O
  | S k =>
      Nat.add
        (if (Z.of_nat attempt <? MAX_RETRIES cfg) && not_found (s3_answer env request key)
         then 1%nat else 0%nat)
        (backoffs_due cfg env key (S attempt) (S request) k)
  end.

Definition sleeps_are_180 (t : list event) : bool :=
  forallb (fun e => match e with Sleep s => s =? 180 | _ => true end) t.

(** A scripted environment for concrete runs: the bucket answers the
    requests in order with [replies] and then with success, the database
    accepts everything, and the decoder returns the given records. *)
Definition scripted (replies : list s3_reply) (ledgers : list ledger)
    (transactions : list transaction_history_entry) : environment :=
  {| s3_answer := fun n _ => nth n replies Downloaded;
     db_accepts := fun _ _ _ => true;
     db_commits := fun _ _ => true;
     parse_ledgers := fun _ => Ok ledgers;
     parse_transactions := fun _ _ => Ok transactions;
     lastfile_seed := None |}.

(** The same collaborators over a [lastfile] table seeded with [name]. *)
Definition with_checkpoint (name : string) (env : environment) : environment :=
  {| s3_answer := s3_answer env;
     db_accepts := db_accepts env;
     db_commits := db_commits env;
     parse_ledgers := parse_ledgers env;
     parse_transactions := parse_transactions env;
     lastfile_seed := Some name |}.

Definition fresh_world : world :=
  {| trace := []; files := ∅; durable := []; pending := [] |}.

Definition example_config (asset_code : string) (max_retries : Z) : config :=
  {| PYTHON_PASSWORD := "secret";
     ASSET_CODE := asset_code;
     ASSET_ISSUER := "GISSUER";
     NETWORK_PASSPHARSE := "Public Global Stellar Network ; September 2015";
     MAX_RETRIES := max_retries;
     BUCKET_NAME := "stellar-core";
     CORE_DIRECTORY := "" |}.

(** The reply the bucket gives to the next request made from [w]. *)
Definition next_reply (cfg : config) (env : environment)
    (sub_directory file_name : string) (w : world) : s3_reply :=
  s3_answer env (s3_requests (trace w)) (object_key cfg sub_directory file_name).

(** *** Statements of a file *)

(** The statements of a list of items, in order; an exception at any item
    is the exception of the whole. *)
Fixpoint collect {A} (f : A -> result (list string)) (xs : list A) : result (list string) :=
  match xs with
  | [] => Ok []
  | x :: rest =>
      match f x with
      | Raise e => Raise e
      | Ok l =>
          match collect f rest with
          | Raise e => Raise e
          | Ok l' => Ok (l ++ l')
          end
      end
  end.

Definition operation_statements (cfg : config) (timestamp : option Z)
    (tr : transaction) (op : operation) : result (list string) :=
  match project_operation cfg timestamp tr (memo_text tr) (hash tr) op with
  | Raise e => Raise e
  | Ok (Some sql) => Ok [sql]
  | Ok None => Ok []
  end.

Definition entry_statements (cfg : config) (ledgers_dictionary : gmap Z Z)
    (entry : transaction_history_entry) : result (list string) :=
  collect (fun tr => collect (operation_statements cfg
                                (ledgers_dictionary !! ledgerSeq entry) tr)
                             (operations tr))
          (txs entry).

(** All INSERT statements [write_to_postgres] issues for one file. *)
Definition file_statements (cfg : config) (ledgers_dictionary : gmap Z Z)
    (transactions : list transaction_history_entry) : result (list string) :=
  collect (entry_statements cfg ledgers_dictionary) transactions.

(** A step that, when it returns, has sent exactly the statements [r] to
    the open transaction, and that never touches what is committed. *)
Definition sends (m : M unit) (r : result (list string)) : Prop :=
  forall w,
    match m w with
    | (Ok _, w') =>
        exists l, r = Ok l /\ trace w' = trace w ++ map Execute l
                  /\ durable w' = durable w /\ pending w' = pending w ++ l
    | (Raise _, w') => durable w' = durable w
    end.

(** *** Concrete records *)

Definition example_asset (code : string) : gmap string (option alpha_num) :=
  if (String.length code <=? 4)%nat
  then {[ "alphaNum4" := Some {| assetCode := code; issuer := "GISSUER" |};
          "alphaNum12" := None ]}
  else {[ "alphaNum4" := None;
          "alphaNum12" := Some {| assetCode := code; issuer := "GISSUER" |} ]}.

Definition example_payment (code : string) : operation :=
  {| sourceAccount := Some [];
     body := {| type := 1;
                paymentOp := Some {| asset := example_asset code;
                                     destination := "GDEST"; amount := 1500 |};
                changeTrustOp := None |} |}.

Definition example_transaction (code : string) : transaction :=
  {| tx_sourceAccount := "GSOURCE"; memo_text := None;
     operations := [example_payment code]; hash := "abcd" |}.

Definition example_entry (code : string) : transaction_history_entry :=
  {| ledgerSeq := 100; txs := [example_transaction code] |}.

(** *** Statements on their way to the database *)

(** [cur.execute] of the statements [l], one after the other. *)
Definition send_list (env : environment) (l : list string) : M unit :=
  for_each l (cur_execute env).

(** The first of the statements [l] that the database refuses when they are
    sent in order on top of the open transaction [open]. *)
Fixpoint first_refused (env : environment) (committed open l : list string)
    : option string :=
  match l with
  | [] => None
  | sql :: rest =>
      if db_accepts env committed open sql
      then first_refused env committed (open ++ [sql]) rest
      else Some sql
  end.

(** Two projections that raise the same exception or give as many
    statements. *)
Definition same_outcome (r r' : result (list string)) : Prop :=
  match r, r' with
  | Ok l, Ok l' => length l = length l'
  | Raise e, Raise e' => e = e'
  | _, _ => False
  end.

(** A statement whose close time is [timestamp], as the format of the
    INSERT statements writes it. *)
Definition closes_at (timestamp : option Z) (sql : string) : Prop :=
  exists head, sql = head +:+ "to_timestamp(" +:+ sql_time timestamp +:+ "));".

(** A statement whose close time is [None]. *)
Definition closes_at_None (sql : string) : Prop :=
  exists head, sql = head +:+ "to_timestamp(None));".

(** The collaborators of [env] with a database that, like PostgreSQL,
    refuses a statement containing [to_timestamp(None)]. *)
Definition strict_timestamps (env : environment) : environment :=
  {| s3_answer := s3_answer env;
     db_accepts := fun committed open sql =>
       negb (Py.contains "to_timestamp(None)" sql) && db_accepts env committed open sql;
     db_commits := db_commits env;
     parse_ledgers := parse_ledgers env;
     parse_transactions := parse_transactions env;
     lastfile_seed := lastfile_seed env |}.

Definition example_trust (code : string) : operation :=
  {| sourceAccount := Some ["GTRUSTER"];
     body := {| type := 6;
                paymentOp := None;
                changeTrustOp := Some {| line := example_asset code |} |} |}.

(** *** The database across a step *)

(** A step that leaves the database as it is. *)
Definition keeps_database {A} (m : M A) : Prop :=
  forall w, durable (snd (m w)) = durable w /\ pending (snd (m w)) = pending w.

(** The row of [lastfile], if there is one, with its name set to [name]. *)
Definition renamed (row : option string) (name : string) : option string :=
  match row with
  | Some _ => Some name
  | None => None
  end.

(** What a turn of the main loop on [file_sequence] may leave behind. *)
Definition cycle_outcome (env : environment) (file_sequence : string) (m : M string) : Prop :=
  forall w,
    match m w with
    | (Ok next, w') =>
        stored_checkpoint env (durable w')
        = renamed (stored_checkpoint env (durable w)) file_sequence
        /\ get_new_file_sequence file_sequence = Ok next
    | (Raise _, w') =>
        durable w' = durable w
        \/ stored_checkpoint env (durable w')
           = renamed (stored_checkpoint env (durable w)) file_sequence
    end.

(** A database that rejects every statement starting with [refused]. *)
Definition refusing (refused : string) (ledgers : list ledger)
    (transactions : list transaction_history_entry) : environment :=
  {| s3_answer := fun _ _ => Downloaded;
     db_accepts := fun _ _ sql => negb (String.prefix refused sql);
     db_commits := fun _ _ => true;
     parse_ledgers := fun _ => Ok ledgers;
     parse_transactions := fun _ _ => Ok transactions;
     lastfile_seed := None |}.

(** *** Further vocabulary *)

(** [get_new_file_sequence] applied [n] times, as the main loop does. *)
Fixpoint iterate_next (n : nat) (file_sequence : string) : result string :=
  match n with
  | O => Ok file_sequence
  | S k =>
      match get_new_file_sequence file_sequence with
      | Ok next => iterate_next k next
      | Raise e => Raise e
      end
  end.

(** The seconds a trace spends in [time.sleep]. *)
Fixpoint sleep_seconds (t : list event) : Z :=
  match t with
  | [] => 0
  | Sleep s :: t' => s + sleep_seconds t'
  | _ :: t' => sleep_seconds t'
  end.

(** The events a fetch of [file_name] can leave in the trace. *)
Definition fetch_events (cfg : config) (sub_directory file_name : string) : list event :=
  request_events cfg sub_directory file_name ++ backoff_events file_name
  ++ [retry_limit_event file_name; downloaded_event file_name].

(** A database that accepts every statement and every commit. *)
Definition accepting (env : environment) : Prop :=
  (forall committed open sql, db_accepts env committed open sql = true)
  /\ (forall committed open, db_commits env committed open = true).

(** A step that leaves the working directory as it is. *)
Definition keeps_files {A} (m : M A) : Prop :=
  forall w, files (snd (m w)) = files w.

(** A step whose result, against a database that accepts everything, is
    decided by the projection [r] alone. *)
Definition decided_by (m : M unit) (r : result (list string)) : Prop :=
  forall w, fst (m w) = match r with Ok _ => Ok tt | Raise e => Raise e end.

(** A turn of the main loop that, when it returns, has removed the two
    files it downloaded for [file_sequence]. *)
Definition removes_downloads (file_sequence : string) (m : M string) : Prop :=
  forall w,
    match m w with
    | (Ok _, w') =>
        (("ledger-" +:+ file_sequence +:+ ".xdr.gz") ∉ files w')
        /\ (("transactions-" +:+ file_sequence +:+ ".xdr.gz") ∉ files w')
    | (Raise _, _) => True
    end.

(** ** Sanity checks on concrete inputs *)

Example next_00726a3f : get_new_file_sequence "00726a3f" = Ok "00726a7f".
Proof. vm_compute. reflexivity. Qed.

Example next_upper_case : get_new_file_sequence "0000000A" = Ok "0000004a".
Proof. vm_compute. reflexivity. Qed.

Example next_negative : get_new_file_sequence "-00000ff" = Ok "00000-bf".
Proof. vm_compute. reflexivity. Qed.

Example next_prefixed : get_new_file_sequence " 0x_1F  " = Ok "0000005f".
Proof. vm_compute. reflexivity. Qed.

Example next_not_hex : get_new_file_sequence "0000zz00" = Raise ValueError.
Proof. vm_compute. reflexivity. Qed.

Example sub_directory_ledger : sub_directory "ledger-004c93bf" = Ok "ledger/00/4c/93/".
Proof. vm_compute. reflexivity. Qed.

Example sub_directory_no_dash : sub_directory "ledger" = Raise IndexError.
Proof. vm_compute. reflexivity. Qed.

Example int_code_404 : Py.int "404" 10 = Ok 404.
Proof. vm_compute. reflexivity. Qed.

Example int_code_name : Py.int "NoSuchKey" 10 = Raise ValueError.
Proof. vm_compute. reflexivity. Qed.

(** Only the whitespace of C is stripped: a newline is, the file separator
    (character 28) is not. *)
Example int_code_spaces :
  Py.int (String (ascii_of_nat 10) " 404 ") 10 = Ok 404
  /\ Py.int (String (ascii_of_nat 28) "500") 10 = Raise ValueError
  /\ Py.int (String (ascii_of_nat 31) "404") 10 = Raise ValueError.
Proof. vm_compute. repeat split; reflexivity. Qed.

Example replace_leftmost : Py.replace "aaa" "aa" "b" = "ba".
Proof. vm_compute. reflexivity. Qed.

(** ** Characters, strings and hexadecimal numerals *)

Lemma is_hex_facts (c : ascii) :
  is_hex c = true ->
  Py.is_space c = false /\ Py.digit_in 16 c = Some (hex_digit c)
  /\ 0 <= hex_digit c < 16 /\ Ascii.eqb c "_" = false
  /\ Py.prefix_letter 16 c = false
  /\ c <> "-"%char /\ c <> "+"%char /\ c <> "x"%char /\ c <> "l"%char.
Proof.
  destruct c as [[] [] [] [] [] [] [] []]; intros H;
    try (vm_compute in H; discriminate H); clear H;
    repeat split; try reflexivity; try discriminate.
Qed.

Lemma lower_hex_is_hex c : lower_hex c = true -> is_hex c = true.
Proof. unfold is_hex. intros ->. reflexivity. Qed.

Lemma hex_char_facts d :
  0 <= d < 16 -> lower_hex (Py.hex_char d) = true /\ hex_digit (Py.hex_char d) = d
     /\ (Py.hex_char d = "0"%char -> d = 0).
Proof.
  intros H.
  assert (d = 0 \/ d = 1 \/ d = 2 \/ d = 3 \/ d = 4 \/ d = 5 \/ d = 6 \/ d = 7 \/
          d = 8 \/ d = 9 \/ d = 10 \/ d = 11 \/ d = 12 \/ d = 13 \/ d = 14 \/ d = 15)
    as Hd by lia.
  repeat (destruct Hd as [-> | Hd]; [repeat split; try reflexivity; (intros _; reflexivity) || (intros E; discriminate E) |]).
  subst. repeat split; try reflexivity. intros E; discriminate E.
Qed.

Lemma append_cons (x : ascii) (a b : string) : String x a +:+ b = String x (a +:+ b).
Proof. reflexivity. Qed.

Lemma append_nil (b : string) : "" +:+ b = b.
Proof. reflexivity. Qed.

Lemma append_assoc (a b c : string) : (a +:+ b) +:+ c = a +:+ (b +:+ c).
Proof.
  induction a as [| x a IH]; [reflexivity |].
  rewrite !append_cons. f_equal. exact IH.
Qed.

Lemma append_empty_r (a : string) : a +:+ "" = a.
Proof.
  induction a as [| x a IH]; [reflexivity |].
  rewrite append_cons. f_equal. exact IH.
Qed.

Lemma length_append (a b : string) :
  String.length (a +:+ b) = (String.length a + String.length b)%nat.
Proof.
  induction a as [| x a IH]; [reflexivity |].
  rewrite append_cons. cbn [String.length]. rewrite IH. reflexivity.
Qed.

Lemma all_chars_append p (a b : string) :
  all_chars p (a +:+ b) = all_chars p a && all_chars p b.
Proof.
  induction a as [| x a IH]; [reflexivity |].
  rewrite append_cons. cbn [all_chars]. rewrite IH. now rewrite andb_assoc.
Qed.

Lemma all_chars_impl (p q : ascii -> bool) s :
  (forall c, p c = true -> q c = true) -> all_chars p s = true -> all_chars q s = true.
Proof.
  intros Hpq. induction s as [| c s IH]; simpl; [reflexivity |].
  intros [Hc Hs]%andb_true_iff. rewrite (Hpq c Hc). simpl. auto.
Qed.

Lemma hex_value_from_shift s : forall acc,
  hex_value_from acc s = acc * 16 ^ Z.of_nat (String.length s) + hex_value s.
Proof.
  unfold hex_value.
  induction s as [| c s IH]; intros acc.
  - simpl. lia.
  - cbn [hex_value_from String.length]. rewrite (IH (acc * 16 + hex_digit c)).
    rewrite (IH (0 * 16 + hex_digit c)).
    rewrite Nat2Z.inj_succ, Z.pow_succ_r by lia. lia.
Qed.

Lemma hex_value_append (a b : string) :
  hex_value (a +:+ b) = hex_value a * 16 ^ Z.of_nat (String.length b) + hex_value b.
Proof.
  unfold hex_value at 1 2. generalize 0.
  induction a as [| c a IH]; intros acc.
  - rewrite append_nil. cbn [hex_value_from]. apply hex_value_from_shift.
  - rewrite append_cons. cbn [hex_value_from]. apply IH.
Qed.

Lemma hex_value_bound s :
  all_chars is_hex s = true -> 0 <= hex_value s < 16 ^ Z.of_nat (String.length s).
Proof.
  induction s as [| c s IH].
  - intros _. cbn. lia.
  - cbn [all_chars]. intros [Hc Hs]%andb_true_iff.
    specialize (IH Hs). destruct (is_hex_facts c Hc) as (_ & _ & Hd & _).
    unfold hex_value. cbn [hex_value_from String.length].
    rewrite hex_value_from_shift.
    rewrite Nat2Z.inj_succ, Z.pow_succ_r by lia. nia.
Qed.

Lemma hex_digits_go_spec f : forall n acc,
  0 <= n < 16 ^ Z.of_nat (S f) ->
  exists ds, Py.hex_digits_go (S f) n acc = ds +:+ acc
    /\ all_chars lower_hex ds = true /\ hex_value ds = n
    /\ (1 <= String.length ds)%nat
    /\ (n = 0 \/ 16 ^ (Z.of_nat (String.length ds) - 1) <= n).
Proof.
  assert (Hone : forall n acc, 0 <= n -> n / 16 = 0 ->
    exists ds, String (Py.hex_char (n mod 16)) acc = ds +:+ acc
      /\ all_chars lower_hex ds = true /\ hex_value ds = n
      /\ (1 <= String.length ds)%nat
      /\ (n = 0 \/ 16 ^ (Z.of_nat (String.length ds) - 1) <= n)).
  { intros n acc Hn Hq.
    assert (Hlt : 0 <= n < 16) by (apply Z.div_small_iff in Hq; lia).
    rewrite Z.mod_small by lia.
    destruct (hex_char_facts n Hlt) as (Hl & Hv & _).
    exists (String (Py.hex_char n) ""). repeat split.
    - cbn. now rewrite Hl.
    - unfold hex_value. cbn. exact Hv.
    - cbn. lia.
    - cbn. lia. }
  induction f as [| f IH]; intros n acc Hn.
  - cbn [Py.hex_digits_go].
    assert (Hq : n / 16 = 0) by (apply Z.div_small; cbn in Hn; lia).
    rewrite Hq. cbn [Z.eqb]. apply Hone; [lia | exact Hq].
  - change (Py.hex_digits_go (S (S f)) n acc)
      with (let acc' := String (Py.hex_char (n mod 16)) acc in
            if n / 16 =? 0 then acc' else Py.hex_digits_go (S f) (n / 16) acc').
    cbv zeta. destruct (Z.eqb_spec (n / 16) 0) as [Hq | Hq].
    + apply Hone; [lia | exact Hq].
    + assert (Hdiv : 0 <= n / 16 < 16 ^ Z.of_nat (S f)).
      { split; [apply Z.div_pos; lia |].
        apply Z.div_lt_upper_bound; [lia |].
        replace (Z.of_nat (S (S f))) with (Z.succ (Z.of_nat (S f))) in Hn by lia.
        rewrite Z.pow_succ_r in Hn by lia. lia. }
      destruct (IH (n / 16) (String (Py.hex_char (n mod 16)) acc) Hdiv)
        as (ds & Heq & Hall & Hval & Hlen & Hlow).
      assert (Hm : 0 <= n mod 16 < 16) by (apply Z.mod_pos_bound; lia).
      destruct (hex_char_facts _ Hm) as (Hl & Hv & _).
      exists (ds +:+ String (Py.hex_char (n mod 16)) ""). repeat split.
      * rewrite Heq, append_assoc. reflexivity.
      * rewrite all_chars_append, Hall. cbn. now rewrite Hl.
      * rewrite hex_value_append, Hval. unfold hex_value at 1. cbn.
        rewrite Hv. pose proof (Z.div_mod n 16). lia.
      * rewrite length_append. cbn. lia.
      * right. rewrite length_append. cbn [String.length].
        destruct Hlow as [H0 | Hlow]; [contradiction |].
        replace (Z.of_nat (String.length ds + 1) - 1)
          with (Z.succ (Z.of_nat (String.length ds) - 1)) by lia.
        rewrite Z.pow_succ_r by lia.
        pose proof (Z.div_mod n 16). lia.
Qed.

Lemma hex_digits_spec n :
  0 <= n ->
  all_chars lower_hex (Py.hex_digits n) = true /\ hex_value (Py.hex_digits n) = n
  /\ (1 <= String.length (Py.hex_digits n))%nat
  /\ (n = 0 \/ 16 ^ (Z.of_nat (String.length (Py.hex_digits n)) - 1) <= n).
Proof.
  intros Hn. unfold Py.hex_digits.
  assert (Hfuel : 0 <= n < 16 ^ Z.of_nat (S (Z.to_nat (Z.log2 n)))).
  { split; [exact Hn |].
    destruct (Z.eq_dec n 0) as [-> | Hne].
    - cbn. lia.
    - pose proof (Z.log2_nonneg n) as Hl.
      destruct (Z.log2_spec n ltac:(lia)) as [_ Hup].
      rewrite Nat2Z.inj_succ, Z2Nat.id by lia.
      eapply Z.lt_le_trans; [exact Hup |].
      apply Z.pow_le_mono_l. lia. }
  destruct (hex_digits_go_spec _ n "" Hfuel) as (ds & Heq & H1 & H2 & H3 & H4).
  rewrite Heq, append_empty_r. auto.
Qed.

(** *** [int] on strings of hexadecimal digits *)

Lemma parse_digits_hex s : forall acc,
  all_chars is_hex s = true -> Py.parse_digits 16 acc s = Some (hex_value_from acc s).
Proof.
  induction s as [| c s IH]; intros acc; [reflexivity |].
  cbn [all_chars]. intros [Hc Hs]%andb_true_iff.
  destruct (is_hex_facts c Hc) as (_ & Hd & _ & Hu & _).
  cbn [Py.parse_digits hex_value_from]. rewrite Hu, Hd. apply IH, Hs.
Qed.

Lemma rstrip_no_space s :
  all_chars (fun c => negb (Py.is_space c)) s = true -> Py.rstrip s = s.
Proof.
  induction s as [| c s IH]; [reflexivity |].
  cbn [all_chars]. intros [Hc Hs]%andb_true_iff.
  cbn [Py.rstrip]. rewrite (IH Hs).
  destruct s; [| reflexivity].
  apply negb_true_iff in Hc. now rewrite Hc.
Qed.

Lemma strip_sign_unsigned c s :
  c <> "-"%char -> c <> "+"%char -> Py.strip_sign (String c s) = (false, String c s).
Proof.
  intros Hm Hp.
  destruct c as [[] [] [] [] [] [] [] []]; try reflexivity; congruence.
Qed.

Lemma strip_base_prefix_none base c s :
  match s with String d _ => Py.prefix_letter base d = false | "" => True end ->
  Py.strip_base_prefix base (String c s) = String c s.
Proof.
  intros H. destruct s as [| d r].
  - destruct c as [[] [] [] [] [] [] [] []]; reflexivity.
  - destruct c as [[] [] [] [] [] [] [] []]; try reflexivity.
    cbn. now rewrite H.
Qed.

Lemma int_hex s :
  s <> "" -> all_chars is_hex s = true -> Py.int s 16 = Ok (hex_value s).
Proof.
  intros Hne Hall. destruct s as [| c s]; [congruence |].
  pose proof Hall as Hall'. cbn [all_chars] in Hall'.
  apply andb_true_iff in Hall' as [Hc Hs].
  destruct (is_hex_facts c Hc) as (Hsp & Hd & _ & _ & _ & Hm & Hp & _).
  unfold Py.int. cbn [Py.lstrip]. rewrite Hsp.
  rewrite rstrip_no_space.
  2:{ eapply all_chars_impl; [| exact Hall].
      intros x Hx. destruct (is_hex_facts x Hx) as (-> & _). reflexivity. }
  rewrite strip_sign_unsigned by assumption.
  rewrite strip_base_prefix_none.
  2:{ destruct s as [| d r]; [exact I |]. cbn [all_chars] in Hs.
      apply andb_true_iff in Hs as [Hd' _].
      now destruct (is_hex_facts d Hd') as (_ & _ & _ & _ & -> & _). }
  cbn [Py.parse_number]. rewrite Hd.
  rewrite parse_digits_hex by exact Hs. reflexivity.
Qed.

(** *** [replace] on the output of [hex] *)

Lemma prefix_0x_hex s : all_chars lower_hex s = true -> String.prefix "0x" s = false.
Proof.
  destruct s as [| c [| d r]]; intros H; cbn [String.prefix].
  - reflexivity.
  - destruct (ascii_dec "0" c); reflexivity.
  - destruct (ascii_dec "0" c); [| reflexivity].
    destruct (ascii_dec "x" d) as [<- |]; [| reflexivity].
    cbn [all_chars] in H. apply andb_true_iff in H as [_ H].
    apply andb_true_iff in H as [H _]. discriminate H.
Qed.

Lemma replace_go_hex s :
  all_chars lower_hex s = true -> Py.replace_go "0x" "" 0 s = s.
Proof.
  induction s as [| c s IH]; [reflexivity |]. intros H.
  cbn [Py.replace_go]. rewrite (prefix_0x_hex _ H).
  cbn [all_chars] in H. apply andb_true_iff in H as [_ H].
  now rewrite (IH H).
Qed.

Lemma replace_hex_literal ds :
  all_chars lower_hex ds = true -> Py.replace ("0x" +:+ ds) "0x" "" = ds.
Proof.
  intros H. unfold Py.replace.
  change ("0x" +:+ ds) with (String "0" (String "x" ds)).
  cbn -[String.append].
  replace (String.prefix "" ds) with true by (destruct ds; reflexivity).
  apply replace_go_hex, H.
Qed.

(** *** Padding with zeros *)

Lemma repeat_zero_spec k ds :
  all_chars lower_hex (Py.repeat_nat "0" k) = true
  /\ String.length (Py.repeat_nat "0" k) = k
  /\ hex_value (Py.repeat_nat "0" k +:+ ds) = hex_value ds.
Proof.
  induction k as [| k (IH1 & IH2 & IH3)]; [repeat split |].
  cbn [Py.repeat_nat]. rewrite !append_cons, append_nil. repeat split.
  - cbn [all_chars]. rewrite IH1. reflexivity.
  - cbn [String.length]. now rewrite IH2.
  - unfold hex_value in *. cbn [hex_value_from]. exact IH3.
Qed.

Lemma next_core s :
  s <> "" -> all_chars is_hex s = true ->
  get_new_file_sequence s =
    Ok (Py.mul "0" (8 - Py.len (Py.hex_digits (hex_value s + 64)))
        +:+ Py.hex_digits (hex_value s + 64)).
Proof.
  intros Hne Hall. unfold get_new_file_sequence.
  rewrite (int_hex s Hne Hall).
  pose proof (hex_value_bound s Hall) as [Hv _].
  destruct (hex_digits_spec (hex_value s + 64) ltac:(lia)) as (Hl & _).
  unfold Py.hex. destruct (Z.ltb_spec (hex_value s + 64) 0) as [? | _]; [lia |].
  rewrite (replace_hex_literal _ Hl). reflexivity.
Qed.

Lemma leading_zero_value c s :
  leading_zero (String c s) = true -> hex_value (String c s) = hex_value s.
Proof.
  destruct c as [[] [] [] [] [] [] [] []]; try discriminate. reflexivity.
Qed.

Lemma next_shape s :
  s <> "" -> all_chars is_hex s = true ->
  exists r, get_new_file_sequence s = Ok r
    /\ all_chars lower_hex r = true
    /\ hex_value r = hex_value s + 64
    /\ (hex_value s + 64 < 16 ^ 8 -> String.length r = 8%nat)
    /\ (16 ^ 8 <= hex_value s + 64 ->
        (8 < String.length r)%nat /\ leading_zero r = false).
Proof.
  intros Hne Hall. rewrite (next_core s Hne Hall).
  pose proof (hex_value_bound s Hall) as [Hv _].
  set (n := hex_value s + 64) in *.
  destruct (hex_digits_spec n ltac:(lia)) as (Hl & Hval & Hlen & Hlow).
  destruct Hlow as [? | Hlow]; [lia |].
  set (ds := Py.hex_digits n) in *.
  pose proof (hex_value_bound ds (all_chars_impl _ _ _ lower_hex_is_hex Hl)) as Hup.
  rewrite Hval in Hup.
  unfold Py.mul, Py.len.
  destruct (repeat_zero_spec (Z.to_nat (8 - Z.of_nat (String.length ds))) ds)
    as (Hz1 & Hz2 & Hz3).
  eexists; split; [reflexivity |]. repeat split.
  - rewrite all_chars_append, Hz1, Hl. reflexivity.
  - rewrite Hz3. exact Hval.
  - intros Hsmall. rewrite length_append, Hz2.
    assert (Z.of_nat (String.length ds) - 1 < 8); [| lia].
    apply (Z.pow_lt_mono_r_iff 16); lia.
  - rewrite length_append, Hz2.
    assert (8 < Z.of_nat (String.length ds)); [| lia].
    apply (Z.pow_lt_mono_r_iff 16); lia.
  - assert (Hbig : 8 < Z.of_nat (String.length ds))
      by (apply (Z.pow_lt_mono_r_iff 16); lia).
    replace (Z.to_nat (8 - Z.of_nat (String.length ds))) with O by lia.
    cbn [Py.repeat_nat]. rewrite append_nil.
    destruct ds as [| c ds'] eqn:Eds; [reflexivity |].
    destruct (leading_zero (String c ds')) eqn:Ez; [| reflexivity].
    exfalso. apply leading_zero_value in Ez.
    cbn [all_chars] in Hl. apply andb_true_iff in Hl as [_ Hl'].
    pose proof (hex_value_bound ds' (all_chars_impl _ _ _ lower_hex_is_hex Hl')) as Hb.
    cbn [String.length] in Hlow.
    replace (Z.of_nat (S (String.length ds')) - 1)
      with (Z.of_nat (String.length ds')) in Hlow by lia.
    lia.
Qed.

Lemma file_id_facts s :
  is_file_id s = true ->
  String.length s = 8%nat /\ all_chars lower_hex s = true
  /\ all_chars is_hex s = true /\ s <> "" /\ 0 <= hex_value s < 16 ^ 8.
Proof.
  unfold is_file_id. intros [Hlen Hall]%andb_true_iff.
  apply Nat.eqb_eq in Hlen.
  pose proof (all_chars_impl _ _ _ lower_hex_is_hex Hall) as Hhex.
  pose proof (hex_value_bound s Hhex) as Hb. rewrite Hlen in Hb.
  repeat split; try assumption; try lia.
  intros ->. discriminate Hlen.
Qed.

Lemma next_length s :
  s <> "" -> all_chars is_hex s = true ->
  exists r, get_new_file_sequence s = Ok r
    /\ (16 ^ 8 <= hex_value s + 64 ->
        16 ^ (Z.of_nat (String.length r) - 1) <= hex_value s + 64).
Proof.
  intros Hne Hall. rewrite (next_core s Hne Hall).
  pose proof (hex_value_bound s Hall) as [Hv _].
  set (n := hex_value s + 64) in *.
  destruct (hex_digits_spec n ltac:(lia)) as (Hl & Hval & Hlen & Hlow).
  destruct Hlow as [? | Hlow]; [lia |].
  set (ds := Py.hex_digits n) in *.
  pose proof (hex_value_bound ds (all_chars_impl _ _ _ lower_hex_is_hex Hl)) as Hup.
  rewrite Hval in Hup.
  unfold Py.mul, Py.len.
  eexists; split; [reflexivity |]. intros Hge.
  assert (Hbig : 8 < Z.of_nat (String.length ds))
    by (apply (Z.pow_lt_mono_r_iff 16); lia).
  replace (Z.to_nat (8 - Z.of_nat (String.length ds))) with O by lia.
  cbn [Py.repeat_nat]. rewrite append_nil. exact Hlow.
Qed.

(** C6, amended: for an input of exactly 8 lowercase hexadecimal digits,
    [get_new_file_sequence] returns lowercase hexadecimal digits that denote
    the value of the input plus 64.  The result is again exactly 8 lowercase
    hexadecimal digits precisely when that number is below 2^32, that is for
    inputs up to ffffffbf; from ffffffc0 on the result has 9 digits, the
    first of them not a zero: it is padded to 8 characters and never cut
    down to them. *)
Theorem next_file_id_iff (s : string) :
  is_file_id s = true ->
  exists r, get_new_file_sequence s = Ok r
    /\ all_chars lower_hex r = true
    /\ hex_value r = hex_value s + 64
    /\ is_file_id r = (hex_value s + 64 <? 2 ^ 32)
    /\ (hex_value s + 64 < 2 ^ 32 <-> hex_value s <= hex_value "ffffffbf")
    /\ (hex_value "ffffffc0" <= hex_value s ->
        String.length r = 9%nat /\ leading_zero r = false).
Proof.
  intros Hid. destruct (file_id_facts s Hid) as (Hlen & _ & Hhex & Hne & Hb).
  destruct (next_shape s Hne Hhex) as (r & Hr & Hl & Hval & Hsmall & Hbig).
  destruct (next_length s Hne Hhex) as (r' & Hr' & Hlow).
  rewrite Hr in Hr'. injection Hr' as <-.
  exists r. split; [exact Hr |]. split; [exact Hl |]. split; [exact Hval |].
  change (hex_value "ffffffbf") with (16 ^ 8 - 65).
  change (hex_value "ffffffc0") with (16 ^ 8 - 64).
  change (2 ^ 32) with (16 ^ 8).
  split; [| split; [lia |]].
  - unfold is_file_id. rewrite Hl, andb_true_r.
    destruct (Z.ltb_spec (hex_value s + 64) (16 ^ 8)) as [Hlt | Hge].
    + rewrite (Hsmall Hlt). reflexivity.
    + destruct (Hbig Hge) as [Hlen' _]. apply Nat.eqb_neq. lia.
  - intros Hge. assert (Hge' : 16 ^ 8 <= hex_value s + 64) by lia.
    destruct (Hbig Hge') as [Hgt Hzero]. split; [| exact Hzero].
    specialize (Hlow Hge').
    assert (Z.of_nat (String.length r) - 1 < 9); [| lia].
    apply (Z.pow_lt_mono_r_iff 16); lia.
Qed.

Lemma next_file_id_iff_witness :
  is_file_id "ffffffd5" = true
  /\ exists r, get_new_file_sequence "ffffffd5" = Ok r
    /\ all_chars lower_hex r = true
    /\ hex_value r = hex_value "ffffffd5" + 64
    /\ is_file_id r = (hex_value "ffffffd5" + 64 <? 2 ^ 32)
    /\ (hex_value "ffffffd5" + 64 < 2 ^ 32 <-> hex_value "ffffffd5" <= hex_value "ffffffbf")
    /\ (hex_value "ffffffc0" <= hex_value "ffffffd5" ->
        String.length r = 9%nat /\ leading_zero r = false).
Proof. split; [reflexivity | apply (next_file_id_iff "ffffffd5"); reflexivity]. Defined.

(** C6, as stated, fails at the upper boundary: ffffffc0 is a FileId and its
    successor has nine digits. *)
Lemma next_of_ffffffc0_is_no_file_id :
  is_file_id "ffffffc0" = true
  /\ get_new_file_sequence "ffffffc0" = Ok "100000000"
  /\ is_file_id "100000000" = false.
Proof. vm_compute. repeat split; reflexivity. Qed.

(** C9: on a string of 8 hexadecimal digits [get_new_file_sequence] returns,
    as a function of its argument alone, the numeral of the value of the
    argument plus 64: lowercase hexadecimal digits that denote that number,
    at least 8 of them, and with no leading zero when there are more than 8.
    So the value grows by exactly 64 at each call, and the successor of
    00000000 is 00000040. *)
Theorem next_is_value_plus_64 (s : string) :
  String.length s = 8%nat -> all_chars is_hex s = true ->
  exists r, get_new_file_sequence s = Ok r
    /\ Py.int s 16 = Ok (hex_value s)
    /\ Py.int r 16 = Ok (hex_value s + 64)
    /\ hex_value r = hex_value s + 64
    /\ hex_value s < hex_value r
    /\ all_chars lower_hex r = true
    /\ (8 <= String.length r)%nat
    /\ ((8 < String.length r)%nat -> leading_zero r = false)
    /\ get_new_file_sequence "00000000" = Ok "00000040".
Proof.
  intros Hlen Hall.
  assert (Hne : s <> "") by (intros ->; discriminate Hlen).
  destruct (next_shape s Hne Hall) as (r & Hr & Hl & Hval & Hsmall & Hbig).
  assert (Hlr : (8 <= String.length r)%nat).
  { destruct (Z.lt_ge_cases (hex_value s + 64) (16 ^ 8)) as [H | H].
    - rewrite (Hsmall H). lia.
    - destruct (Hbig H). lia. }
  exists r. repeat split; try assumption.
  - apply int_hex; assumption.
  - rewrite <- Hval. apply int_hex.
    + intros ->. cbn in Hlr. lia.
    + eapply all_chars_impl; [apply lower_hex_is_hex | exact Hl].
  - lia.
  - intros Hgt. destruct (Z.lt_ge_cases (hex_value s + 64) (16 ^ 8)) as [H | H].
    + rewrite (Hsmall H) in Hgt. lia.
    + apply Hbig, H.
Qed.

Lemma next_is_value_plus_64_witness :
  exists r, get_new_file_sequence "00726a3f" = Ok r
    /\ Py.int "00726a3f" 16 = Ok (hex_value "00726a3f")
    /\ Py.int r 16 = Ok (hex_value "00726a3f" + 64)
    /\ hex_value r = hex_value "00726a3f" + 64
    /\ hex_value "00726a3f" < hex_value r
    /\ all_chars lower_hex r = true
    /\ (8 <= String.length r)%nat
    /\ ((8 < String.length r)%nat -> leading_zero r = false)
    /\ get_new_file_sequence "00000000" = Ok "00000040".
Proof. apply (next_is_value_plus_64 "00726a3f"); reflexivity. Defined.

Lemma split_none sep s :
  all_chars (differs sep) s = true -> Py.split sep s = [s].
Proof.
  induction s as [| c s IH]; [reflexivity |].
  cbn [all_chars]. intros [Hc Hs]%andb_true_iff.
  apply negb_true_iff in Hc. cbn [Py.split]. rewrite Hc, (IH Hs). reflexivity.
Qed.

Lemma split_at_first sep p s :
  all_chars (differs sep) p = true ->
  Py.split sep (p +:+ String sep s) = p :: Py.split sep s.
Proof.
  induction p as [| c p IH].
  - intros _. rewrite append_nil. cbn [Py.split]. now rewrite Ascii.eqb_refl.
  - cbn [all_chars]. intros [Hc Hp]%andb_true_iff.
    apply negb_true_iff in Hc.
    rewrite append_cons. cbn [Py.split]. rewrite Hc, (IH Hp). reflexivity.
Qed.

Lemma contains_without_first a needle s :
  all_chars (differs a) s = true -> Py.contains (String a needle) s = false.
Proof.
  induction s as [| c s IH]; [reflexivity |].
  cbn [all_chars]. intros [Hc Hs]%andb_true_iff.
  apply negb_true_iff, Ascii.eqb_neq in Hc.
  cbn [Py.contains String.prefix].
  destruct (ascii_dec a c) as [-> | _]; [congruence |].
  rewrite (IH Hs). reflexivity.
Qed.

Lemma lower_hex_differs c :
  lower_hex c = true -> differs "-" c = true /\ differs "l" c = true.
Proof.
  destruct c as [[] [] [] [] [] [] [] []]; intros H;
    try (vm_compute in H; discriminate H); split; reflexivity.
Qed.

Lemma string8 s :
  String.length s = 8%nat ->
  exists c1 c2 c3 c4 c5 c6 c7 c8,
    s = String c1 (String c2 (String c3 (String c4
          (String c5 (String c6 (String c7 (String c8 ""))))))).
Proof.
  intros H.
  do 8 (destruct s as [| ? s]; [discriminate H |]).
  destruct s; [| discriminate H]. repeat eexists.
Qed.

(** C5, amended: for a FileId the directory is the kind prefix followed by
    the first 9 characters of the slash-joined two-character groups of the
    id, which are its first three groups, each followed by a slash; for
    004c93bf and the kind transactions it is transactions/00/4c/93/, with
    the slash at the end. *)
Theorem sub_directory_file_id (id : string) :
  is_file_id id = true ->
  let groups := Py.join "/" [Py.slice id 0 2; Py.slice id 2 4;
                             Py.slice id 4 6; Py.slice id 6 8] in
  sub_directory ("transactions-" +:+ id) = Ok ("transactions/" +:+ Py.take groups 9)
  /\ sub_directory ("ledger-" +:+ id) = Ok ("ledger/" +:+ Py.take groups 9)
  /\ Py.take groups 9
     = Py.slice id 0 2 +:+ "/" +:+ Py.slice id 2 4 +:+ "/" +:+ Py.slice id 4 6 +:+ "/"
  /\ sub_directory "transactions-004c93bf" = Ok "transactions/00/4c/93/".
Proof.
  intros Hid groups.
  destruct (file_id_facts id Hid) as (Hlen & Hlow & _).
  assert (Hdash : all_chars (differs "-") id = true)
    by (eapply all_chars_impl; [apply lower_hex_differs | exact Hlow]).
  assert (Hl : all_chars (differs "l") id = true)
    by (eapply all_chars_impl; [apply lower_hex_differs | exact Hlow]).
  assert (Hsplit : forall kind, all_chars (differs "-") kind = true ->
            Py.index (Py.split "-" (kind +:+ String "-" id)) 1 = Ok id).
  { intros kind Hk. rewrite (split_at_first _ _ _ Hk), (split_none _ _ Hdash).
    reflexivity. }
  assert (Hgroups : Py.take (Py.join "/" (map (fun i => Py.slice id i (i + 2))
                       (Py.range3 0 (String.length id) 2))) 9 = Py.take groups 9).
  { rewrite Hlen. reflexivity. }
  repeat split.
  - unfold sub_directory.
    change ("transactions-" +:+ id) with ("transactions" +:+ String "-" id).
    rewrite (Hsplit "transactions" eq_refl), Hgroups.
    change ("transactions" +:+ String "-" id) with ("transactions-" +:+ id).
    rewrite contains_without_first; [reflexivity |].
    rewrite all_chars_append, Hl. reflexivity.
  - unfold sub_directory.
    change ("ledger-" +:+ id) with ("ledger" +:+ String "-" id).
    rewrite (Hsplit "ledger" eq_refl), Hgroups. reflexivity.
  - destruct (string8 id Hlen) as (c1 & c2 & c3 & c4 & c5 & c6 & c7 & c8 & ->).
    reflexivity.
Qed.

Lemma sub_directory_file_id_witness :
  sub_directory "transactions-004c93bf" = Ok "transactions/00/4c/93/"
  /\ sub_directory "ledger-004c93bf" = Ok "ledger/00/4c/93/".
Proof.
  destruct (sub_directory_file_id "004c93bf" eq_refl) as (Ht & Hl & _).
  split; [exact Ht | exact Hl].
Defined.

(** C5, as stated, fails on its example: the directory of 004c93bf is not
    transactions/00/4c/93. *)
Lemma sub_directory_example_differs :
  sub_directory "transactions-004c93bf" <> Ok "transactions/00/4c/93".
Proof. vm_compute. discriminate. Qed.

(** ** The retry loop of [download_file] *)

Lemma s3_requests_app t1 t2 :
  s3_requests (t1 ++ t2) = (s3_requests t1 + s3_requests t2)%nat.
Proof. unfold s3_requests. now rewrite List.filter_app, length_app. Qed.

Lemma sleeps_app t1 t2 : sleeps (t1 ++ t2) = (sleeps t1 + sleeps t2)%nat.
Proof. unfold sleeps. now rewrite List.filter_app, length_app. Qed.

Lemma sleeps_are_180_app t1 t2 :
  sleeps_are_180 (t1 ++ t2) = sleeps_are_180 t1 && sleeps_are_180 t2.
Proof. apply forallb_app. Qed.

Lemma extend_extend w t1 t2 : extend (extend w t1) t2 = extend w (t1 ++ t2).
Proof. unfold extend. cbn. now rewrite app_assoc. Qed.

Lemma extend_nil w : extend w [] = w.
Proof. destruct w. unfold extend. cbn. now rewrite app_nil_r. Qed.

Lemma logging_run lvl template args message w :
  Py.format template args = Ok message ->
  logging lvl template args w = (Ok tt, extend w [Log lvl message]).
Proof. intros H. unfold logging, bind, lift, emit. rewrite H. reflexivity. Qed.

Section Retriever.
Context (cfg : config) (env : environment) (file_name sd : string).

Local Abbreviation key := (object_key cfg sd file_name).

Local Abbreviation next_reply := (next_reply cfg env sd file_name).

Lemma attempt_unfold attempt rest w :
  download_attempts cfg env file_name sd (attempt :: rest) w =
  match next_reply w with
  | Downloaded =>
      (Ok tt,
       {| trace := trace w ++ request_events cfg sd file_name ++ [downloaded_event file_name];
          files := {[local_name file_name]} ∪ files w;
          durable := durable w; pending := pending w |})
  | Failed (ClientError code) =>
      if attempt =? MAX_RETRIES cfg then
        (Raise (ClientError code),
         extend w (request_events cfg sd file_name ++ [retry_limit_event file_name]))
      else
        match Py.int code 10 with
        | Raise e => (Raise e, extend w (request_events cfg sd file_name))
        | Ok error_code =>
            download_attempts cfg env file_name sd rest
              (extend w (request_events cfg sd file_name
                         ++ (if error_code =? 404 then backoff_events file_name else [])))
        end
  | Failed e => (Raise e, extend w (request_events cfg sd file_name))
  end.
Proof.
  cbn [download_attempts]. unfold bind at 1.
  rewrite (logging_run _ _ _ ("Trying to download file " +:+ file_name +:+ ".xdr.gz")) by reflexivity.
  unfold bind at 1. unfold s3_download_file, next_reply.
  cbn [trace extend files durable pending].
  rewrite s3_requests_app. cbn [s3_requests List.filter is_request length]. rewrite Nat.add_0_r.
  change (CORE_DIRECTORY cfg +:+ sd +:+ file_name +:+ ".xdr.gz") with key.
  destruct (s3_answer env (s3_requests (trace w)) key) as [| e].
  - rewrite (logging_run _ _ _ ("File " +:+ file_name +:+ " downloaded")) by reflexivity.
    unfold extend, request_events, downloaded_event, local_name. cbn. 
    rewrite <- !app_assoc. reflexivity.
  - assert (Hother : forall A (x : A), @raise unit e
        {| trace := (trace w ++ [Log INFO ("Trying to download file " +:+ file_name +:+ ".xdr.gz")]) ++
             [S3Download (BUCKET_NAME cfg) key (file_name +:+ ".xdr.gz")];
           files := files w; durable := durable w; pending := pending w |}
        = (Raise e, extend w (request_events cfg sd file_name))).
    { intros. unfold raise, extend, request_events, local_name.
      cbn. rewrite <- !app_assoc. reflexivity. }
    destruct e as [| | | | | code | | statement]; try (apply (Hother unit tt)).
    destruct (attempt =? MAX_RETRIES cfg).
    + unfold bind. 
      rewrite (logging_run _ _ _ ("Reached retry limit when downloading file " +:+ file_name +:+ ", quitting.")) by reflexivity.
      unfold raise, extend, request_events, retry_limit_event, local_name. cbn.
      rewrite <- !app_assoc. reflexivity.
    + unfold bind at 1. unfold lift.
      destruct (Py.int code 10) as [error_code | e'].
      * unfold bind at 1.
        destruct (error_code =? 404).
        -- unfold bind at 1.
           rewrite (logging_run _ _ _ ("404, could not get file " +:+ file_name +:+ ", retrying in 3 minutes")) by reflexivity.
           unfold time_sleep, emit. f_equal.
           unfold extend, request_events, backoff_events, local_name. cbn.
           rewrite <- !app_assoc. reflexivity.
        -- unfold ret. f_equal.
           unfold extend, request_events, local_name. cbn.
           rewrite <- !app_assoc. reflexivity.
      * unfold extend, request_events, local_name. cbn.
        rewrite <- !app_assoc. reflexivity.
Qed.

Lemma not_found_inv reply :
  not_found reply = true ->
  exists code, reply = Failed (ClientError code) /\ Py.int code 10 = Ok 404.
Proof.
  unfold not_found, client_error_code.
  destruct reply as [| e]; [discriminate |].
  destruct e as [| | | | | code | | statement]; try discriminate.
  destruct (Py.int code 10) as [n |] eqn:E; [| discriminate].
  intros H%Z.eqb_eq. subst n. exists code. split; [reflexivity | exact E].
Qed.

Lemma requests_after_request w t :
  s3_requests (trace (extend w (request_events cfg sd file_name ++ t)))
  = (S (s3_requests (trace w)) + s3_requests t)%nat.
Proof.
  cbn [extend trace]. rewrite !s3_requests_app.
  change (s3_requests (request_events cfg sd file_name)) with 1%nat. lia.
Qed.

(** Every run of the loop: what it adds to the trace, how many requests
    it makes and how often it sleeps. *)
Lemma download_attempts_run : forall n a w,
  n = 0%nat \/ Z.of_nat (a + n) = MAX_RETRIES cfg + 1 ->
  exists T,
    let w' := snd (download_attempts cfg env file_name sd (map Z.of_nat (seq a n)) w) in
    trace w' = (trace w ++ T)%list /\ durable w' = durable w /\ pending w' = pending w
    /\ (s3_requests T <= n)%nat
    /\ sleeps T = backoffs_due cfg env key a (s3_requests (trace w)) (s3_requests T)
    /\ sleeps_are_180 T = true.
Proof.
  induction n as [| n IH]; intros a w Hinv.
  { exists []. cbn. rewrite app_nil_r. repeat split; reflexivity. }
  destruct Hinv as [Hinv | Hinv]; [discriminate Hinv |].
  cbn [seq map]. rewrite attempt_unfold.
  assert (Hquiet : forall t, s3_requests t = 0%nat -> sleeps t = 0%nat ->
            sleeps_are_180 t = true -> not_found (next_reply w) = false \/ Z.of_nat a = MAX_RETRIES cfg ->
            let T := request_events cfg sd file_name ++ t in
            (s3_requests T <= S n)%nat
            /\ sleeps T = backoffs_due cfg env key a (s3_requests (trace w)) (s3_requests T)
            /\ sleeps_are_180 T = true).
  { intros t Hr Hs H180 Hnf T. subst T.
    rewrite s3_requests_app, sleeps_app, sleeps_are_180_app, Hr, Hs, H180.
    change (s3_requests (request_events cfg sd file_name)) with 1%nat.
    cbn [Nat.add backoffs_due]. fold (next_reply w).
    split; [lia |]. split; [| reflexivity].
    change (sleeps (request_events cfg sd file_name)) with 0%nat.
    destruct Hnf as [-> | ->]; [now rewrite andb_false_r |].
    now rewrite Z.ltb_irrefl. }
  destruct (next_reply w) as [| e] eqn:Ereply.
  - exists (request_events cfg sd file_name ++ [downloaded_event file_name]).
    cbn [snd trace durable pending]. repeat split.
    all: apply (Hquiet [downloaded_event file_name]); auto.
  - assert (Hplain : not_found (Failed e) = false \/ Z.of_nat a = MAX_RETRIES cfg ->
      exists T,
        let w' := snd (@Raise unit e, extend w (request_events cfg sd file_name)) in
        trace w' = (trace w ++ T)%list /\ durable w' = durable w /\ pending w' = pending w
        /\ (s3_requests T <= S n)%nat
        /\ sleeps T = backoffs_due cfg env key a (s3_requests (trace w)) (s3_requests T)
        /\ sleeps_are_180 T = true).
    { intros Hnf. exists (request_events cfg sd file_name ++ []).
      cbn [snd extend trace durable pending]. rewrite app_nil_r at 1.
      repeat split. all: apply (Hquiet []); auto. }
    destruct e as [| | | | | code | | statement];
      try (apply Hplain; left; reflexivity).
    destruct (Z.eqb_spec (Z.of_nat a) (MAX_RETRIES cfg)) as [Hfinal | Hearly].
    + exists (request_events cfg sd file_name ++ [retry_limit_event file_name]).
      cbn [snd extend trace durable pending]. repeat split.
      all: apply (Hquiet [retry_limit_event file_name]); auto.
    + destruct (Py.int code 10) as [error_code | e'] eqn:Ecode.
      * set (extra := if error_code =? 404 then backoff_events file_name else []).
        destruct (IH (S a) (extend w (request_events cfg sd file_name ++ extra)))
          as (T' & Htr & Hdur & Hpen & Hreq & Hsl & H180).
        { right. lia. }
        cbv zeta in Htr, Hdur, Hpen.
        exists ((request_events cfg sd file_name ++ extra) ++ T').
        cbv zeta. rewrite Htr, Hdur, Hpen.
        cbn [extend trace durable pending]. rewrite <- !app_assoc.
        repeat split.
        -- rewrite !s3_requests_app.
           change (s3_requests (request_events cfg sd file_name)) with 1%nat.
           assert (s3_requests extra = 0%nat) as -> by (subst extra; destruct (error_code =? 404); reflexivity).
           lia.
        -- rewrite requests_after_request in Hsl.
           assert (Hx : s3_requests extra = 0%nat) by (subst extra; destruct (error_code =? 404); reflexivity).
           rewrite Hx, Nat.add_0_r in Hsl.
           rewrite !s3_requests_app, !sleeps_app, Hx.
           change (s3_requests (request_events cfg sd file_name)) with 1%nat.
           change (sleeps (request_events cfg sd file_name)) with 0%nat.
           cbn [Nat.add backoffs_due]. fold (next_reply w). rewrite Ereply, Hsl.
           f_equal. unfold not_found, client_error_code. rewrite Ecode.
           replace (Z.of_nat a <? MAX_RETRIES cfg) with true by (symmetry; apply Z.ltb_lt; lia).
           subst extra. destruct (error_code =? 404); reflexivity.
        -- rewrite !sleeps_are_180_app, H180.
           subst extra. destruct (error_code =? 404); reflexivity.
      * apply Hplain. left. unfold not_found, client_error_code.
        now rewrite Ecode.
Qed.

Lemma backoff_rounds_counts k :
  s3_requests (backoff_rounds cfg sd file_name k) = k
  /\ sleeps (backoff_rounds cfg sd file_name k) = k.
Proof.
  induction k as [| k [IH1 IH2]]; [split; reflexivity |].
  cbn [backoff_rounds]. rewrite !s3_requests_app, !sleeps_app, IH1, IH2.
  split; reflexivity.
Qed.

(** [k] attempts before the final one that all meet a 404: each is followed
    by the backoff, then the next attempt is made. *)
Lemma backoff_rounds_run : forall k a rest w,
  (forall i, (i < k)%nat ->
     not_found (s3_answer env (s3_requests (trace w) + i) key) = true) ->
  Z.of_nat (a + k) <= MAX_RETRIES cfg ->
  download_attempts cfg env file_name sd (map Z.of_nat (seq a k) ++ rest) w
  = download_attempts cfg env file_name sd rest
      (extend w (backoff_rounds cfg sd file_name k)).
Proof.
  induction k as [| k IH]; intros a rest w Hall Hle.
  { cbn. now rewrite extend_nil. }
  cbn [seq map app]. rewrite attempt_unfold.
  destruct (not_found_inv _ (Hall 0%nat ltac:(lia))) as (code & Hreply & Hcode).
  rewrite Nat.add_0_r in Hreply. unfold next_reply. rewrite Hreply, Hcode.
  replace (Z.of_nat a =? MAX_RETRIES cfg) with false by (symmetry; apply Z.eqb_neq; lia).
  cbn [Z.eqb Pos.eqb].
  rewrite IH.
  - rewrite extend_extend. cbn [backoff_rounds]. now rewrite <- !app_assoc.
  - intros i Hi. rewrite requests_after_request.
    change (s3_requests (backoff_events file_name)) with 0%nat.
    replace (S (s3_requests (trace w)) + 0 + i)%nat
      with (s3_requests (trace w) + S i)%nat by lia.
    apply Hall. lia.
  - lia.
Qed.

Lemma range_split (k : nat) (m : Z) :
  Z.of_nat k <= m ->
  Py.range (m + 1)
  = map Z.of_nat (seq 0 k) ++ Z.of_nat k :: map Z.of_nat (seq (S k) (Z.to_nat m - k)).
Proof.
  intros Hk. unfold Py.range.
  replace (Z.to_nat (m + 1)) with (k + S (Z.to_nat m - k))%nat by lia.
  rewrite seq_app, map_app. reflexivity.
Qed.

(** [k] attempts meet a 404 and the next one succeeds. *)
Lemma download_file_succeeds (k : nat) w :
  sub_directory file_name = Ok sd ->
  Z.of_nat k <= MAX_RETRIES cfg ->
  (forall i, (i < k)%nat ->
     not_found (s3_answer env (s3_requests (trace w) + i) key) = true) ->
  s3_answer env (s3_requests (trace w) + k) key = Downloaded ->
  download_file cfg env file_name w
  = (Ok tt,
     {| trace := trace w ++ backoff_rounds cfg sd file_name k
                 ++ request_events cfg sd file_name ++ [downloaded_event file_name];
        files := {[local_name file_name]} ∪ files w;
        durable := durable w; pending := pending w |}).
Proof.
  intros Hsd Hk Hall Hok.
  unfold download_file, bind, lift. rewrite Hsd.
  rewrite (range_split k) by exact Hk.
  rewrite backoff_rounds_run by (try exact Hall; lia).
  rewrite attempt_unfold. unfold next_reply.
  cbn [extend trace]. rewrite s3_requests_app.
  rewrite (proj1 (backoff_rounds_counts k)), Hok.
  cbn [files durable pending]. now rewrite <- !app_assoc.
Qed.

(** Every attempt before the final one meets a 404 and the final one
    fails too. *)
Lemma download_file_exhausted code w :
  sub_directory file_name = Ok sd ->
  0 <= MAX_RETRIES cfg ->
  (forall i, (i < Z.to_nat (MAX_RETRIES cfg))%nat ->
     not_found (s3_answer env (s3_requests (trace w) + i) key) = true) ->
  s3_answer env (s3_requests (trace w) + Z.to_nat (MAX_RETRIES cfg)) key
    = Failed (ClientError code) ->
  download_file cfg env file_name w
  = (Raise (ClientError code),
     extend w (backoff_rounds cfg sd file_name (Z.to_nat (MAX_RETRIES cfg))
               ++ request_events cfg sd file_name ++ [retry_limit_event file_name])).
Proof.
  intros Hsd Hm Hall Hlast.
  unfold download_file, bind, lift. rewrite Hsd.
  rewrite (range_split (Z.to_nat (MAX_RETRIES cfg))) by lia.
  rewrite backoff_rounds_run by (try exact Hall; lia).
  rewrite attempt_unfold. unfold next_reply.
  cbn [extend trace]. rewrite s3_requests_app.
  rewrite (proj1 (backoff_rounds_counts _)), Hlast.
  replace (Z.of_nat (Z.to_nat (MAX_RETRIES cfg)) =? MAX_RETRIES cfg) with true
    by (symmetry; apply Z.eqb_eq; lia).
  fold (extend w (backoff_rounds cfg sd file_name (Z.to_nat (MAX_RETRIES cfg)))).
  now rewrite extend_extend.
Qed.

(** The bound on the attempts and the account of the sleeps, for any
    behaviour of the bucket. *)
Lemma download_file_run w :
  sub_directory file_name = Ok sd ->
  exists T,
    let w' := snd (download_file cfg env file_name w) in
    trace w' = trace w ++ T /\ durable w' = durable w /\ pending w' = pending w
    /\ (s3_requests T <= Z.to_nat (MAX_RETRIES cfg + 1))%nat
    /\ sleeps T = backoffs_due cfg env key 0 (s3_requests (trace w)) (s3_requests T)
    /\ sleeps_are_180 T = true.
Proof.
  intros Hsd. unfold download_file, bind, lift. rewrite Hsd.
  apply download_attempts_run.
  destruct (Z.to_nat (MAX_RETRIES cfg + 1)) eqn:E; [left; reflexivity | right; lia].
Qed.
End Retriever.

Lemma ledger_example_directory : sub_directory "ledger-004c93bf" = Ok "ledger/00/4c/93/".
Proof. vm_compute. reflexivity. Qed.

(** C2, amended: a ClientError whose code is an integer other than 404 does
    not end the fetch while attempts remain: on an attempt before the final
    one the next attempt follows at once, with no backoff sleep and nothing
    raised; the error is propagated only when the attempt is the final one
    (attempt number MAX_RETRIES). *)
Theorem other_client_errors_are_retried
    (cfg : config) (env : environment) (file_name sd : string) (w : world)
    (attempt : Z) (rest : list Z) (code : string) (n : Z)
    (Hreply : next_reply cfg env sd file_name w = Failed (ClientError code))
    (Hcode : Py.int code 10 = Ok n) (Hn : n <> 404) :
  (attempt <> MAX_RETRIES cfg ->
     download_attempts cfg env file_name sd (attempt :: rest) w
     = download_attempts cfg env file_name sd rest
         (extend w (request_events cfg sd file_name)))
  /\ (attempt = MAX_RETRIES cfg ->
     download_attempts cfg env file_name sd (attempt :: rest) w
     = (Raise (ClientError code),
        extend w (request_events cfg sd file_name ++ [retry_limit_event file_name]))).
Proof.
  split; intros Hattempt; rewrite attempt_unfold, Hreply.
  - replace (attempt =? MAX_RETRIES cfg) with false by (symmetry; now apply Z.eqb_neq).
    rewrite Hcode.
    replace (n =? 404) with false by (symmetry; now apply Z.eqb_neq).
    now rewrite app_nil_r.
  - replace (attempt =? MAX_RETRIES cfg) with true by (symmetry; now apply Z.eqb_eq).
    reflexivity.
Qed.

Lemma other_client_errors_are_retried_witness :
  let cfg := example_config "KIN" 1 in
  let env := scripted [Failed (ClientError "500"); Downloaded] [] [] in
  download_attempts cfg env "ledger-004c93bf" "ledger/00/4c/93/" [0; 1] fresh_world
  = download_attempts cfg env "ledger-004c93bf" "ledger/00/4c/93/" [1]
      (extend fresh_world (request_events cfg "ledger/00/4c/93/" "ledger-004c93bf")).
Proof.
  intros cfg env.
  apply (proj1 (other_client_errors_are_retried cfg env "ledger-004c93bf"
                  "ledger/00/4c/93/" fresh_world 0 [1] "500" 500
                  eq_refl eq_refl ltac:(discriminate))).
  discriminate.
Defined.

(** C2, as stated, fails: with one retry configured, a first attempt that
    fails with code 500 is followed by a second attempt, and the fetch
    succeeds. *)
Lemma download_file_retries_after_500 :
  let cfg := example_config "KIN" 1 in
  let env := scripted [Failed (ClientError "500"); Downloaded] [] [] in
  let run := download_file cfg env "ledger-004c93bf" fresh_world in
  client_error_code (next_reply cfg env "ledger/00/4c/93/" "ledger-004c93bf" fresh_world)
    = Some 500
  /\ fst run = Ok tt
  /\ s3_requests (trace (snd run)) = 2%nat
  /\ sleeps (trace (snd run)) = 0%nat.
Proof. vm_compute. repeat split; reflexivity. Qed.

(** C7: with a configured MAX_RETRIES [m >= 0], a fetch makes at most [m + 1]
    attempts; a 404 on an attempt that is not the final one is followed by
    the warning and one sleep of 180 seconds, then by the next attempt; an
    attempt that is answered with success ends the fetch with success; so
    after [k <= m] attempts that met a 404, a success on the next attempt
    makes the fetch succeed after [k + 1] requests and [k] sleeps; and when
    all [m + 1] attempts fail (the earlier ones with 404) the ClientError of
    the last one is raised after exactly [m + 1] requests.  The two scenarios
    of the specification ([m = 2]: 404, 404, success; [m = 1]: 404, 404) are
    instances. *)
Theorem download_file_retry_budget
    (cfg : config) (env : environment) (file_name sd : string) (w : world)
    (Hm : 0 <= MAX_RETRIES cfg) (Hsd : sub_directory file_name = Ok sd) :
  let key := object_key cfg sd file_name in
  let n0 := s3_requests (trace w) in
  let run := download_file cfg env file_name w in
  Z.of_nat (s3_requests (trace (snd run))) <= Z.of_nat n0 + (MAX_RETRIES cfg + 1)
  /\ (forall attempt rest w1,
        attempt <> MAX_RETRIES cfg ->
        not_found (next_reply cfg env sd file_name w1) = true ->
        download_attempts cfg env file_name sd (attempt :: rest) w1
        = download_attempts cfg env file_name sd rest
            (extend w1 (request_events cfg sd file_name ++ backoff_events file_name)))
  /\ (forall attempt rest w1,
        next_reply cfg env sd file_name w1 = Downloaded ->
        let r := download_attempts cfg env file_name sd (attempt :: rest) w1 in
        fst r = Ok tt
        /\ trace (snd r) = trace w1 ++ request_events cfg sd file_name
                           ++ [downloaded_event file_name])
  /\ (forall k : nat,
        Z.of_nat k <= MAX_RETRIES cfg ->
        (forall i, (i < k)%nat -> not_found (s3_answer env (n0 + i) key) = true) ->
        s3_answer env (n0 + k) key = Downloaded ->
        fst run = Ok tt
        /\ s3_requests (trace (snd run)) = (n0 + (k + 1))%nat
        /\ sleeps (trace (snd run)) = (sleeps (trace w) + k)%nat
        /\ sleeps_are_180 (backoff_rounds cfg sd file_name k) = true)
  /\ (forall code,
        (forall i, (i < Z.to_nat (MAX_RETRIES cfg))%nat ->
           not_found (s3_answer env (n0 + i) key) = true) ->
        s3_answer env (n0 + Z.to_nat (MAX_RETRIES cfg)) key = Failed (ClientError code) ->
        fst run = Raise (ClientError code)
        /\ Z.of_nat (s3_requests (trace (snd run))) = Z.of_nat n0 + (MAX_RETRIES cfg + 1))
  /\ (let cfg2 := example_config "KIN" 2 in
      let env2 := scripted [Failed (ClientError "404"); Failed (ClientError "404");
                            Downloaded] [] [] in
      let run2 := download_file cfg2 env2 "transactions-004c93bf" fresh_world in
      fst run2 = Ok tt /\ s3_requests (trace (snd run2)) = 3%nat
      /\ List.filter is_sleep (trace (snd run2)) = [Sleep 180; Sleep 180])
  /\ (let cfg1 := example_config "KIN" 1 in
      let env1 := scripted [Failed (ClientError "404"); Failed (ClientError "404")] [] [] in
      let run1 := download_file cfg1 env1 "transactions-004c93bf" fresh_world in
      fst run1 = Raise (ClientError "404") /\ s3_requests (trace (snd run1)) = 2%nat).
Proof.
  intros key n0 run.
  split; [| split; [| split; [| split; [| split; [| split]]]]].
  - destruct (download_file_run cfg env file_name sd w Hsd)
      as (T & Htr & _ & _ & Hreq & _).
    cbv zeta in Htr. subst run. rewrite Htr, s3_requests_app. subst n0. lia.
  - intros attempt rest w1 Hattempt Hnf.
    destruct (not_found_inv _ Hnf) as (code & Hreply & Hcode).
    rewrite attempt_unfold, Hreply, Hcode.
    replace (attempt =? MAX_RETRIES cfg) with false by (symmetry; now apply Z.eqb_neq).
    reflexivity.
  - intros attempt rest w1 Hreply r. subst r.
    rewrite attempt_unfold, Hreply. split; reflexivity.
  - intros k Hk Hall Hok. subst run.
    rewrite (download_file_succeeds cfg env file_name sd k w Hsd Hk Hall Hok).
    cbn [fst snd trace].
    destruct (backoff_rounds_counts cfg file_name sd k) as [Hr Hs].
    rewrite !s3_requests_app, !sleeps_app, Hr, Hs.
    repeat split; try (cbn; lia).
    clear. induction k as [| k IH]; [reflexivity |].
    cbn [backoff_rounds]. rewrite !sleeps_are_180_app, IH. reflexivity.
  - intros code Hall Hlast. subst run.
    rewrite (download_file_exhausted cfg env file_name sd code w Hsd Hm Hall Hlast).
    cbn [fst snd trace extend].
    destruct (backoff_rounds_counts cfg file_name sd (Z.to_nat (MAX_RETRIES cfg))) as [Hr _].
    rewrite !s3_requests_app, Hr. split; [reflexivity |]. cbn. lia.
  - vm_compute. repeat split; reflexivity.
  - vm_compute. repeat split; reflexivity.
Qed.

Lemma download_file_retry_budget_witness :
  let cfg := example_config "KIN" 2 in
  let env := scripted [Failed (ClientError "404"); Failed (ClientError "404");
                       Downloaded] [] [] in
  let run := download_file cfg env "transactions-004c93bf" fresh_world in
  Z.of_nat (s3_requests (trace (snd run))) <= 0 + (2 + 1)
  /\ fst run = Ok tt
  /\ sleeps (trace (snd run)) = 2%nat.
Proof.
  intros cfg env run.
  pose proof (download_file_retry_budget cfg env "transactions-004c93bf"
                "transactions/00/4c/93/" fresh_world
                ltac:(discriminate) eq_refl) as (Hbound & _ & _ & Hsucc & _).
  destruct (Hsucc 2%nat) as (Hok & _ & Hsl & _).
  - discriminate.
  - intros i Hi.
    destruct i as [| [| i]]; [reflexivity | reflexivity | exfalso; lia].
  - reflexivity.
  - split; [exact Hbound |]. split; [exact Hok | exact Hsl].
Defined.

(** C10: when the attempt numbered MAX_RETRIES fails with a ClientError, the
    error is raised at once: after the request only the error is logged, and
    no sleep follows.  Over a whole fetch, whatever the bucket answers, the
    number of sleeps equals the number of attempts made that were not the
    final one and met a 404, and every sleep lasts 180 seconds.  Hence a
    fetch whose attempts before the final one all meet a 404, and whose
    final attempt fails, sleeps once per attempt before the final one
    and not after it. *)
Theorem backoff_only_after_early_404
    (cfg : config) (env : environment) (file_name sd : string) (w : world)
    (Hm : 0 <= MAX_RETRIES cfg) (Hsd : sub_directory file_name = Ok sd) :
  let key := object_key cfg sd file_name in
  let n0 := s3_requests (trace w) in
  let m := Z.to_nat (MAX_RETRIES cfg) in
  (forall rest code w1,
      next_reply cfg env sd file_name w1 = Failed (ClientError code) ->
      download_attempts cfg env file_name sd (MAX_RETRIES cfg :: rest) w1
      = (Raise (ClientError code),
         extend w1 (request_events cfg sd file_name ++ [retry_limit_event file_name])))
  /\ (exists T,
        trace (snd (download_file cfg env file_name w)) = trace w ++ T
        /\ sleeps T = backoffs_due cfg env key 0 n0 (s3_requests T)
        /\ sleeps_are_180 T = true)
  /\ (forall code,
        (forall i, (i < m)%nat -> not_found (s3_answer env (n0 + i) key) = true) ->
        s3_answer env (n0 + m) key = Failed (ClientError code) ->
        download_file cfg env file_name w
        = (Raise (ClientError code),
           extend w (backoff_rounds cfg sd file_name m
                     ++ request_events cfg sd file_name ++ [retry_limit_event file_name]))
        /\ sleeps (backoff_rounds cfg sd file_name m) = m
        /\ sleeps (request_events cfg sd file_name ++ [retry_limit_event file_name]) = 0%nat).
Proof.
  intros key n0 m. split; [| split].
  - intros rest code w1 Hreply.
    rewrite attempt_unfold, Hreply, Z.eqb_refl. reflexivity.
  - destruct (download_file_run cfg env file_name sd w Hsd)
      as (T & Htr & _ & _ & _ & Hsl & H180).
    exists T. auto.
  - intros code Hall Hlast. split; [| split].
    + apply download_file_exhausted; assumption.
    + apply backoff_rounds_counts.
    + reflexivity.
Qed.

Lemma backoff_only_after_early_404_witness :
  let cfg := example_config "KIN" 1 in
  let env := scripted [Failed (ClientError "404"); Failed (ClientError "404")] [] [] in
  download_file cfg env "transactions-004c93bf" fresh_world
  = (Raise (ClientError "404"),
     extend fresh_world
       (backoff_rounds cfg "transactions/00/4c/93/" "transactions-004c93bf" 1
        ++ request_events cfg "transactions/00/4c/93/" "transactions-004c93bf"
        ++ [retry_limit_event "transactions-004c93bf"])).
Proof.
  intros cfg env.
  pose proof (backoff_only_after_early_404 cfg env "transactions-004c93bf"
                "transactions/00/4c/93/" fresh_world
                ltac:(discriminate) eq_refl) as (_ & _ & Hall).
  apply (Hall "404").
  - intros i Hi. destruct i as [| i]; [reflexivity | exfalso; cbn in Hi; lia].
  - reflexivity.
Defined.

(** ** The statements of the projector *)

Lemma override_source_effective (tr : transaction) (op : operation) :
  override_source (tx_sourceAccount tr) op = Ok (effective_source tr op).
Proof.
  unfold override_source, operation_source, effective_source.
  destruct (sourceAccount op) as [[| overriding rest] |]; reflexivity.
Qed.

Lemma format_payment (source destination : string) (amount : Z) (memo : option string)
    (tx_hash : string) (timestamp : option Z) :
  Py.format "INSERT INTO payments VALUES ('{}','{}',{},{},'{}',to_timestamp({}));"
    [Py.VStr source; Py.VStr destination; Py.VInt amount; memo_argument memo;
     Py.VStr tx_hash; timestamp_argument timestamp]
  = Ok (payment_insert {| p_source := source; p_destination := destination;
                          p_amount := amount; p_memo := memo; p_txHash := tx_hash;
                          p_closeTime := timestamp |}).
Proof. destruct memo, timestamp; reflexivity. Qed.

Lemma format_trustline (source : string) (memo : option string)
    (tx_hash : string) (timestamp : option Z) :
  Py.format "INSERT INTO trustlines VALUES ('{}', {}, '{}',to_timestamp({}));"
    [Py.VStr source; memo_argument memo; Py.VStr tx_hash; timestamp_argument timestamp]
  = Ok (trustline_insert {| t_source := source; t_memo := memo; t_txHash := tx_hash;
                            t_closeTime := timestamp |}).
Proof. destruct memo, timestamp; reflexivity. Qed.

(** The projection of one operation, with the statement spelled out. *)
Lemma project_operation_eq (cfg : config) (timestamp : option Z) (tr : transaction)
    (memo : option string) (tx_hash : string) (op : operation) :
  project_operation cfg timestamp tr memo tx_hash op
  = if type (body op) =? 1 then
      match paymentOp (body op) with
      | None => Raise KeyError
      | Some payment =>
          match is_our_asset cfg (asset payment) with
          | Raise e => Raise e
          | Ok false => Ok None
          | Ok true =>
              Ok (Some (payment_insert
                          {| p_source := effective_source tr op;
                             p_destination := destination payment;
                             p_amount := amount payment;
                             p_memo := memo;
                             p_txHash := tx_hash;
                             p_closeTime := timestamp |}))
          end
      end
    else if type (body op) =? 6 then
      match changeTrustOp (body op) with
      | None => Raise KeyError
      | Some change =>
          match is_our_asset cfg (line change) with
          | Raise e => Raise e
          | Ok false => Ok None
          | Ok true =>
              Ok (Some (trustline_insert
                          {| t_source := effective_source tr op;
                             t_memo := memo;
                             t_txHash := tx_hash;
                             t_closeTime := timestamp |}))
          end
      end
    else Ok None.
Proof.
  unfold project_operation.
  destruct (type (body op) =? 1).
  - destruct (paymentOp (body op)) as [payment |]; [| reflexivity].
    destruct (is_our_asset cfg (asset payment)) as [[] | e]; try reflexivity.
    cbv zeta. rewrite override_source_effective, format_payment. reflexivity.
  - destruct (type (body op) =? 6); [| reflexivity].
    destruct (changeTrustOp (body op)) as [change |]; [| reflexivity].
    destruct (is_our_asset cfg (line change)) as [[] | e]; try reflexivity.
    cbv zeta. rewrite override_source_effective, format_trustline. reflexivity.
Qed.

Lemma ASSET_TYPE_is_target_type (cfg : config) :
  (String.length (ASSET_CODE cfg) <= 4)%nat -> ASSET_TYPE cfg = target_type cfg.
Proof.
  intros H. unfold ASSET_TYPE, target_type, Py.len.
  destruct (Z.leb_spec (Z.of_nat (String.length (ASSET_CODE cfg))) 4); [| lia].
  destruct (Nat.leb_spec (String.length (ASSET_CODE cfg)) 4); [reflexivity | lia].
Qed.

Lemma is_our_asset_matches (cfg : config) (a : gmap string (option alpha_num)) :
  (String.length (ASSET_CODE cfg) <= 4)%nat ->
  matches_target cfg a -> is_our_asset cfg a = Ok true.
Proof.
  intros Hshort (entry & Hlookup & Hcode & Hissuer).
  unfold is_our_asset, Py.getitem.
  rewrite (ASSET_TYPE_is_target_type cfg Hshort), Hlookup, Hcode, Hissuer.
  now rewrite !String.eqb_refl.
Qed.

Lemma project_payment (cfg : config) (timestamp : option Z) (tr : transaction)
    (op : operation) (payment : payment_op) :
  type (body op) = 1 -> paymentOp (body op) = Some payment ->
  is_our_asset cfg (asset payment) = Ok true ->
  project_operation cfg timestamp tr (memo_text tr) (hash tr) op
  = Ok (Some (payment_insert
          {| p_source := effective_source tr op;
             p_destination := destination payment;
             p_amount := amount payment;
             p_memo := memo_text tr;
             p_txHash := hash tr;
             p_closeTime := timestamp |})).
Proof.
  intros Htype Hpay Hours. rewrite project_operation_eq, Htype, Hpay, Hours. reflexivity.
Qed.

Lemma project_trustline (cfg : config) (timestamp : option Z) (tr : transaction)
    (op : operation) (change : change_trust_op) :
  type (body op) = 6 -> changeTrustOp (body op) = Some change ->
  is_our_asset cfg (line change) = Ok true ->
  project_operation cfg timestamp tr (memo_text tr) (hash tr) op
  = Ok (Some (trustline_insert
          {| t_source := effective_source tr op;
             t_memo := memo_text tr;
             t_txHash := hash tr;
             t_closeTime := timestamp |})).
Proof.
  intros Htype Hchange Hours. rewrite project_operation_eq, Htype, Hchange, Hours.
  reflexivity.
Qed.

Lemma write_operation_statement (cfg : config) (env : environment)
    (timestamp : option Z) (tr : transaction) (op : operation) (sql : string) (w : world) :
  project_operation cfg timestamp tr (memo_text tr) (hash tr) op = Ok (Some sql) ->
  write_operation cfg env timestamp tr (memo_text tr) (hash tr) op w
  = cur_execute env sql w.
Proof. intros H. unfold write_operation, bind, lift. now rewrite H. Qed.

(** X19.  For a configured asset code of at most 4 characters, the statement
    handed to [cur.execute] for a Payment whose asset matches the target in
    type, code and issuer is the INSERT into payments with, in this order and
    interpolated as they are, the operation's own source account when it has
    one and the transaction's otherwise, the operation's destination and
    amount, the transaction's memo text in quotes or the keyword NULL when
    it has none, the transaction's hash and the close time; a matching
    ChangeTrust gives the INSERT into trustlines with the same source, memo,
    hash and close time. *)
Theorem matching_operations_give_rows
    (cfg : config) (env : environment) (timestamp : option Z)
    (tr : transaction) (op : operation)
    (Hshort : (String.length (ASSET_CODE cfg) <= 4)%nat) :
  (forall payment w,
      type (body op) = 1 -> paymentOp (body op) = Some payment ->
      matches_target cfg (asset payment) ->
      write_operation cfg env timestamp tr (memo_text tr) (hash tr) op w
      = cur_execute env
          (payment_insert
             {| p_source := effective_source tr op;
                p_destination := destination payment;
                p_amount := amount payment;
                p_memo := memo_text tr;
                p_txHash := hash tr;
                p_closeTime := timestamp |}) w)
  /\ (forall change w,
      type (body op) = 6 -> changeTrustOp (body op) = Some change ->
      matches_target cfg (line change) ->
      write_operation cfg env timestamp tr (memo_text tr) (hash tr) op w
      = cur_execute env
          (trustline_insert
             {| t_source := effective_source tr op;
                t_memo := memo_text tr;
                t_txHash := hash tr;
                t_closeTime := timestamp |}) w)
  /\ (forall overriding others,
      sourceAccount op = Some (overriding :: others) ->
      effective_source tr op = overriding)
  /\ (sourceAccount op = None \/ sourceAccount op = Some [] ->
      effective_source tr op = tx_sourceAccount tr)
  /\ sql_memo None = "NULL"
  /\ (forall text, sql_memo (Some text) = "'" +:+ text +:+ "'"
                   /\ sql_memo (Some text) <> sql_memo None).
Proof.
  split; [| split; [| split; [| split; [| split]]]].
  - intros payment w Htype Hpay Hmatch.
    apply write_operation_statement.
    apply (project_payment _ _ _ _ payment); try assumption.
    now apply is_our_asset_matches.
  - intros change w Htype Hchange Hmatch.
    apply write_operation_statement.
    apply (project_trustline _ _ _ _ change); try assumption.
    now apply is_our_asset_matches.
  - intros overriding others H. unfold effective_source. now rewrite H.
  - intros [H | H]; unfold effective_source; now rewrite H.
  - reflexivity.
  - intros text. split; [reflexivity | discriminate].
Qed.

Lemma example_asset_matches :
  matches_target (example_config "KIN" 2) (example_asset "KIN").
Proof.
  exists {| assetCode := "KIN"; issuer := "GISSUER" |}.
  repeat split; reflexivity.
Defined.

Lemma matching_operations_give_rows_witness :
  write_operation (example_config "KIN" 2) (scripted [] [] []) (Some 1000)
    (example_transaction "KIN") None "abcd" (example_payment "KIN") fresh_world
  = cur_execute (scripted [] [] [])
      "INSERT INTO payments VALUES ('GSOURCE','GDEST',1500,NULL,'abcd',to_timestamp(1000));"
      fresh_world.
Proof.
  apply (proj1 (matching_operations_give_rows (example_config "KIN" 2)
                  (scripted [] [] []) (Some 1000) (example_transaction "KIN")
                  (example_payment "KIN") ltac:(vm_compute; lia))
               {| asset := example_asset "KIN"; destination := "GDEST"; amount := 1500 |}
               fresh_world eq_refl eq_refl example_asset_matches).
Defined.

(** ** The derived asset type *)

Lemma ASSET_TYPE_short (cfg : config) :
  (String.length (ASSET_CODE cfg) <= 4)%nat -> ASSET_TYPE cfg = "alphaNum4".
Proof.
  intros H. unfold ASSET_TYPE, Py.len.
  destruct (Z.leb_spec (Z.of_nat (String.length (ASSET_CODE cfg))) 4); [reflexivity | lia].
Qed.

Lemma ASSET_TYPE_long (cfg : config) :
  (4 < String.length (ASSET_CODE cfg))%nat -> ASSET_TYPE cfg = "12".
Proof.
  intros H. unfold ASSET_TYPE, Py.len.
  destruct (Z.leb_spec (Z.of_nat (String.length (ASSET_CODE cfg))) 4); [lia | reflexivity].
Qed.

(** C3, at a failing input: for the six-character asset code KINKIN the
    derived type is the string 12, not alphaNum12; no decoded asset has an
    entry under that key, so the first Payment operation met ends the run
    with a KeyError. *)
Theorem ASSET_TYPE_of_long_code :
  let cfg := example_config "KINKIN" 2 in
  ASSET_TYPE cfg = "12"
  /\ ASSET_TYPE cfg <> "alphaNum12"
  /\ project_operation cfg (Some 1000) (example_transaction "KINKIN") None "abcd"
       (example_payment "KINKIN") = Raise KeyError.
Proof. vm_compute. repeat split; try reflexivity. discriminate. Qed.

(** C8, where the code departs from it: for a configured asset code of more
    than 4 characters, a Payment or a ChangeTrust whose asset matches the
    target in type, code and issuer, decoded with the keys alphaNum4 and
    alphaNum12, gives no row: the asset is read under the key 12, which
    raises KeyError before any statement is built.  With the six-character
    code KINKIN the file that holds such a payment is not written at all. *)
Theorem matching_operation_of_long_code_gives_no_row
    (cfg : config) (env : environment) (timestamp : option Z)
    (tr : transaction) (op : operation) (w : world)
    (Hlong : (4 < String.length (ASSET_CODE cfg))%nat) :
  (forall payment,
      type (body op) = 1 -> paymentOp (body op) = Some payment ->
      matches_target cfg (asset payment) ->
      asset payment !! "12" = None ->
      write_operation cfg env timestamp tr (memo_text tr) (hash tr) op w
      = (Raise KeyError, w))
  /\ (forall change,
      type (body op) = 6 -> changeTrustOp (body op) = Some change ->
      matches_target cfg (line change) ->
      line change !! "12" = None ->
      write_operation cfg env timestamp tr (memo_text tr) (hash tr) op w
      = (Raise KeyError, w))
  /\ (let run := write_to_postgres (example_config "KINKIN" 2)
                   (with_checkpoint "004c937f" (scripted [] [] []))
                   [example_entry "KINKIN"] {[ 100 := 1000 ]} "004c93bf" fresh_world in
      fst run = Raise KeyError /\ durable (snd run) = [] /\ pending (snd run) = []).
Proof.
  split; [| split].
  - intros payment Htype Hpay _ Hnone.
    unfold write_operation, project_operation, bind, lift, is_our_asset, Py.getitem.
    now rewrite Htype, Hpay, (ASSET_TYPE_long cfg Hlong), Hnone.
  - intros change Htype Hchange _ Hnone.
    unfold write_operation, project_operation, bind, lift, is_our_asset, Py.getitem.
    now rewrite Htype, Hchange, (ASSET_TYPE_long cfg Hlong), Hnone.
  - vm_compute. repeat split; reflexivity.
Qed.

Lemma matching_operation_of_long_code_gives_no_row_witness :
  let cfg := example_config "KINKIN" 2 in
  let env := with_checkpoint "004c937f" (scripted [] [] []) in
  (4 < String.length (ASSET_CODE cfg))%nat
  /\ matches_target cfg (example_asset "KINKIN")
  /\ write_operation cfg env (Some 1000) (example_transaction "KINKIN") None "abcd"
       (example_payment "KINKIN") fresh_world
     = (Raise KeyError, fresh_world)
  /\ write_operation cfg env (Some 1000) (example_transaction "KINKIN") None "abcd"
       (example_trust "KINKIN") fresh_world
     = (Raise KeyError, fresh_world).
Proof.
  cbv zeta.
  assert (Hlong : (4 < String.length (ASSET_CODE (example_config "KINKIN" 2)))%nat)
    by (cbn; lia).
  assert (Hmatch : matches_target (example_config "KINKIN" 2) (example_asset "KINKIN")).
  { exists {| assetCode := "KINKIN"; issuer := "GISSUER" |}. repeat split; reflexivity. }
  split; [exact Hlong |]. split; [exact Hmatch |]. split.
  - apply (proj1 (matching_operation_of_long_code_gives_no_row
                    (example_config "KINKIN" 2)
                    (with_checkpoint "004c937f" (scripted [] [] [])) (Some 1000)
                    (example_transaction "KINKIN") (example_payment "KINKIN")
                    fresh_world Hlong)
             {| asset := example_asset "KINKIN"; destination := "GDEST"; amount := 1500 |}
             eq_refl eq_refl Hmatch).
    vm_compute. reflexivity.
  - apply (proj1 (proj2 (matching_operation_of_long_code_gives_no_row
                    (example_config "KINKIN" 2)
                    (with_checkpoint "004c937f" (scripted [] [] [])) (Some 1000)
                    (example_transaction "KINKIN") (example_trust "KINKIN")
                    fresh_world Hlong))
             {| line := example_asset "KINKIN" |} eq_refl eq_refl Hmatch).
    vm_compute. reflexivity.
Defined.

(** ** The transaction of [write_to_postgres] *)

Lemma sends_ret : sends (ret tt) (Ok []).
Proof.
  intros w. cbn. exists []. cbn. now rewrite !app_nil_r.
Qed.

Lemma sends_for_each {A} (f : A -> result (list string)) (loop_body : A -> M unit)
    (xs : list A) :
  (forall x, sends (loop_body x) (f x)) ->
  sends (for_each xs loop_body) (collect f xs).
Proof.
  intros Hbody. induction xs as [| x xs IH]; [apply sends_ret |].
  intros w. cbn [for_each collect]. unfold bind.
  specialize (Hbody x w). destruct (loop_body x w) as [[[] | e] w1].
  - destruct Hbody as (l & Hf & Htr & Hdur & Hpen). rewrite Hf.
    specialize (IH w1). destruct (for_each xs loop_body w1) as [[[] | e] w2].
    + destruct IH as (l' & Hc & Htr' & Hdur' & Hpen'). rewrite Hc.
      exists (l ++ l'). split; [reflexivity |].
      rewrite Htr', Htr, Hdur', Hdur, Hpen', Hpen, map_app, !app_assoc. auto.
    + congruence.
  - exact Hbody.
Qed.

Lemma sends_write_operation (cfg : config) (env : environment)
    (timestamp : option Z) (tr : transaction) (op : operation) :
  sends (write_operation cfg env timestamp tr (memo_text tr) (hash tr) op)
        (operation_statements cfg timestamp tr op).
Proof.
  intros w. unfold write_operation, operation_statements, bind, lift.
  destruct (project_operation cfg timestamp tr (memo_text tr) (hash tr) op)
    as [[sql |] | e].
  - unfold cur_execute.
    destruct (db_accepts env (durable w) (pending w) sql); [| reflexivity].
    exists [sql]. cbn. auto.
  - apply sends_ret.
  - reflexivity.
Qed.

Lemma sends_write_entry (cfg : config) (env : environment)
    (ledgers_dictionary : gmap Z Z) (entry : transaction_history_entry) :
  sends (write_entry cfg env ledgers_dictionary entry)
        (entry_statements cfg ledgers_dictionary entry).
Proof.
  unfold write_entry, entry_statements.
  apply sends_for_each. intros tr.
  apply sends_for_each. intros op. apply sends_write_operation.
Qed.

(** *** Reading the checkpoint back *)

Lemma prefix_append (p s : string) : String.prefix p (p +:+ s) = true.
Proof.
  induction p as [| c p IH].
  - destruct s; reflexivity.
  - rewrite append_cons. cbn [String.prefix].
    destruct (ascii_dec c c); [exact IH | congruence].
Qed.

Lemma substring_all (s : string) : String.substring 0 (String.length s) s = s.
Proof.
  induction s as [| c s IH]; [reflexivity |].
  cbn [String.length String.substring]. now rewrite IH.
Qed.

Lemma substring_append (p s : string) (n : nat) :
  String.substring (String.length p) n (p +:+ s) = String.substring 0 n s.
Proof.
  induction p as [| c p IH]; [reflexivity |].
  rewrite append_cons. cbn [String.length String.substring]. exact IH.
Qed.

Lemma drop_last_quote (s : string) : drop_last (s +:+ "'") = s.
Proof.
  induction s as [| c s IH]; [reflexivity |].
  rewrite append_cons. cbn [drop_last]. rewrite IH.
  destruct s; reflexivity.
Qed.

Lemma stored_name_update (file_name : string) :
  stored_name (update_lastfile file_name) = Some file_name.
Proof.
  unfold stored_name, update_lastfile.
  rewrite prefix_append, substring_append, length_append.
  replace (String.length "UPDATE lastfile SET name = '" + String.length (file_name +:+ "'")
           - String.length "UPDATE lastfile SET name = '")%nat
    with (String.length (file_name +:+ "'")) by lia.
  now rewrite substring_all, drop_last_quote.
Qed.

Lemma stored_checkpoint_app (env : environment) (l1 l2 : list string) :
  stored_checkpoint env (l1 ++ l2)
  = fold_left apply_statement l2 (stored_checkpoint env l1).
Proof. unfold stored_checkpoint. apply fold_left_app. Qed.

Lemma apply_unrelated (l : list string) : forall row,
  Forall (fun sql => stored_name sql = None) l ->
  fold_left apply_statement l row = row.
Proof.
  induction l as [| sql l IH]; intros row Hall; [reflexivity |].
  apply Forall_cons in Hall as [Hsql Hall]. cbn [fold_left].
  unfold apply_statement at 2. rewrite Hsql.
  destruct row; apply IH, Hall.
Qed.

Lemma apply_update (row : option string) (file_name : string) :
  apply_statement row (update_lastfile file_name) = renamed row file_name.
Proof. unfold apply_statement. rewrite stored_name_update. destruct row; reflexivity. Qed.

Lemma renamed_fold (l : list string) (name : string) : forall row,
  renamed (fold_left apply_statement l row) name = renamed row name.
Proof.
  induction l as [| sql l IH]; intros row; [reflexivity |].
  cbn [fold_left]. rewrite IH. unfold apply_statement.
  destruct row, (stored_name sql); reflexivity.
Qed.

(** The row after a committed file: whatever was open, the inserts leave
    the row alone and the update renames it. *)
Lemma stored_checkpoint_after_file (env : environment)
    (committed open inserts : list string) (file_name : string) :
  Forall (fun sql => stored_name sql = None) inserts ->
  stored_checkpoint env (committed ++ open ++ inserts ++ [update_lastfile file_name])
  = renamed (stored_checkpoint env committed) file_name.
Proof.
  intros Hins. unfold stored_checkpoint. rewrite !fold_left_app. cbn [fold_left].
  rewrite apply_update, (apply_unrelated inserts _ Hins). apply renamed_fold.
Qed.

Lemma format_update (file_name : string) :
  Py.format "UPDATE lastfile SET name = '{}'" [Py.VStr file_name]
  = Ok (update_lastfile file_name).
Proof. reflexivity. Qed.

(** The outcome of [write_to_postgres]: either everything is committed at
    once, the checkpoint last, or nothing is. *)
Lemma write_to_postgres_outcome (cfg : config) (env : environment)
    (transactions : list transaction_history_entry) (ledgers_dictionary : gmap Z Z)
    (file_name : string) (w : world) :
  match write_to_postgres cfg env transactions ledgers_dictionary file_name w with
  | (Ok _, w') =>
      exists inserts,
        file_statements cfg ledgers_dictionary transactions = Ok inserts
        /\ trace w' = trace w
             ++ [Log INFO ("Writing contents of file: " +:+ file_name +:+ " to database")]
             ++ map Execute inserts
             ++ [Execute (update_lastfile file_name); Commit;
                 Log INFO ("Successfully wrote contents of file: " +:+ file_name
                           +:+ " to database")]
        /\ durable w' = durable w ++ pending w ++ inserts ++ [update_lastfile file_name]
        /\ pending w' = []
  | (Raise _, w') => durable w' = durable w
  end.
Proof.
  unfold write_to_postgres. unfold bind at 1.
  rewrite (logging_run _ _ _ ("Writing contents of file: " +:+ file_name +:+ " to database"))
    by reflexivity.
  unfold bind at 1.
  pose proof (sends_for_each _ _ transactions (sends_write_entry cfg env ledgers_dictionary)
                (extend w [Log INFO ("Writing contents of file: " +:+ file_name
                                     +:+ " to database")])) as Hloop.
  fold (file_statements cfg ledgers_dictionary transactions) in Hloop.
  destruct (for_each transactions (write_entry cfg env ledgers_dictionary) _)
    as [[[] | e] w1]; [| exact Hloop].
  destruct Hloop as (inserts & Hstmts & Htr & Hdur & Hpen).
  cbn [extend trace durable pending] in Htr, Hdur, Hpen.
  unfold bind at 1. unfold lift. rewrite format_update.
  unfold bind at 1. unfold cur_execute.
  destruct (db_accepts env (durable w1) (pending w1) (update_lastfile file_name));
    [| exact Hdur].
  unfold bind at 1. unfold conn_commit. cbn [durable pending trace files].
  destruct (db_commits env (durable w1) (pending w1 ++ [update_lastfile file_name]));
    [| exact Hdur].
  rewrite (logging_run _ _ _ ("Successfully wrote contents of file: " +:+ file_name
                              +:+ " to database")) by reflexivity.
  cbn [extend trace durable pending].
  exists inserts. rewrite Htr, Hdur, Hpen, <- !app_assoc. auto.
Qed.

(** *** The statements, one after the other *)

Lemma send_list_app (env : environment) (l1 l2 : list string) : forall w,
  send_list env (l1 ++ l2) w = bind (send_list env l1) (fun _ => send_list env l2) w.
Proof.
  unfold send_list. induction l1 as [| sql l1 IH]; intros w; [reflexivity |].
  cbn [app for_each]. unfold bind in IH |- *.
  destruct (cur_execute env sql w) as [[[] | e] w1]; [| reflexivity].
  apply IH.
Qed.

Lemma send_list_one (env : environment) (sql : string) (w : world) :
  send_list env [sql] w = cur_execute env sql w.
Proof.
  unfold send_list. cbn [for_each]. unfold bind.
  destruct (cur_execute env sql w) as [[[] | e] w1]; reflexivity.
Qed.

Lemma first_refused_app (env : environment) (committed : list string)
    (l1 l2 : list string) : forall open,
  first_refused env committed open (l1 ++ l2)
  = match first_refused env committed open l1 with
    | Some sql => Some sql
    | None => first_refused env committed (open ++ l1) l2
    end.
Proof.
  induction l1 as [| sql l1 IH]; intros open; cbn [app first_refused].
  - now rewrite app_nil_r.
  - destruct (db_accepts env committed open sql); [| reflexivity].
    rewrite IH, <- app_assoc. reflexivity.
Qed.

Lemma cur_execute_eq (env : environment) (sql : string) (w : world) :
  cur_execute env sql w
  = if db_accepts env (durable w) (pending w) sql
    then (Ok tt, {| trace := trace w ++ [Execute sql]; files := files w;
                    durable := durable w; pending := pending w ++ [sql] |})
    else (Raise (DatabaseError sql), w).
Proof. reflexivity. Qed.

(** What sending a list does: all of it joins the open transaction, or the
    first refused statement raises. *)
Lemma send_list_run (env : environment) (l : list string) : forall w,
  match first_refused env (durable w) (pending w) l with
  | None =>
      send_list env l w
      = (Ok tt, {| trace := trace w ++ map Execute l; files := files w;
                   durable := durable w; pending := pending w ++ l |})
  | Some sql =>
      fst (send_list env l w) = Raise (DatabaseError sql)
      /\ durable (snd (send_list env l w)) = durable w
  end.
Proof.
  unfold send_list. induction l as [| sql l IH]; intros w; cbn [first_refused for_each].
  - unfold ret. cbn. rewrite !app_nil_r. now destruct w.
  - unfold bind. rewrite !(cur_execute_eq env sql w).
    destruct (db_accepts env (durable w) (pending w) sql); [| split; reflexivity].
    cbv beta iota.
    specialize (IH {| trace := trace w ++ [Execute sql]; files := files w;
                      durable := durable w; pending := pending w ++ [sql] |}).
    cbn [trace files durable pending] in IH.
    destruct (first_refused env (durable w) (pending w ++ [sql]) l).
    + exact IH.
    + rewrite IH. cbn [map]. now rewrite <- !app_assoc.
Qed.

Lemma for_each_sends {A} (env : environment) (f : A -> result (list string))
    (loop_body : A -> M unit) (xs : list A) :
  (forall x l, f x = Ok l -> forall w, loop_body x w = send_list env l w) ->
  forall l, collect f xs = Ok l -> forall w, for_each xs loop_body w = send_list env l w.
Proof.
  intros Hbody. induction xs as [| x xs IH]; intros l Hl w.
  - cbn in Hl. injection Hl as <-. reflexivity.
  - cbn [collect] in Hl.
    destruct (f x) as [l1 |] eqn:Hx; [| discriminate Hl].
    destruct (collect f xs) as [l2 |] eqn:Hxs; [| discriminate Hl].
    injection Hl as <-. cbn [for_each]. rewrite send_list_app. unfold bind.
    rewrite (Hbody x l1 Hx w).
    destruct (send_list env l1 w) as [[[] | e] w1]; [| reflexivity].
    apply (IH l2 eq_refl).
Qed.

Lemma write_operation_sends (cfg : config) (env : environment)
    (timestamp : option Z) (tr : transaction) (op : operation) (l : list string) :
  operation_statements cfg timestamp tr op = Ok l ->
  forall w, write_operation cfg env timestamp tr (memo_text tr) (hash tr) op w
            = send_list env l w.
Proof.
  unfold operation_statements, write_operation, bind, lift. intros Hl w.
  destruct (project_operation cfg timestamp tr (memo_text tr) (hash tr) op)
    as [[sql |] | e]; [| | discriminate Hl]; injection Hl as <-.
  - now rewrite send_list_one.
  - reflexivity.
Qed.

Lemma write_entry_sends (cfg : config) (env : environment)
    (ledgers_dictionary : gmap Z Z) (entry : transaction_history_entry) (l : list string) :
  entry_statements cfg ledgers_dictionary entry = Ok l ->
  forall w, write_entry cfg env ledgers_dictionary entry w = send_list env l w.
Proof.
  unfold entry_statements, write_entry.
  apply for_each_sends. intros tr l1.
  apply for_each_sends. intros op l2. apply write_operation_sends.
Qed.

Lemma collect_Forall {A} (P : string -> Prop) (f : A -> result (list string))
    (xs : list A) :
  (forall x l, f x = Ok l -> Forall P l) ->
  forall l, collect f xs = Ok l -> Forall P l.
Proof.
  intros Hf. induction xs as [| x xs IH]; intros l Hl; cbn [collect] in Hl.
  - injection Hl as <-. constructor.
  - destruct (f x) as [l1 |] eqn:Hx; [| discriminate Hl].
    destruct (collect f xs) as [l2 |]; [| discriminate Hl].
    injection Hl as <-. apply Forall_app. split; [apply (Hf x), Hx | now apply IH].
Qed.

(** No statement of the projection is an UPDATE of [lastfile]. *)
Lemma operation_statements_are_inserts (cfg : config) (timestamp : option Z)
    (tr : transaction) (op : operation) (l : list string) :
  operation_statements cfg timestamp tr op = Ok l ->
  Forall (fun sql => stored_name sql = None) l.
Proof.
  unfold operation_statements. rewrite project_operation_eq.
  destruct (type (body op) =? 1).
  - destruct (paymentOp (body op)) as [payment |]; [| discriminate].
    destruct (is_our_asset cfg (asset payment)) as [[] | e]; [| | discriminate];
      intros [= <-]; repeat constructor.
  - destruct (type (body op) =? 6); [| intros [= <-]; constructor].
    destruct (changeTrustOp (body op)) as [change |]; [| discriminate].
    destruct (is_our_asset cfg (line change)) as [[] | e]; [| | discriminate];
      intros [= <-]; repeat constructor.
Qed.

Lemma file_statements_are_inserts (cfg : config) (ledgers_dictionary : gmap Z Z)
    (transactions : list transaction_history_entry) (l : list string) :
  file_statements cfg ledgers_dictionary transactions = Ok l ->
  Forall (fun sql => stored_name sql = None) l.
Proof.
  unfold file_statements, entry_statements.
  apply collect_Forall. intros entry l1.
  apply collect_Forall. intros tr l2.
  apply collect_Forall. intros op l3. apply operation_statements_are_inserts.
Qed.

(** When the statements of the file can be built, [write_to_postgres] sends
    them, then the update, then commits: it stops at the first statement the
    database refuses, or at a refused commit, and returns otherwise. *)
Lemma write_to_postgres_progress (cfg : config) (env : environment)
    (transactions : list transaction_history_entry) (ledgers_dictionary : gmap Z Z)
    (file_name : string) (w : world) (inserts : list string) :
  file_statements cfg ledgers_dictionary transactions = Ok inserts ->
  let run := write_to_postgres cfg env transactions ledgers_dictionary file_name w in
  match first_refused env (durable w) (pending w)
          (inserts ++ [update_lastfile file_name]) with
  | Some sql => fst run = Raise (DatabaseError sql) /\ durable (snd run) = durable w
  | None =>
      if db_commits env (durable w) (pending w ++ inserts ++ [update_lastfile file_name])
      then run
           = (Ok tt,
              {| trace := trace w
                   ++ [Log INFO ("Writing contents of file: " +:+ file_name
                                 +:+ " to database")]
                   ++ map Execute inserts
                   ++ [Execute (update_lastfile file_name); Commit;
                       Log INFO ("Successfully wrote contents of file: " +:+ file_name
                                 +:+ " to database")];
                 files := files w;
                 durable := durable w ++ pending w ++ inserts
                            ++ [update_lastfile file_name];
                 pending := [] |})
      else fst run = Raise (DatabaseError "COMMIT") /\ durable (snd run) = durable w
  end.
Proof.
  intros Hstmts run. subst run.
  destruct (write_to_postgres cfg env transactions ledgers_dictionary file_name w)
    as [res w'] eqn:E.
  cbn [fst snd].
  unfold write_to_postgres in E. unfold bind at 1 in E.
  rewrite (logging_run _ _ _ ("Writing contents of file: " +:+ file_name +:+ " to database"))
    in E by reflexivity.
  unfold bind at 1 in E.
  rewrite (for_each_sends env _ _ transactions
             (write_entry_sends cfg env ledgers_dictionary) inserts Hstmts) in E.
  rewrite first_refused_app.
  pose proof (send_list_run env inserts
                (extend w [Log INFO ("Writing contents of file: " +:+ file_name
                                     +:+ " to database")])) as Hsend.
  cbn [extend durable pending trace files] in Hsend.
  destruct (first_refused env (durable w) (pending w) inserts) as [sql |].
  - destruct (send_list env inserts _) as [[[] | e] w1]; cbn [fst snd] in Hsend;
      destruct Hsend as [Hfst Hdur]; [discriminate Hfst |].
    injection E as <- <-. injection Hfst as ->. split; [reflexivity | exact Hdur].
  - rewrite Hsend in E. unfold bind at 1 in E. unfold lift in E.
    rewrite format_update in E. unfold bind at 1 in E.
    rewrite cur_execute_eq in E. cbn [durable pending trace files] in E.
    cbn [first_refused].
    destruct (db_accepts env (durable w) (pending w ++ inserts) (update_lastfile file_name)).
    + unfold bind at 1 in E. unfold conn_commit in E.
      cbn [durable pending trace files] in E.
      rewrite <- (app_assoc (pending w)) in E.
      destruct (db_commits env (durable w)
                  (pending w ++ inserts ++ [update_lastfile file_name])).
      * rewrite (logging_run _ _ _ ("Successfully wrote contents of file: " +:+ file_name
                                    +:+ " to database")) in E by reflexivity.
        rewrite <- E. unfold extend. cbn [trace files durable pending].
        rewrite <- !app_assoc. reflexivity.
      * injection E as <- <-. split; reflexivity.
    + injection E as <- <-. split; reflexivity.
Qed.

Lemma keeps_lift {A} (r : result A) : keeps_database (lift r).
Proof. intros w. split; reflexivity. Qed.

Lemma keeps_logging lvl template args : keeps_database (logging lvl template args).
Proof.
  intros w. unfold logging, bind, lift, emit.
  destruct (Py.format template args); split; reflexivity.
Qed.

Lemma keeps_parse {A} (decode : string -> result A) path : keeps_database (parse decode path).
Proof. intros w. unfold parse. destruct (decide (path ∈ files w)); split; reflexivity. Qed.

Lemma keeps_os_remove path : keeps_database (os_remove path).
Proof. intros w. unfold os_remove. destruct (decide (path ∈ files w)); split; reflexivity. Qed.

Lemma keeps_download_file cfg env file_name : keeps_database (download_file cfg env file_name).
Proof.
  intros w. destruct (sub_directory file_name) as [sd | e] eqn:Hsd.
  - destruct (download_file_run cfg env file_name sd w Hsd) as (T & _ & Hdur & Hpen & _).
    split; assumption.
  - unfold download_file, bind, lift. rewrite Hsd. split; reflexivity.
Qed.

Lemma cycle_outcome_after {A} (env : environment) (file_sequence : string)
    (m : M A) (k : A -> M string) :
  keeps_database m -> (forall a, cycle_outcome env file_sequence (k a)) ->
  cycle_outcome env file_sequence (bind m k).
Proof.
  intros Hm Hk w. unfold bind. destruct (Hm w) as [Hdur _].
  destruct (m w) as [[a | e] w1]; cbn [snd] in Hdur.
  - specialize (Hk a w1). destruct (k a w1) as [[next | e] w2];
      now rewrite <- Hdur.
  - now left.
Qed.

Lemma main_cycle_outcome (cfg : config) (env : environment) (file_sequence : string) :
  cycle_outcome env file_sequence (main_cycle cfg env file_sequence).
Proof.
  unfold main_cycle.
  apply cycle_outcome_after; [apply keeps_download_file | intros _].
  apply cycle_outcome_after; [apply keeps_download_file | intros _].
  apply cycle_outcome_after; [apply keeps_lift | intros ledger_path].
  apply cycle_outcome_after; [apply keeps_parse | intros ledgers].
  apply cycle_outcome_after; [apply keeps_lift | intros transactions_path].
  apply cycle_outcome_after; [apply keeps_parse | intros transactions].
  apply cycle_outcome_after; [apply keeps_logging | intros _].
  apply cycle_outcome_after; [apply keeps_os_remove | intros _].
  apply cycle_outcome_after; [apply keeps_os_remove | intros _].
  intros w. unfold bind.
  pose proof (write_to_postgres_outcome cfg env transactions
                (get_ledgers_dictionary ledgers) file_sequence w) as Hwrite.
  destruct (write_to_postgres cfg env transactions (get_ledgers_dictionary ledgers)
              file_sequence w) as [[[] | e] w1].
  - destruct Hwrite as (inserts & Hstmts & _ & Hdur & _).
    assert (Hcp : stored_checkpoint env (durable w1)
                  = renamed (stored_checkpoint env (durable w)) file_sequence).
    { rewrite Hdur. apply stored_checkpoint_after_file.
      apply (file_statements_are_inserts _ _ _ _ Hstmts). }
    unfold lift. destruct (get_new_file_sequence file_sequence); auto.
  - now left.
Qed.



(** *** The close time of a statement *)

Lemma payment_insert_closes (r : PaymentRow) :
  closes_at (p_closeTime r) (payment_insert r).
Proof.
  exists ("INSERT INTO payments VALUES ('" +:+ p_source r +:+ "','"
          +:+ p_destination r +:+ "'," +:+ pretty (p_amount r) +:+ ","
          +:+ sql_memo (p_memo r) +:+ ",'" +:+ p_txHash r +:+ "',").
  unfold payment_insert. rewrite !append_assoc. reflexivity.
Qed.

Lemma trustline_insert_closes (r : TrustlineRow) :
  closes_at (t_closeTime r) (trustline_insert r).
Proof.
  exists ("INSERT INTO trustlines VALUES ('" +:+ t_source r +:+ "', "
          +:+ sql_memo (t_memo r) +:+ ", '" +:+ t_txHash r +:+ "',").
  unfold trustline_insert. rewrite !append_assoc. reflexivity.
Qed.

Lemma operation_statements_close (cfg : config) (timestamp : option Z)
    (tr : transaction) (op : operation) (l : list string) :
  operation_statements cfg timestamp tr op = Ok l -> Forall (closes_at timestamp) l.
Proof.
  unfold operation_statements. rewrite project_operation_eq.
  destruct (type (body op) =? 1).
  - destruct (paymentOp (body op)) as [payment |]; [| discriminate].
    destruct (is_our_asset cfg (asset payment)) as [[] | e]; [| | discriminate];
      intros [= <-]; repeat constructor.
    apply (payment_insert_closes
             {| p_source := effective_source tr op; p_destination := destination payment;
                p_amount := amount payment; p_memo := memo_text tr; p_txHash := hash tr;
                p_closeTime := timestamp |}).
  - destruct (type (body op) =? 6); [| intros [= <-]; constructor].
    destruct (changeTrustOp (body op)) as [change |]; [| discriminate].
    destruct (is_our_asset cfg (line change)) as [[] | e]; [| | discriminate];
      intros [= <-]; repeat constructor.
    apply (trustline_insert_closes
             {| t_source := effective_source tr op; t_memo := memo_text tr;
                t_txHash := hash tr; t_closeTime := timestamp |}).
Qed.

Lemma operation_statements_same (cfg : config) (timestamp timestamp' : option Z)
    (tr : transaction) (op : operation) :
  same_outcome (operation_statements cfg timestamp tr op)
               (operation_statements cfg timestamp' tr op).
Proof.
  unfold operation_statements. rewrite !project_operation_eq.
  destruct (type (body op) =? 1).
  - destruct (paymentOp (body op)) as [payment |]; [| reflexivity].
    destruct (is_our_asset cfg (asset payment)) as [[] | e]; reflexivity.
  - destruct (type (body op) =? 6); [| reflexivity].
    destruct (changeTrustOp (body op)) as [change |]; [| reflexivity].
    destruct (is_our_asset cfg (line change)) as [[] | e]; reflexivity.
Qed.

Lemma collect_same {A} (f g : A -> result (list string)) (xs : list A) :
  (forall x, same_outcome (f x) (g x)) ->
  same_outcome (collect f xs) (collect g xs).
Proof.
  intros Hfg. induction xs as [| x xs IH]; [reflexivity |].
  cbn [collect]. specialize (Hfg x).
  destruct (f x) as [l1 | e1], (g x) as [l1' | e1']; cbn in Hfg; try contradiction;
    [| exact Hfg].
  destruct (collect f xs) as [l2 | e2], (collect g xs) as [l2' | e2']; cbn in IH |- *;
    try contradiction; [| exact IH].
  rewrite !length_app. congruence.
Qed.

Lemma collect_In {A} (f : A -> result (list string)) (xs : list A) (x : A)
    (l lx : list string) :
  collect f xs = Ok l -> In x xs -> f x = Ok lx -> forall sql, In sql lx -> In sql l.
Proof.
  revert l. induction xs as [| y xs IH]; intros l Hl Hin Hx sql Hsql; [destruct Hin |].
  cbn [collect] in Hl.
  destruct (f y) as [ly |] eqn:Hy; [| discriminate Hl].
  destruct (collect f xs) as [l' |]; [| discriminate Hl].
  injection Hl as <-. apply in_or_app.
  destruct Hin as [-> | Hin].
  - left. rewrite Hx in Hy. injection Hy as <-. exact Hsql.
  - right. exact (IH l' eq_refl Hin Hx sql Hsql).
Qed.

Lemma contains_append (head needle tail : string) :
  Py.contains needle (head +:+ needle +:+ tail) = true.
Proof.
  induction head as [| c head IH].
  - rewrite append_nil.
    pose proof (prefix_append needle tail) as Hp.
    destruct (needle +:+ tail); cbn [Py.contains]; now rewrite Hp.
  - rewrite append_cons. cbn [Py.contains]. rewrite IH. apply orb_true_r.
Qed.

Lemma strict_timestamps_refuse (env : environment) (committed open : list string)
    (sql : string) :
  closes_at_None sql -> db_accepts (strict_timestamps env) committed open sql = false.
Proof.
  intros [head ->]. cbn [strict_timestamps db_accepts].
  change "to_timestamp(None));" with ("to_timestamp(None)" +:+ ");").
  now rewrite contains_append.
Qed.

Lemma first_refused_some (env : environment) (committed : list string) (sql : string)
    (l : list string) :
  In sql l -> (forall open, db_accepts env committed open sql = false) ->
  forall open, exists refused, first_refused env committed open l = Some refused.
Proof.
  intros Hin Hno. induction l as [| s l IH]; intros open; [destruct Hin |].
  cbn [first_refused].
  destruct (db_accepts env committed open s) eqn:Hs; [| now exists s].
  destruct Hin as [-> | Hin]; [now rewrite Hno in Hs | apply (IH Hin)].
Qed.

(** C4, amended: the close time of every statement built for an entry is
    what [dict.get] gives for the ledger sequence of the entry, and a ledger
    sequence that is not in the mapping raises nothing in the projection.
    The statements of such an entry are built or fail exactly as with any
    other mapping; each of them carries [None] as its close time, as
    [to_timestamp(None)]; and they are sent to [cur.execute] one after the
    other like any statements.  So an entry without a matching operation goes
    through untouched, and for an entry with one the run ends only where the
    database refuses the statement: against a database that refuses
    [to_timestamp(None)] the first statement of the entry raises the
    DatabaseError of [cur.execute], and a file with such an entry is not
    committed. *)
Theorem missing_close_time_is_left_to_the_database
    (cfg : config) (env : environment) (ledgers_dictionary : gmap Z Z)
    (entry : transaction_history_entry) (w : world) :
  (forall other_dictionary,
      same_outcome (entry_statements cfg ledgers_dictionary entry)
                   (entry_statements cfg other_dictionary entry))
  /\ (forall stmts,
      entry_statements cfg ledgers_dictionary entry = Ok stmts ->
      Forall (closes_at (ledgers_dictionary !! ledgerSeq entry)) stmts
      /\ write_entry cfg env ledgers_dictionary entry w = send_list env stmts w
      /\ match first_refused env (durable w) (pending w) stmts with
         | None =>
             write_entry cfg env ledgers_dictionary entry w
             = (Ok tt, {| trace := trace w ++ map Execute stmts; files := files w;
                          durable := durable w; pending := pending w ++ stmts |})
         | Some sql =>
             fst (write_entry cfg env ledgers_dictionary entry w)
             = Raise (DatabaseError sql)
             /\ durable (snd (write_entry cfg env ledgers_dictionary entry w)) = durable w
         end
      /\ (ledgers_dictionary !! ledgerSeq entry = None ->
          Forall closes_at_None stmts
          /\ (stmts = [] -> write_entry cfg env ledgers_dictionary entry w = (Ok tt, w))
          /\ (forall sql rest,
                stmts = sql :: rest ->
                write_entry cfg (strict_timestamps env) ledgers_dictionary entry w
                = (Raise (DatabaseError sql), w)
                /\ forall transactions inserts file_name,
                     In entry transactions ->
                     file_statements cfg ledgers_dictionary transactions = Ok inserts ->
                     let run := write_to_postgres cfg (strict_timestamps env) transactions
                                  ledgers_dictionary file_name w in
                     (exists refused, fst run = Raise (DatabaseError refused))
                     /\ durable (snd run) = durable w))).
Proof.
  split.
  - intros other. unfold entry_statements.
    apply collect_same. intros tr. apply collect_same. intros op.
    apply operation_statements_same.
  - intros stmts Hstmts.
    pose proof (write_entry_sends cfg env ledgers_dictionary entry stmts Hstmts w) as Hsend.
    assert (Hclose : Forall (closes_at (ledgers_dictionary !! ledgerSeq entry)) stmts).
    { revert Hstmts. unfold entry_statements.
      apply collect_Forall. intros tr l1.
      apply collect_Forall. intros op l2. apply operation_statements_close. }
    split; [exact Hclose |]. split; [exact Hsend |]. split.
    + rewrite Hsend. apply send_list_run.
    + intros Hmissing. rewrite Hmissing in Hclose.
      split; [exact Hclose |]. split.
      * intros ->. rewrite Hsend. destruct w. reflexivity.
      * intros sql rest ->. apply Forall_cons in Hclose as [Hsql _].
        split.
        -- rewrite (write_entry_sends cfg (strict_timestamps env) ledgers_dictionary
                      entry _ Hstmts w).
           unfold send_list. cbn [for_each]. unfold bind.
           rewrite cur_execute_eq, (strict_timestamps_refuse env _ _ sql Hsql).
           reflexivity.
        -- intros transactions inserts file_name Hin Hfile run. subst run.
           pose proof (write_to_postgres_progress cfg (strict_timestamps env) transactions
                         ledgers_dictionary file_name w inserts Hfile) as Hp.
           cbv zeta in Hp.
           assert (Hmember : In sql (inserts ++ [update_lastfile file_name])).
           { apply in_or_app. left.
             apply (collect_In _ _ entry _ _ Hfile Hin Hstmts). now left. }
           destruct (first_refused_some (strict_timestamps env) (durable w) sql _ Hmember
                       (fun open => strict_timestamps_refuse env _ open sql Hsql)
                       (pending w)) as [refused Hrefused].
           rewrite Hrefused in Hp. destruct Hp as [Hfst Hdur].
           split; [now exists refused | exact Hdur].
Qed.

Lemma missing_close_time_is_left_to_the_database_witness :
  let cfg := example_config "KIN" 2 in
  let env := strict_timestamps (scripted [] [] []) in
  let sql := "INSERT INTO payments VALUES ('GSOURCE','GDEST',1500,NULL,'abcd',to_timestamp(None));" in
  (∅ : gmap Z Z) !! ledgerSeq (example_entry "KIN") = None
  /\ entry_statements cfg ∅ (example_entry "KIN") = Ok [sql]
  /\ write_entry cfg env ∅ (example_entry "KIN") fresh_world
     = (Raise (DatabaseError sql), fresh_world)
  /\ (let run := write_to_postgres cfg env [example_entry "XLM"; example_entry "KIN"]
                   ∅ "004c93bf" fresh_world in
      (exists refused, fst run = Raise (DatabaseError refused))
      /\ durable (snd run) = durable fresh_world).
Proof.
  cbv zeta.
  assert (Hstmts : entry_statements (example_config "KIN" 2) ∅ (example_entry "KIN")
                   = Ok ["INSERT INTO payments VALUES ('GSOURCE','GDEST',1500,NULL,'abcd',to_timestamp(None));"])
    by (vm_compute; reflexivity).
  assert (Hfile : file_statements (example_config "KIN" 2) ∅
                    [example_entry "XLM"; example_entry "KIN"]
                  = Ok ["INSERT INTO payments VALUES ('GSOURCE','GDEST',1500,NULL,'abcd',to_timestamp(None));"])
    by (vm_compute; reflexivity).
  destruct (proj2 (missing_close_time_is_left_to_the_database (example_config "KIN" 2)
                     (scripted [] [] []) ∅ (example_entry "KIN") fresh_world) _ Hstmts)
    as (_ & _ & _ & Hmissing).
  destruct (Hmissing (lookup_empty _)) as (_ & _ & Hstrict).
  destruct (Hstrict _ [] eq_refl) as [Hentry Hrun].
  split; [apply lookup_empty |]. split; [exact Hstmts |]. split; [exact Hentry |].
  exact (Hrun [example_entry "XLM"; example_entry "KIN"] _ "004c93bf"
           (or_intror (or_introl eq_refl)) Hfile).
Defined.

(** C4, as stated, fails: with no ledger in the mapping, the projection of
    an entry with a matching payment raises nothing and gives the INSERT
    with [None] as close time; and a file whose entry has no matching
    operation is written and committed, against a database that refuses
    [to_timestamp(None)]: the missing ledger ends nothing. *)
Lemma missing_close_time_raises_nothing :
  let cfg := example_config "KIN" 2 in
  let d := get_ledgers_dictionary [] in
  d !! ledgerSeq (example_entry "KIN") = None
  /\ entry_statements cfg d (example_entry "KIN")
     = Ok ["INSERT INTO payments VALUES ('GSOURCE','GDEST',1500,NULL,'abcd',to_timestamp(None));"]
  /\ (let run := write_to_postgres cfg (strict_timestamps (scripted [] [] []))
                   [example_entry "XLM"] d "004c93bf" fresh_world in
      fst run = Ok tt
      /\ durable (snd run) = ["UPDATE lastfile SET name = '004c93bf'"]).
Proof. vm_compute. repeat split; reflexivity. Qed.

(** A turn of the loop on the end-to-end example: one ledger closed at 1000,
    one matching payment.  The row and then the checkpoint are committed, and
    the loop carries on with the next name. *)
Example main_cycle_end_to_end :
  let env := with_checkpoint "004c937f"
               (scripted [] [{| header_ledgerSeq := 100; closeTime := 1000 |}]
                         [example_entry "KIN"]) in
  let run := main_cycle (example_config "KIN" 2) env "004c93bf" fresh_world in
  fst run = Ok "004c93ff"
  /\ durable (snd run)
     = ["INSERT INTO payments VALUES ('GSOURCE','GDEST',1500,NULL,'abcd',to_timestamp(1000));";
        "UPDATE lastfile SET name = '004c93bf'"]
  /\ pending (snd run) = []
  /\ stored_checkpoint env (durable fresh_world) = Some "004c937f"
  /\ stored_checkpoint env (durable (snd run)) = Some "004c93bf".
Proof. vm_compute. repeat split; reflexivity. Qed.

(** The same file against a database that refuses the UPDATE: the insert
    was sent, nothing is committed, the checkpoint stays. *)
Example write_to_postgres_update_refused :
  let env := with_checkpoint "004c937f" (refusing "UPDATE" [] [example_entry "KIN"]) in
  let run := write_to_postgres (example_config "KIN" 2) env
               [example_entry "KIN"] {[ 100 := 1000 ]} "004c93bf" fresh_world in
  fst run = Raise (DatabaseError "UPDATE lastfile SET name = '004c93bf'")
  /\ pending (snd run)
     = ["INSERT INTO payments VALUES ('GSOURCE','GDEST',1500,NULL,'abcd',to_timestamp(1000));"]
  /\ durable (snd run) = []
  /\ stored_checkpoint env (durable (process_exit (snd run))) = Some "004c937f".
Proof. vm_compute. repeat split; reflexivity. Qed.

(** On a [lastfile] table without a row the UPDATE stores nothing. *)
Example write_to_postgres_empty_table :
  let env := scripted [] [] [example_entry "KIN"] in
  let run := write_to_postgres (example_config "KIN" 2) env
               [example_entry "KIN"] {[ 100 := 1000 ]} "004c93bf" fresh_world in
  fst run = Ok tt /\ stored_checkpoint env (durable (snd run)) = None.
Proof. vm_compute. split; reflexivity. Qed.

(** ** Further runs *)

(** A ClientError whose code is not a number ends the fetch on the spot:
    [int] raises ValueError inside the handler, before any retry. *)
Example download_file_code_not_a_number :
  let run := download_file (example_config "KIN" 1)
               (scripted [Failed (ClientError "NoSuchKey"); Downloaded] [] [])
               "ledger-004c93bf" fresh_world in
  fst run = Raise ValueError /\ s3_requests (trace (snd run)) = 1%nat.
Proof. vm_compute. split; reflexivity. Qed.

(** A failure that is no ClientError is not caught at all. *)
Example download_file_other_failure :
  let run := download_file (example_config "KIN" 3)
               (scripted [Failed EndpointConnectionError; Downloaded] [] [])
               "ledger-004c93bf" fresh_world in
  fst run = Raise EndpointConnectionError /\ s3_requests (trace (snd run)) = 1%nat.
Proof. vm_compute. split; reflexivity. Qed.

(** With a negative MAX_RETRIES the loop body never runs: nothing is
    requested and nothing is raised. *)
Example download_file_without_attempt :
  download_file (example_config "KIN" (-1)) (scripted [] [] [])
                "ledger-004c93bf" fresh_world
  = (Ok tt, fresh_world).
Proof. vm_compute. reflexivity. Qed.

(** [main] from a database whose checkpoint is 004c93bf, for two turns. *)
Example main_two_cycles :
  let env := with_checkpoint "004c93bf"
               (scripted [] [{| header_ledgerSeq := 100; closeTime := 1000 |}] []) in
  let run := main (example_config "KIN" 2) env 2 fresh_world in
  fst run = Ok "004c943f"
  /\ stored_checkpoint env (durable (snd run)) = Some "004c93ff"
  /\ s3_requests (trace (snd run)) = 4%nat.
Proof. vm_compute. repeat split; reflexivity. Qed.

(** ** More on the retry loop *)

Lemma split_nonempty sep s : exists w ws, Py.split sep s = w :: ws.
Proof.
  induction s as [| c s (w & ws & IH)]; [cbn; eauto |].
  cbn [Py.split]. destruct (Ascii.eqb c sep); [eauto |]. rewrite IH. eauto.
Qed.

Lemma sub_directory_of_kind (kind rest : string) :
  all_chars (differs "-") kind = true ->
  exists sd, sub_directory (kind +:+ String "-" rest) = Ok sd.
Proof.
  intros Hk. unfold sub_directory. rewrite (split_at_first _ _ _ Hk).
  destruct (split_nonempty "-" rest) as (w & ws & ->). cbn [Py.index lookup].
  unfold Py.index. cbn. eauto.
Qed.

(** The segments one attempt can add to the trace, and what the attempt
    does to the rest of the world. *)
Section Fetch.
Context (cfg : config) (env : environment) (file_name sd : string).

Lemma download_attempts_invariant (P : list event -> Prop) :
  P [] ->
  (forall t1 t2, Forall (fun e => e ∈ fetch_events cfg sd file_name) t1 -> P t2 -> P (t1 ++ t2)) ->
  forall n a w,
    n = 0%nat \/ Z.of_nat (a + n) = MAX_RETRIES cfg + 1 ->
    let r := download_attempts cfg env file_name sd (map Z.of_nat (seq a n)) w in
    exists T, trace (snd r) = trace w ++ T /\ P T
      /\ match fst r with
         | Ok _ => (n = 0%nat /\ files (snd r) = files w)
                   \/ files (snd r) = {[local_name file_name]} ∪ files w
         | Raise _ => files (snd r) = files w
         end.
Proof.
  intros Pnil Papp.
  assert (Hreq : Forall (fun e => e ∈ fetch_events cfg sd file_name)
                   (request_events cfg sd file_name)).
  { unfold fetch_events, request_events, backoff_events. cbn [app].
    repeat constructor. }
  assert (Hbo : Forall (fun e => e ∈ fetch_events cfg sd file_name)
                   (backoff_events file_name)).
  { unfold fetch_events, request_events, backoff_events. cbn [app].
    repeat constructor. }
  assert (Hlim : retry_limit_event file_name ∈ fetch_events cfg sd file_name).
  { unfold fetch_events, request_events, backoff_events. cbn [app].
    repeat constructor. }
  assert (Hdl : downloaded_event file_name ∈ fetch_events cfg sd file_name).
  { unfold fetch_events, request_events, backoff_events. cbn [app].
    repeat constructor. }
  assert (Pseg : forall t, Forall (fun e => e ∈ fetch_events cfg sd file_name) t -> P t).
  { intros t Ht. rewrite <- (app_nil_r t). apply Papp; assumption. }
  induction n as [| n IH]; intros a w Hinv r.
  { exists []. subst r. cbn. rewrite app_nil_r. auto. }
  destruct Hinv as [Hinv | Hinv]; [discriminate Hinv |].
  subst r. cbn [seq map]. rewrite attempt_unfold.
  destruct (next_reply cfg env sd file_name w) as [| e].
  - eexists. cbn [fst snd trace files]. split; [reflexivity |]. split; [| now right].
    apply Pseg, Forall_app. split; [exact Hreq | now constructor].
  - assert (Hplain : exists T,
        trace (extend w (request_events cfg sd file_name)) = trace w ++ T /\ P T
        /\ files (extend w (request_events cfg sd file_name)) = files w).
    { eexists. cbn [extend trace files]. split; [reflexivity |].
      split; [apply Pseg, Hreq | reflexivity]. }
    destruct e as [| | | | | code | | statement]; try exact Hplain.
    destruct (Z.eqb_spec (Z.of_nat a) (MAX_RETRIES cfg)) as [Hfinal | Hearly].
    + eexists. cbn [fst snd extend trace files]. split; [reflexivity |].
      split; [| reflexivity].
      apply Pseg, Forall_app. split; [exact Hreq | now constructor].
    + destruct (Py.int code 10) as [error_code | e']; [| exact Hplain].
      set (seg := request_events cfg sd file_name
                  ++ (if error_code =? 404 then backoff_events file_name else [])).
      destruct (IH (S a) (extend w seg)) as (T & Htr & HP & Hfiles); [right; lia |].
      exists (seg ++ T). rewrite Htr. cbn [extend trace]. rewrite <- app_assoc.
      split; [reflexivity |]. split.
      * apply Papp; [| exact HP]. subst seg. apply Forall_app. split; [exact Hreq |].
        destruct (error_code =? 404); [exact Hbo | constructor].
      * cbn [extend files] in Hfiles.
        destruct (fst (download_attempts cfg env file_name sd
                         (map Z.of_nat (seq (S a) n)) (extend w seg))).
        -- destruct Hfiles as [[-> _] | Hf]; [exfalso; lia | now right].
        -- exact Hfiles.
Qed.

(** The same for a whole fetch. *)
Lemma download_file_invariant (P : list event -> Prop) (w : world) :
  sub_directory file_name = Ok sd ->
  P [] ->
  (forall t1 t2, Forall (fun e => e ∈ fetch_events cfg sd file_name) t1 -> P t2 -> P (t1 ++ t2)) ->
  let r := download_file cfg env file_name w in
  exists T, trace (snd r) = trace w ++ T /\ P T
    /\ match fst r with
       | Ok _ => (MAX_RETRIES cfg < 0 /\ files (snd r) = files w)
                 \/ files (snd r) = {[local_name file_name]} ∪ files w
       | Raise _ => files (snd r) = files w
       end.
Proof.
  intros Hsd Pnil Papp r. subst r. unfold download_file, bind, lift. rewrite Hsd.
  unfold Py.range.
  destruct (download_attempts_invariant P Pnil Papp (Z.to_nat (MAX_RETRIES cfg + 1)) 0 w)
    as (T & Htr & HP & Hfiles).
  { destruct (Z.to_nat (MAX_RETRIES cfg + 1)) eqn:E; [now left | right; lia]. }
  exists T. split; [exact Htr |]. split; [exact HP |].
  destruct (fst (download_attempts cfg env file_name sd
                   (map Z.of_nat (seq 0 (Z.to_nat (MAX_RETRIES cfg + 1)))) w)).
  - destruct Hfiles as [[Hn Hf] | Hf]; [left; split; [lia | exact Hf] | now right].
  - exact Hfiles.
Qed.
End Fetch.

Lemma sleep_seconds_180 (t : list event) :
  sleeps_are_180 t = true -> sleep_seconds t = 180 * Z.of_nat (sleeps t).
Proof.
  induction t as [| e t IH]; [reflexivity |].
  unfold sleeps_are_180. cbn [forallb]. intros [He Ht]%andb_true_iff.
  specialize (IH Ht). unfold sleeps in *.
  destruct e; cbn [sleep_seconds List.filter is_sleep length]; try exact IH.
  apply Z.eqb_eq in He. subst. rewrite IH. lia.
Qed.

Lemma backoffs_due_bound (cfg : config) (env : environment) (key : string) :
  forall count attempt request,
    Z.of_nat (backoffs_due cfg env key attempt request count)
    <= Z.max 0 (MAX_RETRIES cfg - Z.of_nat attempt).
Proof.
  induction count as [| count IH]; intros attempt request; cbn [backoffs_due]; [lia |].
  specialize (IH (S attempt) (S request)).
  destruct (Z.ltb_spec (Z.of_nat attempt) (MAX_RETRIES cfg)) as [Hlt | Hge];
    cbn [andb]; [destruct (not_found _) |]; lia.
Qed.

(** X1.  Whatever the bucket answers, one fetch sleeps at most
    180 * MAX_RETRIES seconds in all and sends at most MAX_RETRIES + 1
    requests; with a negative MAX_RETRIES it does neither. *)
Theorem download_file_waits_at_most (cfg : config) (env : environment)
    (file_name : string) (w : world) :
  exists T,
    trace (snd (download_file cfg env file_name w)) = trace w ++ T
    /\ sleep_seconds T <= 180 * Z.max 0 (MAX_RETRIES cfg)
    /\ Z.of_nat (s3_requests T) <= Z.max 0 (MAX_RETRIES cfg + 1).
Proof.
  destruct (sub_directory file_name) as [sd | e] eqn:Hsd.
  - destruct (download_file_run cfg env file_name sd w Hsd)
      as (T & Htr & _ & _ & Hreq & Hsl & H180).
    exists T. split; [exact Htr |]. split; [| lia].
    rewrite (sleep_seconds_180 T H180), Hsl.
    pose proof (backoffs_due_bound cfg env (object_key cfg sd file_name)
                  (s3_requests T) 0 (s3_requests (trace w))) as Hb.
    cbn in Hb. lia.
  - exists []. unfold download_file, bind, lift. rewrite Hsd. cbn.
    rewrite app_nil_r. split; [reflexivity | lia].
Qed.

(** X2.  A fetch only logs, requests and sleeps: every request it sends is
    for the same bucket, the same key CORE_DIRECTORY + directory + name +
    .xdr.gz and the same local name; it executes no SQL statement, commits
    nothing and removes no file, and the database is as before. *)
Theorem download_file_requests_one_object (cfg : config) (env : environment)
    (file_name sd : string) (w : world)
    (Hsd : sub_directory file_name = Ok sd) :
  let w' := snd (download_file cfg env file_name w) in
  exists T,
    trace w' = trace w ++ T
    /\ (forall bucket key filename,
          S3Download bucket key filename ∈ T ->
          bucket = BUCKET_NAME cfg
          /\ key = CORE_DIRECTORY cfg +:+ sd +:+ file_name +:+ ".xdr.gz"
          /\ filename = file_name +:+ ".xdr.gz")
    /\ (forall sql, Execute sql ∉ T) /\ (Commit ∉ T) /\ (forall path, Remove path ∉ T)
    /\ durable w' = durable w /\ pending w' = pending w.
Proof.
  intros w'. subst w'.
  destruct (download_file_invariant cfg env file_name sd
              (Forall (fun e => e ∈ fetch_events cfg sd file_name)) w Hsd)
    as (T & Htr & HT & _).
  { constructor. }
  { intros t1 t2 H1 H2. apply Forall_app. split; assumption. }
  destruct (keeps_download_file cfg env file_name w) as [Hdur Hpen].
  exists T. split; [exact Htr |].
  rewrite Forall_forall in HT.
  assert (Hin : forall e, e ∈ T ->
            e = Log INFO ("Trying to download file " +:+ file_name +:+ ".xdr.gz")
            \/ e = S3Download (BUCKET_NAME cfg) (object_key cfg sd file_name)
                     (local_name file_name)
            \/ e = Log WARNING ("404, could not get file " +:+ file_name
                                +:+ ", retrying in 3 minutes")
            \/ e = Sleep 180
            \/ e = retry_limit_event file_name
            \/ e = downloaded_event file_name).
  { intros e He. specialize (HT e He).
    unfold fetch_events, request_events, backoff_events in HT. cbn [app] in HT.
    repeat (apply elem_of_cons in HT as [HT | HT]; [tauto |]).
    apply elem_of_nil in HT. contradiction. }
  repeat split; try assumption.
  - destruct (Hin _ H) as [E | [E | [E | [E | [E | E]]]]]; try discriminate E.
    now injection E.
  - destruct (Hin _ H) as [E | [E | [E | [E | [E | E]]]]]; try discriminate E.
    now injection E.
  - destruct (Hin _ H) as [E | [E | [E | [E | [E | E]]]]]; try discriminate E.
    now injection E.
  - intros sql H. destruct (Hin _ H) as [E | [E | [E | [E | [E | E]]]]]; discriminate E.
  - intros H. destruct (Hin _ H) as [E | [E | [E | [E | [E | E]]]]]; discriminate E.
  - intros path H. destruct (Hin _ H) as [E | [E | [E | [E | [E | E]]]]]; discriminate E.
Qed.

Lemma download_file_requests_one_object_witness :
  let w' := snd (download_file (example_config "KIN" 2)
                   (scripted [Failed (ClientError "404"); Downloaded] [] [])
                   "ledger-004c93bf" fresh_world) in
  exists T,
    trace w' = trace fresh_world ++ T
    /\ (forall bucket key filename,
          S3Download bucket key filename ∈ T ->
          bucket = "stellar-core"
          /\ key = "" +:+ "ledger/00/4c/93/" +:+ "ledger-004c93bf" +:+ ".xdr.gz"
          /\ filename = "ledger-004c93bf" +:+ ".xdr.gz")
    /\ (forall sql, Execute sql ∉ T) /\ (Commit ∉ T) /\ (forall path, Remove path ∉ T)
    /\ durable w' = durable fresh_world /\ pending w' = pending fresh_world.
Proof.
  apply (download_file_requests_one_object (example_config "KIN" 2)
           (scripted [Failed (ClientError "404"); Downloaded] [] [])
           "ledger-004c93bf" "ledger/00/4c/93/" fresh_world eq_refl).
Defined.

(** X3.  After a fetch that returns, the local file is in the working
    directory, unless MAX_RETRIES is negative: then the fetch returns without
    having asked for anything and the directory is as before.  After a fetch
    that raises, the directory is as before. *)
Theorem download_file_leaves_the_file (cfg : config) (env : environment)
    (file_name : string) (w : world) :
  let r := download_file cfg env file_name w in
  match fst r with
  | Ok _ =>
      files (snd r) = if MAX_RETRIES cfg <? 0 then files w
                      else {[file_name +:+ ".xdr.gz"]} ∪ files w
  | Raise _ => files (snd r) = files w
  end.
Proof.
  intros r. subst r.
  destruct (sub_directory file_name) as [sd | e] eqn:Hsd.
  - destruct (download_file_invariant cfg env file_name sd (fun _ => True) w Hsd I
                ltac:(auto)) as (T & _ & _ & Hfiles).
    destruct (fst (download_file cfg env file_name w)) eqn:Hres; [| exact Hfiles].
    destruct (Z.ltb_spec (MAX_RETRIES cfg) 0) as [Hneg | Hpos].
    + destruct Hfiles as [[_ Hf] | Hf]; [exact Hf |].
      (* a negative budget makes no attempt *)
      unfold download_file, bind, lift in Hf |- *. rewrite Hsd in Hf |- *.
      unfold Py.range in *. replace (Z.to_nat (MAX_RETRIES cfg + 1)) with O in * by lia.
      reflexivity.
    + destruct Hfiles as [[Hneg _] | Hf]; [lia | exact Hf].
  - unfold download_file, bind, lift. rewrite Hsd. reflexivity.
Qed.

(** X4.  On an attempt before the final one, a ClientError whose code does
    not read as an integer ends the fetch at once: the ValueError of [int]
    leaves the handler, nothing is logged after the request and no further
    attempt is made.  On the final attempt the code is never read: the
    ClientError itself is raised. *)
Theorem unreadable_code_ends_the_fetch (cfg : config) (env : environment)
    (file_name sd : string) (w : world) (attempt : Z) (rest : list Z) (code : string)
    (Hreply : next_reply cfg env sd file_name w = Failed (ClientError code))
    (Hcode : Py.int code 10 = Raise ValueError) :
  download_attempts cfg env file_name sd (attempt :: rest) w
  = if attempt =? MAX_RETRIES cfg
    then (Raise (ClientError code),
          extend w (request_events cfg sd file_name ++ [retry_limit_event file_name]))
    else (Raise ValueError, extend w (request_events cfg sd file_name)).
Proof. rewrite attempt_unfold, Hreply, Hcode. reflexivity. Qed.

Lemma unreadable_code_ends_the_fetch_witness :
  let cfg := example_config "KIN" 3 in
  let env := scripted [Failed (ClientError "NoSuchKey"); Downloaded] [] [] in
  download_attempts cfg env "ledger-004c93bf" "ledger/00/4c/93/" [0; 1; 2; 3] fresh_world
  = (Raise ValueError,
     extend fresh_world (request_events cfg "ledger/00/4c/93/" "ledger-004c93bf")).
Proof.
  intros cfg env.
  apply (unreadable_code_ends_the_fetch cfg env "ledger-004c93bf" "ledger/00/4c/93/"
           fresh_world 0 [1; 2; 3] "NoSuchKey" eq_refl eq_refl).
Defined.

(** X5.  A failure of the download that is no ClientError is never retried:
    on any attempt it leaves the fetch as it is, after the request and with
    no sleep. *)
Theorem other_failures_are_not_caught (cfg : config) (env : environment)
    (file_name sd : string) (w : world) (attempt : Z) (rest : list Z) (e : exn)
    (Hreply : next_reply cfg env sd file_name w = Failed e)
    (Hother : forall code, e <> ClientError code) :
  download_attempts cfg env file_name sd (attempt :: rest) w
  = (Raise e, extend w (request_events cfg sd file_name)).
Proof.
  rewrite attempt_unfold, Hreply.
  destruct e as [| | | | | code | | statement]; try reflexivity.
  now destruct (Hother code).
Qed.

Lemma other_failures_are_not_caught_witness :
  let cfg := example_config "KIN" 3 in
  let env := scripted [Failed EndpointConnectionError; Downloaded] [] [] in
  download_attempts cfg env "ledger-004c93bf" "ledger/00/4c/93/" [0; 1; 2; 3] fresh_world
  = (Raise EndpointConnectionError,
     extend fresh_world (request_events cfg "ledger/00/4c/93/" "ledger-004c93bf")).
Proof.
  intros cfg env.
  apply (other_failures_are_not_caught cfg env "ledger-004c93bf" "ledger/00/4c/93/"
           fresh_world 0 [1; 2; 3] EndpointConnectionError eq_refl).
  discriminate.
Defined.

(** X6.  A file name without a dash has no number part: the fetch raises
    IndexError before anything is logged or requested.  The names the main
    loop builds, ledger-... and transactions-..., always have one, whatever
    the file sequence is. *)
Theorem download_file_needs_a_dash (cfg : config) (env : environment) (w : world) :
  (forall file_name,
      all_chars (differs "-") file_name = true ->
      download_file cfg env file_name w = (Raise IndexError, w))
  /\ (forall file_sequence,
      exists ledger_directory transactions_directory,
        sub_directory ("ledger-" +:+ file_sequence) = Ok ledger_directory
        /\ sub_directory ("transactions-" +:+ file_sequence) = Ok transactions_directory).
Proof.
  split.
  - intros file_name Hno. unfold download_file, bind, lift, sub_directory.
    rewrite (split_none _ _ Hno). reflexivity.
  - intros file_sequence.
    destruct (sub_directory_of_kind "ledger" file_sequence eq_refl) as (d1 & H1).
    destruct (sub_directory_of_kind "transactions" file_sequence eq_refl) as (d2 & H2).
    exists d1, d2. split; assumption.
Qed.

Lemma download_file_needs_a_dash_witness :
  download_file (example_config "KIN" 2) (scripted [] [] []) "ledger" fresh_world
  = (Raise IndexError, fresh_world).
Proof.
  apply (proj1 (download_file_needs_a_dash (example_config "KIN" 2) (scripted [] [] [])
                  fresh_world) "ledger" eq_refl).
Defined.

(** ** More on the projector *)

Lemma fold_ledgers_other (ledgers : list ledger) (seq : Z) : forall d : gmap Z Z,
  Forall (fun l => header_ledgerSeq l <> seq) ledgers ->
  fold_left (fun d l => <[header_ledgerSeq l := closeTime l]> d) ledgers d !! seq
  = d !! seq.
Proof.
  induction ledgers as [| l ledgers IH]; intros d Hall; [reflexivity |].
  apply Forall_cons in Hall as [Hl Hall]. cbn [fold_left].
  rewrite (IH _ Hall). now apply lookup_insert_ne.
Qed.

(** X7.  In the mapping built from the ledgers of a file, a sequence number
    that no ledger carries is absent, and a sequence number carried by
    several ledgers maps to the close time of the last of them. *)
Theorem get_ledgers_dictionary_lookup (ledgers : list ledger) :
  (forall seq,
      Forall (fun l => header_ledgerSeq l <> seq) ledgers ->
      get_ledgers_dictionary ledgers !! seq = None)
  /\ (forall before l after,
      ledgers = before ++ l :: after ->
      Forall (fun l' => header_ledgerSeq l' <> header_ledgerSeq l) after ->
      get_ledgers_dictionary ledgers !! header_ledgerSeq l = Some (closeTime l)).
Proof.
  unfold get_ledgers_dictionary. split.
  - intros seq Hall. rewrite (fold_ledgers_other _ _ _ Hall). apply lookup_empty.
  - intros before l after -> Hafter.
    rewrite fold_left_app. cbn [fold_left].
    rewrite (fold_ledgers_other _ _ _ Hafter). apply lookup_insert_eq.
Qed.

Lemma get_ledgers_dictionary_lookup_witness :
  get_ledgers_dictionary [{| header_ledgerSeq := 100; closeTime := 1000 |};
                          {| header_ledgerSeq := 101; closeTime := 1005 |};
                          {| header_ledgerSeq := 100; closeTime := 1010 |}] !! 100
  = Some 1010
  /\ get_ledgers_dictionary [{| header_ledgerSeq := 100; closeTime := 1000 |}] !! 7 = None.
Proof.
  split.
  - apply (proj2 (get_ledgers_dictionary_lookup _)
             [{| header_ledgerSeq := 100; closeTime := 1000 |};
              {| header_ledgerSeq := 101; closeTime := 1005 |}]
             {| header_ledgerSeq := 100; closeTime := 1010 |} [] eq_refl).
    constructor.
  - apply (proj1 (get_ledgers_dictionary_lookup _) 7).
    repeat constructor. discriminate.
Defined.

(** X8.  Nothing is written for an operation that is neither a Payment nor a
    ChangeTrust, nor for a Payment or ChangeTrust whose asset entry under
    ASSET_TYPE is None or carries another code or another issuer: the world
    is left exactly as it was, and the comparison of code and issuer is
    exact. *)
Theorem other_operations_write_nothing (cfg : config) (env : environment)
    (timestamp : option Z) (tr : transaction) (memo : option string)
    (tx_hash : string) (op : operation) (w : world) :
  (type (body op) <> 1 -> type (body op) <> 6 ->
     write_operation cfg env timestamp tr memo tx_hash op w = (Ok tt, w))
  /\ (forall payment,
        type (body op) = 1 -> paymentOp (body op) = Some payment ->
        asset payment !! ASSET_TYPE cfg = Some None
        \/ (exists entry, asset payment !! ASSET_TYPE cfg = Some (Some entry)
              /\ (assetCode entry <> ASSET_CODE cfg \/ issuer entry <> ASSET_ISSUER cfg)) ->
        write_operation cfg env timestamp tr memo tx_hash op w = (Ok tt, w))
  /\ (forall change,
        type (body op) = 6 -> changeTrustOp (body op) = Some change ->
        line change !! ASSET_TYPE cfg = Some None
        \/ (exists entry, line change !! ASSET_TYPE cfg = Some (Some entry)
              /\ (assetCode entry <> ASSET_CODE cfg \/ issuer entry <> ASSET_ISSUER cfg)) ->
        write_operation cfg env timestamp tr memo tx_hash op w = (Ok tt, w)).
Proof.
  assert (Hforeign : forall a : gmap string (option alpha_num),
            a !! ASSET_TYPE cfg = Some None
            \/ (exists entry, a !! ASSET_TYPE cfg = Some (Some entry)
                  /\ (assetCode entry <> ASSET_CODE cfg \/ issuer entry <> ASSET_ISSUER cfg)) ->
            is_our_asset cfg a = Ok false).
  { intros a [Hnone | (entry & Hsome & Hdiff)]; unfold is_our_asset, Py.getitem.
    - now rewrite Hnone.
    - rewrite Hsome. f_equal. apply andb_false_iff.
      destruct Hdiff as [Hd | Hd]; [left | right]; now apply String.eqb_neq. }
  unfold write_operation, project_operation, bind, lift.
  split; [| split].
  - intros H1 H6.
    replace (type (body op) =? 1) with false by (symmetry; now apply Z.eqb_neq).
    replace (type (body op) =? 6) with false by (symmetry; now apply Z.eqb_neq).
    reflexivity.
  - intros payment Htype Hpay Hasset.
    rewrite Htype, Hpay, (Hforeign _ Hasset). reflexivity.
  - intros change Htype Hchange Hasset.
    rewrite Htype, Hchange, (Hforeign _ Hasset). reflexivity.
Qed.

Lemma other_operations_write_nothing_witness :
  write_operation (example_config "XLM" 2) (scripted [] [] []) (Some 1000)
    (example_transaction "KIN") None "abcd" (example_payment "KIN") fresh_world
  = (Ok tt, fresh_world).
Proof.
  apply (proj1 (proj2 (other_operations_write_nothing (example_config "XLM" 2)
                         (scripted [] [] []) (Some 1000) (example_transaction "KIN")
                         None "abcd" (example_payment "KIN") fresh_world))
               {| asset := example_asset "KIN"; destination := "GDEST"; amount := 1500 |}
               eq_refl eq_refl).
  right. exists {| assetCode := "KIN"; issuer := "GISSUER" |}.
  split; [reflexivity | left; discriminate].
Defined.

(** X9.  A Payment without a paymentOp, a ChangeTrust without a changeTrustOp,
    and an asset dictionary without an entry under ASSET_TYPE raise KeyError
    and leave the world as it was.  The last case is that of every asset
    whose keys are alphaNum4 and alphaNum12 once the configured code has more
    than 4 characters, since ASSET_TYPE is then 12. *)
Theorem missing_keys_raise_KeyError (cfg : config) (env : environment)
    (timestamp : option Z) (tr : transaction) (memo : option string)
    (tx_hash : string) (op : operation) (w : world) :
  (type (body op) = 1 -> paymentOp (body op) = None ->
     write_operation cfg env timestamp tr memo tx_hash op w = (Raise KeyError, w))
  /\ (type (body op) = 6 -> changeTrustOp (body op) = None ->
     write_operation cfg env timestamp tr memo tx_hash op w = (Raise KeyError, w))
  /\ (forall payment,
        type (body op) = 1 -> paymentOp (body op) = Some payment ->
        asset payment !! ASSET_TYPE cfg = None ->
        write_operation cfg env timestamp tr memo tx_hash op w = (Raise KeyError, w))
  /\ (forall payment,
        type (body op) = 1 -> paymentOp (body op) = Some payment ->
        (4 < String.length (ASSET_CODE cfg))%nat ->
        dom (asset payment) ⊆ {["alphaNum4"; "alphaNum12"]} ->
        write_operation cfg env timestamp tr memo tx_hash op w = (Raise KeyError, w)).
Proof.
  assert (Hkey : forall payment,
            type (body op) = 1 -> paymentOp (body op) = Some payment ->
            asset payment !! ASSET_TYPE cfg = None ->
            write_operation cfg env timestamp tr memo tx_hash op w = (Raise KeyError, w)).
  { intros payment Htype Hpay Hnone.
    unfold write_operation, project_operation, bind, lift, is_our_asset, Py.getitem.
    now rewrite Htype, Hpay, Hnone. }
  split; [| split; [| split]].
  - intros Htype Hpay. unfold write_operation, project_operation, bind, lift.
    now rewrite Htype, Hpay.
  - intros Htype Hchange. unfold write_operation, project_operation, bind, lift.
    now rewrite Htype, Hchange.
  - exact Hkey.
  - intros payment Htype Hpay Hlong Hdom. apply (Hkey payment Htype Hpay).
    rewrite (ASSET_TYPE_long cfg Hlong). apply not_elem_of_dom.
    intros Hin. apply Hdom in Hin.
    apply elem_of_union in Hin as [Hin | Hin]; apply elem_of_singleton in Hin;
      discriminate Hin.
Qed.

Lemma missing_keys_raise_KeyError_witness :
  write_operation (example_config "KINKIN" 2) (scripted [] [] []) (Some 1000)
    (example_transaction "KINKIN") None "abcd" (example_payment "KINKIN") fresh_world
  = (Raise KeyError, fresh_world).
Proof.
  apply (proj1 (proj2 (proj2 (missing_keys_raise_KeyError (example_config "KINKIN" 2)
                         (scripted [] [] []) (Some 1000) (example_transaction "KINKIN")
                         None "abcd" (example_payment "KINKIN") fresh_world)))
               {| asset := example_asset "KINKIN"; destination := "GDEST"; amount := 1500 |}
               eq_refl eq_refl).
  vm_compute. reflexivity.
Defined.

(** ** More on the transaction and the checkpoint *)

Lemma decided_for_each {A} (f : A -> result (list string)) (loop_body : A -> M unit)
    (xs : list A) :
  (forall x, decided_by (loop_body x) (f x)) ->
  decided_by (for_each xs loop_body) (collect f xs).
Proof.
  intros Hbody. induction xs as [| x xs IH]; intros w; [reflexivity |].
  cbn [for_each collect]. unfold bind.
  specialize (Hbody x w). destruct (loop_body x w) as [[[] | e] w1]; cbn [fst] in Hbody.
  - destruct (f x) as [l | e]; [| discriminate Hbody].
    specialize (IH w1). destruct (for_each xs loop_body w1) as [r w2]. cbn [fst] in IH |- *.
    rewrite IH. destruct (collect f xs); reflexivity.
  - destruct (f x) as [l | e']; [discriminate Hbody |]. exact Hbody.
Qed.

Lemma decided_write_entry (cfg : config) (env : environment)
    (ledgers_dictionary : gmap Z Z) (entry : transaction_history_entry) :
  accepting env ->
  decided_by (write_entry cfg env ledgers_dictionary entry)
             (entry_statements cfg ledgers_dictionary entry).
Proof.
  intros [Hacc _]. unfold write_entry, entry_statements.
  apply decided_for_each. intros tr. apply decided_for_each. intros op w.
  unfold write_operation, operation_statements, bind, lift.
  destruct (project_operation _ _ _ _ _ _) as [[sql |] | e]; try reflexivity.
  unfold cur_execute. now rewrite Hacc.
Qed.

Lemma get_last_file_sequence_accepted (env : environment) (w : world) :
  accepting env ->
  get_last_file_sequence env w
  = (match stored_checkpoint env (durable w ++ pending w) with
     | Some last_file => Ok last_file
     | None => Raise TypeError
     end,
     {| trace := trace w ++ [Execute "select * from lastfile;"; Commit];
        files := files w;
        durable := durable w ++ pending w ++ ["select * from lastfile;"];
        pending := [] |}).
Proof.
  intros [Hacc Hcom]. unfold get_last_file_sequence, bind, cur_execute, conn_commit.
  rewrite Hacc. cbn [durable pending trace files]. rewrite Hcom.
  cbn [durable pending trace files].
  rewrite (app_assoc (durable w)), (stored_checkpoint_app env (durable w ++ pending w)).
  rewrite (apply_unrelated ["select * from lastfile;"])
    by (repeat constructor).
  rewrite <- !app_assoc.
  destruct (stored_checkpoint env (durable w ++ pending w)); reflexivity.
Qed.

(** X10.  Against a database that accepts every statement and every commit,
    [write_to_postgres] raises exactly when the projection of the file
    raises, with the same exception, and returns otherwise; a file without
    any matching operation is committed as the checkpoint update alone. *)
Theorem write_to_postgres_when_accepted (cfg : config) (env : environment)
    (transactions : list transaction_history_entry) (ledgers_dictionary : gmap Z Z)
    (file_name : string) (w : world) (Hacc : accepting env) :
  let run := write_to_postgres cfg env transactions ledgers_dictionary file_name w in
  fst run = match file_statements cfg ledgers_dictionary transactions with
            | Ok _ => Ok tt
            | Raise e => Raise e
            end
  /\ (file_statements cfg ledgers_dictionary transactions = Ok [] ->
      durable (snd run) = durable w ++ pending w ++ [update_lastfile file_name]).
Proof.
  intros run. subst run.
  pose proof (write_to_postgres_outcome cfg env transactions ledgers_dictionary
                file_name w) as Hout.
  assert (Hfst : fst (write_to_postgres cfg env transactions ledgers_dictionary file_name w)
                 = match file_statements cfg ledgers_dictionary transactions with
                   | Ok _ => Ok tt
                   | Raise e => Raise e
                   end).
  { unfold write_to_postgres. unfold bind at 1.
    rewrite (logging_run _ _ _ ("Writing contents of file: " +:+ file_name +:+ " to database"))
      by reflexivity.
    unfold bind at 1.
    pose proof (decided_for_each _ _ transactions
                  (fun entry => decided_write_entry cfg env ledgers_dictionary entry Hacc)
                  (extend w [Log INFO ("Writing contents of file: " +:+ file_name
                                       +:+ " to database")])) as Hloop.
    fold (file_statements cfg ledgers_dictionary transactions) in Hloop.
    destruct (for_each transactions (write_entry cfg env ledgers_dictionary) _)
      as [[[] | e] w1]; cbn [fst] in Hloop.
    - destruct (file_statements cfg ledgers_dictionary transactions);
        [| discriminate Hloop].
      destruct Hacc as [Ha Hc].
      unfold bind at 1. unfold lift. rewrite format_update.
      unfold bind at 1. unfold cur_execute. rewrite Ha.
      unfold bind at 1. unfold conn_commit. cbn [durable pending]. rewrite Hc.
      unfold logging, bind, lift, emit. reflexivity.
    - exact Hloop. }
  split; [exact Hfst |].
  intros Hnone. rewrite Hnone in Hfst.
  destruct (write_to_postgres cfg env transactions ledgers_dictionary file_name w)
    as [[[] | e] w']; [| discriminate Hfst].
  destruct Hout as (inserts & Hstmts & _ & Hdur & _).
  rewrite Hnone in Hstmts. injection Hstmts as <-. exact Hdur.
Qed.

Lemma scripted_accepting replies ledgers transactions :
  accepting (scripted replies ledgers transactions).
Proof. split; reflexivity. Defined.

Lemma with_checkpoint_accepting (name : string) (env : environment) :
  accepting env -> accepting (with_checkpoint name env).
Proof. intros [Ha Hc]. split; [exact Ha | exact Hc]. Defined.

Lemma write_to_postgres_when_accepted_witness :
  let run := write_to_postgres (example_config "XLM" 2) (scripted [] [] [])
               [example_entry "KIN"] {[ 100 := 1000 ]} "004c93bf" fresh_world in
  file_statements (example_config "XLM" 2) {[ 100 := 1000 ]} [example_entry "KIN"] = Ok []
  /\ fst run = Ok tt
  /\ durable (snd run) = [update_lastfile "004c93bf"].
Proof.
  assert (Hnone : file_statements (example_config "XLM" 2) {[ 100 := 1000 ]}
                    [example_entry "KIN"] = Ok [])
    by (vm_compute; reflexivity).
  destruct (write_to_postgres_when_accepted (example_config "XLM" 2) (scripted [] [] [])
              [example_entry "KIN"] {[ 100 := 1000 ]} "004c93bf" fresh_world
              (scripted_accepting [] [] [])) as [Hfst Hdur].
  split; [exact Hnone |]. split.
  - rewrite Hfst, Hnone. reflexivity.
  - exact (Hdur Hnone).
Defined.

(** X11.  When the [lastfile] table holds its row, what [write_to_postgres]
    stores, [get_last_file_sequence] reads back: after a write of
    [file_name] that returned, the next start of the process resumes at
    [file_name], the file that was just written. *)
Theorem checkpoint_round_trip (cfg : config) (env : environment)
    (transactions : list transaction_history_entry) (ledgers_dictionary : gmap Z Z)
    (file_name previous : string) (w : world) (Hacc : accepting env)
    (Hrow : stored_checkpoint env (durable w) = Some previous) :
  let run := write_to_postgres cfg env transactions ledgers_dictionary file_name w in
  fst run = Ok tt ->
  fst (get_last_file_sequence env (process_exit (snd run))) = Ok file_name.
Proof.
  intros run Hok. subst run.
  pose proof (write_to_postgres_outcome cfg env transactions ledgers_dictionary
                file_name w) as Hout.
  destruct (write_to_postgres cfg env transactions ledgers_dictionary file_name w)
    as [[[] | e] w']; [| discriminate Hok].
  destruct Hout as (inserts & Hstmts & _ & Hdur & _).
  rewrite (get_last_file_sequence_accepted env _ Hacc).
  cbn [fst snd process_exit durable pending]. rewrite app_nil_r, Hdur.
  rewrite (stored_checkpoint_after_file env _ _ _ _
             (file_statements_are_inserts _ _ _ _ Hstmts)), Hrow.
  reflexivity.
Qed.

Lemma checkpoint_round_trip_witness :
  let env := with_checkpoint "004c937f" (scripted [] [] []) in
  stored_checkpoint env (durable fresh_world) = Some "004c937f"
  /\ fst (get_last_file_sequence env
            (process_exit (snd (write_to_postgres (example_config "KIN" 2) env
                                  [example_entry "KIN"] {[ 100 := 1000 ]} "004c93bf"
                                  fresh_world))))
     = Ok "004c93bf".
Proof.
  split; [reflexivity |].
  apply (checkpoint_round_trip (example_config "KIN" 2)
           (with_checkpoint "004c937f" (scripted [] [] []))
           [example_entry "KIN"] {[ 100 := 1000 ]} "004c93bf" "004c937f" fresh_world
           (with_checkpoint_accepting _ _ (scripted_accepting [] [] [])) eq_refl).
  vm_compute. reflexivity.
Defined.



(** ** More on the cursor and the main loop *)

Lemma next_of_hex (s : string) :
  s <> "" -> all_chars is_hex s = true ->
  exists r, get_new_file_sequence s = Ok r
    /\ r <> "" /\ all_chars is_hex r = true
    /\ hex_value r = hex_value s + 64
    /\ is_file_id r = (hex_value s + 64 <? 2 ^ 32).
Proof.
  intros Hne Hall.
  destruct (next_shape s Hne Hall) as (r & Hr & Hl & Hval & Hsmall & Hbig).
  exists r. split; [exact Hr |].
  assert (Hlen : (8 <= String.length r)%nat).
  { destruct (Z.lt_ge_cases (hex_value s + 64) (16 ^ 8)) as [H | H].
    - rewrite (Hsmall H). lia.
    - destruct (Hbig H). lia. }
  split; [intros ->; cbn in Hlen; lia |].
  split; [eapply all_chars_impl; [apply lower_hex_is_hex | exact Hl] |].
  split; [exact Hval |].
  change (2 ^ 32) with (16 ^ 8). unfold is_file_id. rewrite Hl, andb_true_r.
  destruct (Z.ltb_spec (hex_value s + 64) (16 ^ 8)) as [Hlt | Hge].
  - now rewrite (Hsmall Hlt).
  - destruct (Hbig Hge) as [Hgt _]. apply Nat.eqb_neq. lia.
Qed.

(** X13.  Started on any non-empty string of hexadecimal digits, the cursor
    never fails: [n] steps give the numeral of the value plus 64 * n, and
    from the first step on the result is a FileId exactly while that number
    stays below 2^32. *)
Theorem iterate_next_adds (s : string) (n : nat) :
  s <> "" -> all_chars is_hex s = true ->
  exists r, iterate_next n s = Ok r
    /\ hex_value r = hex_value s + 64 * Z.of_nat n
    /\ ((0 < n)%nat -> is_file_id r = (hex_value s + 64 * Z.of_nat n <? 2 ^ 32)).
Proof.
  revert s. induction n as [| n IH]; intros s Hne Hall.
  - exists s. split; [reflexivity |]. split; [lia | intros H; lia].
  - destruct (next_of_hex s Hne Hall) as (r1 & Hr1 & Hne1 & Hall1 & Hval1 & Hid1).
    destruct (IH r1 Hne1 Hall1) as (r & Hr & Hval & Hid).
    exists r. cbn [iterate_next]. rewrite Hr1. split; [exact Hr |].
    split; [lia |]. intros _.
    replace (hex_value s + 64 * Z.of_nat (S n))
      with (hex_value r1 + 64 * Z.of_nat n) by lia.
    destruct n as [| n]; [| apply Hid; lia].
    cbn [iterate_next] in Hr. injection Hr as <-.
    rewrite Hid1. f_equal. lia.
Qed.

Lemma iterate_next_adds_witness :
  exists r, iterate_next 3 "004c93bf" = Ok r
    /\ hex_value r = hex_value "004c93bf" + 64 * Z.of_nat 3
    /\ ((0 < 3)%nat -> is_file_id r = (hex_value "004c93bf" + 64 * Z.of_nat 3 <? 2 ^ 32)).
Proof.
  apply (iterate_next_adds "004c93bf" 3); [discriminate | reflexivity].
Defined.

Lemma main_loop_row (cfg : config) (env : environment) (n : nat) :
  forall (file_sequence final previous : string) (w : world),
    stored_checkpoint env (durable w) = Some previous ->
    fst (main_loop cfg env (S n) file_sequence w) = Ok final ->
    exists last,
      iterate_next n file_sequence = Ok last
      /\ stored_checkpoint env (durable (snd (main_loop cfg env (S n) file_sequence w)))
         = Some last
      /\ get_new_file_sequence last = Ok final.
Proof.
  induction n as [| n IH]; intros file_sequence final previous w Hrow.
  - cbn [main_loop]. unfold bind, ret.
    pose proof (main_cycle_outcome cfg env file_sequence w) as Hc.
    destruct (main_cycle cfg env file_sequence w) as [[next | e] w1]; cbn [fst snd];
      [| discriminate].
    intros [= ->]. exists file_sequence. destruct Hc as [Hcp Hnext].
    rewrite Hrow in Hcp. auto.
  - change (main_loop cfg env (S (S n)) file_sequence w)
      with (bind (main_cycle cfg env file_sequence)
                 (fun next => main_loop cfg env (S n) next) w).
    unfold bind.
    pose proof (main_cycle_outcome cfg env file_sequence w) as Hc.
    destruct (main_cycle cfg env file_sequence w) as [[next | e] w1]; cbn [fst snd];
      [| discriminate].
    destruct Hc as [Hcp Hnext]. rewrite Hrow in Hcp. intros Hfinal.
    destruct (IH next final file_sequence w1 Hcp Hfinal) as (last & Hit & Hlastcp & Hlast).
    exists last. cbn [iterate_next]. rewrite Hnext. auto.
Qed.

Lemma get_last_file_sequence_row (env : environment) (w : world) (start : string) :
  fst (get_last_file_sequence env w) = Ok start ->
  stored_checkpoint env (durable w ++ pending w) = Some start
  /\ stored_checkpoint env (durable (snd (get_last_file_sequence env w))) = Some start.
Proof.
  unfold get_last_file_sequence, bind. rewrite cur_execute_eq.
  destruct (db_accepts env (durable w) (pending w) "select * from lastfile;");
    [| discriminate].
  unfold conn_commit. cbn [durable pending trace files].
  destruct (db_commits env (durable w) (pending w ++ ["select * from lastfile;"]));
    [| discriminate].
  cbn [durable pending trace files].
  assert (Hsame : stored_checkpoint env (durable w ++ pending w ++ ["select * from lastfile;"])
                  = stored_checkpoint env (durable w ++ pending w)).
  { rewrite (app_assoc (durable w)), stored_checkpoint_app.
    apply apply_unrelated. repeat constructor. }
  rewrite <- Hsame.
  destruct (stored_checkpoint env (durable w ++ pending w ++ ["select * from lastfile;"]))
    as [name |] eqn:Hrow; cbn [fst snd durable]; [| discriminate].
  intros [= ->]. split; [reflexivity | exact Hrow].
Qed.

(** X14.  When the [lastfile] table holds its row, after [n + 1] turns of
    the main loop that all returned the stored checkpoint is the file
    sequence of the last turn, the [n]-th successor of the starting one, and
    the value the loop goes on with is its successor: the checkpoint stays
    one file behind the cursor. *)
Theorem checkpoint_is_last_file_processed (cfg : config) (env : environment) (n : nat) :
  forall (file_sequence final previous : string) (w : world),
    stored_checkpoint env (durable w) = Some previous ->
    fst (main_loop cfg env (S n) file_sequence w) = Ok final ->
    exists last,
      iterate_next n file_sequence = Ok last
      /\ stored_checkpoint env (durable (snd (main_loop cfg env (S n) file_sequence w)))
         = Some last
      /\ get_new_file_sequence last = Ok final.
Proof.
  intros file_sequence final previous w Hrow Hfinal.
  destruct (main_loop_row cfg env n file_sequence final previous w Hrow Hfinal)
    as (last & Hit & Hcp & Hnext).
  exists last. split; [exact Hit |]. split; [exact Hcp | exact Hnext].
Qed.

Lemma checkpoint_is_last_file_processed_witness :
  let env := with_checkpoint "004c937f" (scripted [] [] []) in
  stored_checkpoint env (durable fresh_world) = Some "004c937f"
  /\ exists last,
    iterate_next 1 "004c93bf" = Ok last
    /\ stored_checkpoint env
         (durable (snd (main_loop (example_config "KIN" 2) env 2
                          "004c93bf" fresh_world)))
       = Some last
    /\ get_new_file_sequence last = Ok "004c943f".
Proof.
  split; [reflexivity |].
  apply (checkpoint_is_last_file_processed (example_config "KIN" 2)
           (with_checkpoint "004c937f" (scripted [] [] [])) 1
           "004c93bf" "004c943f" "004c937f" fresh_world eq_refl).
  vm_compute. reflexivity.
Defined.

(** X20.  A run of [main] whose [n + 1] turns all returned started from a
    [lastfile] table that holds a row: the name in it is where the loop
    started, and at the end the row names the file of the last turn, one
    file behind the value the loop goes on with.  The loop is never reached
    on a table without a row. *)
Theorem main_resumes_at_the_row (cfg : config) (env : environment) (n : nat)
    (w : world) (final : string) :
  fst (main cfg env (S n) w) = Ok final ->
  exists start last,
    stored_checkpoint env (durable w ++ pending w) = Some start
    /\ iterate_next n start = Ok last
    /\ stored_checkpoint env (durable (snd (main cfg env (S n) w))) = Some last
    /\ get_new_file_sequence last = Ok final.
Proof.
  intros Hfinal. destruct (main cfg env (S n) w) as [r wf] eqn:E.
  cbn [fst snd] in *. subst r. revert E.
  unfold main. unfold bind at 1.
  destruct (keeps_logging INFO "Successfully connected to postgres database {}"
              [Py.VStr (Py.lower (ASSET_CODE cfg))] w) as [Hd0 Hp0].
  destruct (logging INFO "Successfully connected to postgres database {}"
              [Py.VStr (Py.lower (ASSET_CODE cfg))] w) as [[[] | e] w0];
    cbn [fst snd] in *; [| discriminate].
  unfold bind at 1.
  pose proof (get_last_file_sequence_row env w0) as Hrow.
  destruct (get_last_file_sequence env w0) as [[start | e] w1];
    cbn [fst snd] in *; [| discriminate].
  destruct (Hrow start eq_refl) as [Hstart Hrow1].
  unfold bind at 1.
  destruct (keeps_logging INFO "Successfully initialized S3 client" [] w1) as [Hd2 _].
  destruct (logging INFO "Successfully initialized S3 client" [] w1) as [[[] | e] w2];
    cbn [fst snd] in *; [| discriminate].
  intros E. rewrite <- Hd2 in Hrow1.
  pose proof (main_loop_row cfg env n start final start w2 Hrow1) as Hloop.
  rewrite E in Hloop. cbn [fst snd] in Hloop.
  destruct (Hloop eq_refl) as (last & Hit & Hcp & Hnext).
  exists start, last. rewrite <- Hd0, <- Hp0. auto.
Qed.

Lemma main_resumes_at_the_row_witness :
  let env := with_checkpoint "004c93bf" (scripted [] [] []) in
  exists start last,
    stored_checkpoint env (durable fresh_world ++ pending fresh_world) = Some start
    /\ iterate_next 1 start = Ok last
    /\ stored_checkpoint env
         (durable (snd (main (example_config "KIN" 2) env 2 fresh_world))) = Some last
    /\ get_new_file_sequence last = Ok "004c943f".
Proof.
  apply (main_resumes_at_the_row (example_config "KIN" 2)
           (with_checkpoint "004c93bf" (scripted [] [] [])) 1 fresh_world "004c943f").
  vm_compute. reflexivity.
Defined.

Lemma keeps_files_write_to_postgres (cfg : config) (env : environment)
    (transactions : list transaction_history_entry) (ledgers_dictionary : gmap Z Z)
    (file_name : string) :
  keeps_files (write_to_postgres cfg env transactions ledgers_dictionary file_name).
Proof.
  assert (Hbind : forall A B (m : M A) (k : A -> M B),
            keeps_files m -> (forall a, keeps_files (k a)) -> keeps_files (bind m k)).
  { intros A B m k Hm Hk w. unfold bind. specialize (Hm w).
    destruct (m w) as [[a | e] w1]; cbn [snd] in Hm |- *; [| exact Hm].
    now rewrite (Hk a w1). }
  assert (Hlog : forall lvl template args, keeps_files (logging lvl template args)).
  { intros lvl template args w. unfold logging, bind, lift, emit.
    destruct (Py.format template args); reflexivity. }
  assert (Hexec : forall sql, keeps_files (cur_execute env sql)).
  { intros sql w. unfold cur_execute.
    destruct (db_accepts env (durable w) (pending w) sql); reflexivity. }
  assert (Hfor : forall A (xs : list A) (loop_body : A -> M unit),
            (forall x, keeps_files (loop_body x)) -> keeps_files (for_each xs loop_body)).
  { intros A xs loop_body Hb. induction xs as [| x xs IH]; [intros w; reflexivity |].
    cbn [for_each]. apply Hbind; [apply Hb | intros _; exact IH]. }
  unfold write_to_postgres.
  apply Hbind; [apply Hlog | intros _].
  apply Hbind.
  { apply Hfor. intros entry. unfold write_entry. apply Hfor. intros tr.
    apply Hfor. intros op. unfold write_operation.
    apply Hbind; [intros w; reflexivity | intros [sql |]; [apply Hexec | intros w; reflexivity]]. }
  intros _. apply Hbind; [intros w; reflexivity | intros sql].
  apply Hbind; [apply Hexec | intros _].
  apply Hbind; [| intros _; apply Hlog].
  intros w. unfold conn_commit. destruct (db_commits env (durable w) (pending w)); reflexivity.
Qed.

Lemma removes_downloads_after {A} (file_sequence : string) (m : M A) (k : A -> M string) :
  (forall a, removes_downloads file_sequence (k a)) ->
  removes_downloads file_sequence (bind m k).
Proof.
  intros Hk w. unfold bind. destruct (m w) as [[a | e] w1]; [apply Hk | exact I].
Qed.

Lemma removes_downloads_format (file_sequence template : string) (args : list Py.value)
    (a : string) (k : string -> M string) :
  Py.format template args = Ok a ->
  removes_downloads file_sequence (k a) ->
  removes_downloads file_sequence (bind (lift (Py.format template args)) k).
Proof. intros Hf Hk w. unfold bind, lift. rewrite Hf. apply Hk. Qed.

(** X15.  A turn of the main loop that returns has removed both files it
    downloaded: neither ledger-<sequence>.xdr.gz nor
    transactions-<sequence>.xdr.gz is left in the working directory. *)
Theorem main_cycle_removes_downloads (cfg : config) (env : environment)
    (file_sequence : string) (w : world) :
  match main_cycle cfg env file_sequence w with
  | (Ok _, w') =>
      (("ledger-" +:+ file_sequence +:+ ".xdr.gz") ∉ files w')
      /\ (("transactions-" +:+ file_sequence +:+ ".xdr.gz") ∉ files w')
  | (Raise _, _) => True
  end.
Proof.
  revert w. change (removes_downloads file_sequence (main_cycle cfg env file_sequence)).
  unfold main_cycle.
  apply removes_downloads_after; intros _.
  apply removes_downloads_after; intros _.
  apply (removes_downloads_format _ _ _ ("ledger-" +:+ file_sequence +:+ ".xdr.gz"));
    [reflexivity |].
  apply removes_downloads_after; intros ledgers.
  apply (removes_downloads_format _ _ _ ("transactions-" +:+ file_sequence +:+ ".xdr.gz"));
    [reflexivity |].
  apply removes_downloads_after; intros transactions.
  apply removes_downloads_after; intros _.
  intros w. unfold bind at 1. unfold os_remove at 1.
  destruct (decide (("ledger-" +:+ file_sequence +:+ ".xdr.gz") ∈ files w)); [| exact I].
  unfold bind at 1. unfold os_remove at 1. cbn [files].
  destruct (decide (_ ∈ _)); [| exact I].
  unfold bind at 1.
  pose proof (keeps_files_write_to_postgres cfg env transactions
                (get_ledgers_dictionary ledgers) file_sequence) as Hkeep.
  match goal with
  | |- context [write_to_postgres _ _ _ _ _ ?w2] => specialize (Hkeep w2); revert Hkeep
  end.
  destruct (write_to_postgres _ _ _ _ _ _) as [[[] | e'] w3]; [| intros _; exact I].
  cbn [snd files]. intros Hfiles. unfold lift.
  destruct (get_new_file_sequence file_sequence); [| exact I].
  rewrite Hfiles. split.
  - intros Hin. apply elem_of_difference in Hin as [Hin _].
    apply elem_of_difference in Hin as [_ Hin]. apply Hin. now apply elem_of_singleton.
  - intros Hin. apply elem_of_difference in Hin as [_ Hin].
    apply Hin. now apply elem_of_singleton.
Qed.

Lemma download_file_no_attempt (cfg : config) (env : environment)
    (file_name sd : string) (w : world) :
  MAX_RETRIES cfg < 0 -> sub_directory file_name = Ok sd ->
  download_file cfg env file_name w = (Ok tt, w).
Proof.
  intros Hneg Hsd. unfold download_file, bind, lift. rewrite Hsd. unfold Py.range.
  replace (Z.to_nat (MAX_RETRIES cfg + 1)) with O by lia. reflexivity.
Qed.

(** X16.  With a negative MAX_RETRIES no file is ever requested: a turn of
    the main loop goes straight to the decoder, and raises FileNotFoundError
    when the ledger file is not already in the working directory, leaving
    the world as it was. *)
Theorem negative_retries_fetch_nothing (cfg : config) (env : environment)
    (file_sequence : string) (w : world)
    (Hneg : MAX_RETRIES cfg < 0)
    (Habsent : ("ledger-" +:+ file_sequence +:+ ".xdr.gz") ∉ files w) :
  main_cycle cfg env file_sequence w = (Raise FileNotFoundError, w).
Proof.
  destruct (sub_directory_of_kind "ledger" file_sequence eq_refl) as (d1 & H1).
  destruct (sub_directory_of_kind "transactions" file_sequence eq_refl) as (d2 & H2).
  unfold main_cycle. unfold bind at 1.
  change ("ledger-" +:+ file_sequence) with ("ledger" +:+ String "-" file_sequence).
  rewrite (download_file_no_attempt cfg env _ d1 w Hneg H1).
  unfold bind at 1.
  change ("transactions-" +:+ file_sequence)
    with ("transactions" +:+ String "-" file_sequence).
  rewrite (download_file_no_attempt cfg env _ d2 w Hneg H2).
  unfold bind at 1. unfold lift at 1.
  change (Py.format "ledger-{}.xdr.gz" [Py.VStr file_sequence])
    with (@Ok string ("ledger-" +:+ file_sequence +:+ ".xdr.gz")).
  cbv beta iota. unfold bind at 1. unfold parse at 1.
  destruct (decide (_ ∈ _)); [contradiction | reflexivity].
Qed.

Lemma negative_retries_fetch_nothing_witness :
  main_cycle (example_config "KIN" (-1)) (scripted [] [] []) "004c93bf" fresh_world
  = (Raise FileNotFoundError, fresh_world).
Proof.
  apply (negative_retries_fetch_nothing (example_config "KIN" (-1)) (scripted [] [] [])
           "004c93bf" fresh_world).
  - reflexivity.
  - apply not_elem_of_empty.
Defined.

(** X17.  A fetch that raises ends the turn with its exception and with the
    database untouched.  When it is the ledger file that failed, the working
    directory is as before; when it is the transactions file, the ledger
    file already downloaded stays in the working directory: nothing removes
    it on the way out. *)
Theorem failed_fetch_ends_the_cycle (cfg : config) (env : environment)
    (file_sequence : string) (w : world) (e : exn) :
  let r1 := download_file cfg env ("ledger-" +:+ file_sequence) w in
  let r2 := download_file cfg env ("transactions-" +:+ file_sequence) (snd r1) in
  (fst r1 = Raise e ->
     main_cycle cfg env file_sequence w = (Raise e, snd r1)
     /\ durable (snd r1) = durable w /\ pending (snd r1) = pending w
     /\ files (snd r1) = files w)
  /\ (fst r1 = Ok tt -> fst r2 = Raise e ->
     main_cycle cfg env file_sequence w = (Raise e, snd r2)
     /\ durable (snd r2) = durable w /\ pending (snd r2) = pending w
     /\ (0 <= MAX_RETRIES cfg ->
         ("ledger-" +:+ file_sequence +:+ ".xdr.gz") ∈ files (snd r2))).
Proof.
  intros r1 r2.
  destruct (sub_directory_of_kind "ledger" file_sequence eq_refl) as (d1 & H1).
  destruct (sub_directory_of_kind "transactions" file_sequence eq_refl) as (d2 & H2).
  change ("ledger" +:+ String "-" file_sequence) with ("ledger-" +:+ file_sequence) in H1.
  change ("transactions" +:+ String "-" file_sequence)
    with ("transactions-" +:+ file_sequence) in H2.
  destruct (keeps_download_file cfg env ("ledger-" +:+ file_sequence) w) as [Hd1 Hp1].
  destruct (keeps_download_file cfg env ("transactions-" +:+ file_sequence) (snd r1))
    as [Hd2 Hp2].
  destruct (download_file_invariant cfg env _ d1 (fun _ => True) w H1 I ltac:(auto))
    as (T1 & _ & _ & Hf1).
  destruct (download_file_invariant cfg env _ d2 (fun _ => True) (snd r1) H2 I ltac:(auto))
    as (T2 & _ & _ & Hf2).
  fold r1 in Hd1, Hp1, Hf1. fold r2 in Hd2, Hp2, Hf2.
  split.
  - intros Hr1. rewrite Hr1 in Hf1. repeat split; try assumption.
    unfold main_cycle. unfold bind at 1. fold r1.
    destruct r1 as [res1 w1]. cbn [fst snd] in *. now rewrite Hr1.
  - intros Hr1 Hr2. rewrite Hr1 in Hf1. rewrite Hr2 in Hf2.
    split; [| split; [congruence | split; [congruence |]]].
    + unfold main_cycle. unfold bind at 1. fold r1.
      destruct r1 as [res1 w1] eqn:E1. cbn [fst snd] in *. rewrite Hr1.
      unfold bind at 1. fold r2.
      destruct r2 as [res2 w2]. cbn [fst snd] in *. now rewrite Hr2.
    + intros Hm. rewrite Hf2.
      destruct Hf1 as [[Hneg _] | ->]; [lia |].
      apply elem_of_union_l, elem_of_singleton. reflexivity.
Qed.

Lemma failed_fetch_ends_the_cycle_witness :
  let cfg := example_config "KIN" 0 in
  let env := scripted [Downloaded; Failed (ClientError "404")] [] [] in
  let r1 := download_file cfg env ("ledger-" +:+ "004c93bf") fresh_world in
  let r2 := download_file cfg env ("transactions-" +:+ "004c93bf") (snd r1) in
  main_cycle cfg env "004c93bf" fresh_world = (Raise (ClientError "404"), snd r2)
  /\ durable (snd r2) = durable fresh_world /\ pending (snd r2) = pending fresh_world
  /\ (0 <= MAX_RETRIES cfg -> ("ledger-" +:+ "004c93bf" +:+ ".xdr.gz") ∈ files (snd r2)).
Proof.
  intros cfg env.
  apply (proj2 (failed_fetch_ends_the_cycle cfg env "004c93bf" fresh_world
                  (ClientError "404"))).
  - vm_compute. reflexivity.
  - vm_compute. reflexivity.
Defined.

Lemma hex_char_of_digit (c : ascii) :
  lower_hex c = true -> Py.hex_char (hex_digit c) = c.
Proof.
  destruct c as [[] [] [] [] [] [] [] []]; intros H;
    try (vm_compute in H; discriminate H); reflexivity.
Qed.

Lemma hex_value_injective (s1 : string) : forall s2,
  String.length s1 = String.length s2 ->
  all_chars lower_hex s1 = true -> all_chars lower_hex s2 = true ->
  hex_value s1 = hex_value s2 -> s1 = s2.
Proof.
  induction s1 as [| c1 s1 IH]; intros [| c2 s2] Hlen H1 H2 Hv;
    try discriminate Hlen; [reflexivity |].
  cbn [all_chars] in H1, H2.
  apply andb_true_iff in H1 as [Hc1 H1]. apply andb_true_iff in H2 as [Hc2 H2].
  injection Hlen as Hlen.
  unfold hex_value in Hv. cbn [hex_value_from] in Hv.
  rewrite (hex_value_from_shift s1), (hex_value_from_shift s2), <- Hlen in Hv.
  pose proof (hex_value_bound s1 (all_chars_impl _ _ _ lower_hex_is_hex H1)) as B1.
  pose proof (hex_value_bound s2 (all_chars_impl _ _ _ lower_hex_is_hex H2)) as B2.
  rewrite <- Hlen in B2.
  destruct (is_hex_facts c1 (lower_hex_is_hex _ Hc1)) as (_ & _ & D1 & _).
  destruct (is_hex_facts c2 (lower_hex_is_hex _ Hc2)) as (_ & _ & D2 & _).
  set (P := 16 ^ Z.of_nat (String.length s1)) in *.
  assert (Hd : hex_digit c1 = hex_digit c2) by nia.
  assert (Hrest : hex_value s1 = hex_value s2) by nia.
  f_equal.
  - rewrite <- (hex_char_of_digit c1 Hc1), <- (hex_char_of_digit c2 Hc2). now rewrite Hd.
  - apply IH; assumption.
Qed.

(** X18.  On FileIds the cursor is injective: two different file sequences
    never have the same successor. *)
Theorem next_is_injective (s1 s2 : string) :
  is_file_id s1 = true -> is_file_id s2 = true -> s1 <> s2 ->
  get_new_file_sequence s1 <> get_new_file_sequence s2.
Proof.
  intros Hid1 Hid2 Hdiff Heq. apply Hdiff.
  destruct (file_id_facts s1 Hid1) as (Hl1 & Hlow1 & Hhex1 & Hne1 & _).
  destruct (file_id_facts s2 Hid2) as (Hl2 & Hlow2 & Hhex2 & Hne2 & _).
  destruct (next_shape s1 Hne1 Hhex1) as (r1 & Hr1 & _ & Hv1 & _).
  destruct (next_shape s2 Hne2 Hhex2) as (r2 & Hr2 & _ & Hv2 & _).
  rewrite Hr1, Hr2 in Heq. injection Heq as <-.
  apply hex_value_injective; try assumption; [congruence | lia].
Qed.

Lemma next_is_injective_witness :
  get_new_file_sequence "004c93bf" <> get_new_file_sequence "004c93ff".
Proof.
  apply (next_is_injective "004c93bf" "004c93ff"); [reflexivity | reflexivity | discriminate].
Defined.
